(** * Sampo: a 16-bit RISC core at register-transfer level

    A shallow embedding of the RTL description in [rtl/alu.py],
    [rtl/regfile.py], [rtl/decode.py] and [rtl/cpu.py].

    Conventions of the embedding.
    - A [Signal(w)] is a [Z]; an assignment to it keeps the low [w] bits
      ([trunc w]).  One-bit signals are [bool].
    - A slice [s[lo:hi]] is [bits lo hi s]; [s[i]] is [Z.testbit s i].
    - A combinational signal is a function of the current state and inputs:
      when several [m.d.comb] statements drive one signal, the last active one
      wins, so a signal's function collects its drivers in source order.
    - A synchronous ([m.d.sync]) assignment reads the values of the current
      cycle and takes effect at the clock edge: [tick] maps the state of one
      cycle to the state of the next. *)

From Stdlib Require Import ZArith Lia Bool.
From stdpp Require Import base list.

Local Open Scope Z_scope.

(** ** Bit vectors *)

Module bv.

(** Value kept by a [w]-bit signal when [x] is assigned to it. *)
Definition trunc (w x : Z) : Z := x mod 2 ^ w.

(** The slice [x[lo:hi]], an unsigned value of [hi - lo] bits. *)
Definition bits (lo hi x : Z) : Z := trunc (hi - lo) (Z.shiftr x lo).

(** [x.as_signed()] for a [w]-bit [x]: two's complement reading. *)
Definition as_signed (w x : Z) : Z :=
  let m := trunc w x in
  if m <? 2 ^ (w - 1) then m else m - 2 ^ w.

(** [Cat(lo, hi)] where [lo] is [w] bits wide: [lo] takes the low bits. *)
Definition cat (w lo hi : Z) : Z := Z.lor (trunc w lo) (Z.shiftl hi w).

(** Assignment of the one-bit value [b] to bit [i] of [x]. *)
Definition set_bit (i : Z) (b : bool) (x : Z) : Z :=
  if b then Z.setbit x i else Z.clearbit x i.

End bv.

Import bv.

(** ** rtl/alu.py *)

Module alu.

Inductive ALUOp : Set :=
  | ADD | SUB | AND | OR | XOR | SLL | SRL | SRA
  | MUL | MULH | DIV | REM | PASS_A | PASS_B | NOT | NEG.

(** Outputs of [ALU]. *)
Record ALUOut : Set := {
  result : Z;
  flag_n : bool;
  flag_z : bool;
  flag_c : bool;
  flag_v : bool
}.

(** [mul_result = Signal(32)], driven by the signed product. *)
Definition mul_result (a b : Z) : Z :=
  trunc 32 (as_signed 16 a * as_signed 16 b).

(** [mul_result_u = Signal(32)], the unsigned product.  The source computes
    it ("Unsigned multiplication for MULHU") but no case of the operation
    switch reads it. *)
Definition mul_result_u (a b : Z) : Z := trunc 32 (a * b).

(** [result_wide = Signal(17)]: the operation switch.  Floor division and
    modulo are the framework's [//] and [%] on signed operands; the quotient
    is 17 bits wide and the remainder 16. *)
Definition result_wide (op : ALUOp) (a b shift_amt : Z) : Z :=
  match op with
  | ADD => trunc 17 (a + b)
  | SUB => trunc 17 (a - b)
  | AND => trunc 17 (Z.land a b)
  | OR => trunc 17 (Z.lor a b)
  | XOR => trunc 17 (Z.lxor a b)
  | SLL => trunc 17 (Z.shiftl a shift_amt)
  | SRL => trunc 17 (Z.shiftr a shift_amt)
  | SRA => trunc 17 (Z.shiftr (as_signed 16 a) shift_amt)
  | MUL => trunc 17 (bits 0 16 (mul_result a b))
  | MULH => trunc 17 (bits 16 32 (mul_result a b))
  | DIV =>
      if negb (b =? 0)
      then trunc 17 (trunc 17 (as_signed 16 a / as_signed 16 b))
      else trunc 17 0xFFFF
  | REM =>
      if negb (b =? 0)
      then trunc 17 (trunc 16 (as_signed 16 a mod as_signed 16 b))
      else trunc 17 a
  | PASS_A => trunc 17 a
  | PASS_B => trunc 17 b
  | NOT => trunc 17 (trunc 16 (Z.lnot b))
  | NEG => trunc 17 (- as_signed 16 b)
  end.

(** The overflow switch: produced for ADD and SUB only. *)
Definition overflow (op : ALUOp) (a_sign b_sign r_sign : bool) : bool :=
  match op with
  | ADD => eqb a_sign b_sign && negb (eqb a_sign r_sign)
  | SUB => negb (eqb a_sign b_sign) && negb (eqb r_sign a_sign)
  | _ => false
  end.

(** [ALU.elaborate]: all outputs as functions of the inputs. *)
Definition ALU (op : ALUOp) (a b shift_amt : Z) : ALUOut :=
  let rw := result_wide op a b shift_amt in
  let res := bits 0 16 rw in
  {| result := res;
     flag_n := Z.testbit res 15;
     flag_z := res =? 0;
     flag_c := Z.testbit rw 16;
     flag_v := overflow op (Z.testbit a 15) (Z.testbit b 15) (Z.testbit res 15) |}.

(** [Shifter.elaborate]: result and carry-out for a 4-bit [func]. *)
Definition Shifter (v func : Z) (carry_in : bool) : Z * bool :=
  match func with
  | 0x0 => (trunc 16 (Z.shiftl v 1), Z.testbit v 15)
  | 0x1 => (trunc 16 (Z.shiftr v 1), Z.testbit v 0)
  | 0x2 => (trunc 16 (cat 15 (bits 1 16 v) (Z.b2z (Z.testbit v 15))), Z.testbit v 0)
  | 0x3 => (trunc 16 (cat 1 (Z.b2z (Z.testbit v 15)) (bits 0 15 v)), Z.testbit v 15)
  | 0x4 => (trunc 16 (cat 15 (bits 1 16 v) (Z.b2z (Z.testbit v 0))), Z.testbit v 0)
  | 0x5 => (trunc 16 (cat 1 (Z.b2z carry_in) (bits 0 15 v)), Z.testbit v 15)
  | 0x6 => (trunc 16 (cat 15 (bits 1 16 v) (Z.b2z carry_in)), Z.testbit v 0)
  | 0x7 => (trunc 16 (cat 8 (bits 8 16 v) (bits 0 8 v)), false)
  | 0x8 => (trunc 16 (Z.shiftl v 4), Z.testbit v 12)
  | 0x9 => (trunc 16 (Z.shiftr v 4), Z.testbit v 3)
  | 0xA => (trunc 16 (Z.shiftr (as_signed 16 v) 4), Z.testbit v 3)
  | 0xB => (trunc 16 (cat 4 (bits 12 16 v) (bits 0 12 v)), Z.testbit v 12)
  | 0xC => (trunc 16 (Z.shiftl v 8), Z.testbit v 8)
  | 0xD => (trunc 16 (Z.shiftr v 8), Z.testbit v 7)
  | 0xE => (trunc 16 (Z.shiftr (as_signed 16 v) 8), Z.testbit v 7)
  | 0xF => (trunc 16 (cat 8 (bits 8 16 v) (bits 0 8 v)), Z.testbit v 8)
  | _ => (trunc 16 v, false)
  end.

End alu.

(** ** rtl/regfile.py *)

Module regfile.

(** Storage of [RegisterFile]: [regs] is the main bank R0..R15 and
    [regs_alt] the alternate bank R4'..R11' (index [i] is the shadow of
    register [i + 4]). *)
Record RegisterFile : Set := {
  regs : list Z;
  regs_alt : list Z
}.

(** State after reset: every signal is 0. *)
Definition init : RegisterFile :=
  {| regs := replicate 16 0; regs_alt := replicate 8 0 |}.

(** Both arrays have the size the source allocates. *)
Definition wf (rf : RegisterFile) : Prop :=
  length (regs rf) = 16%nat /\ length (regs_alt rf) = 8%nat.

(** [arr[i]] for an index inside the array. *)
Definition sel (arr : list Z) (i : nat) : Z := default 0 (arr !! i).

(** A read port: address 0 returns 0 without looking at the storage.  The
    address signal is 4 bits wide. *)
Definition read_port (rf : RegisterFile) (rd_addr : Z) : Z :=
  let a := trunc 4 rd_addr in
  if a =? 0 then 0 else sel (regs rf) (Z.to_nat a).

Definition rd_data1 := read_port.
Definition rd_data2 := read_port.

(** The eight pairs of synchronous assignments made under [exx]: every right
    hand side reads the banks of the current cycle. *)
Definition exx_regs (cur_alt acc : list Z) : list Z :=
  foldl (fun l i => <[(i + 4)%nat := sel cur_alt i]> l) acc (seq 0 8).

Definition exx_alt (cur cur_alt : list Z) : list Z :=
  foldl (fun l i => <[i := sel cur (i + 4)]> l) cur_alt (seq 0 8).

(** One clock edge.  The write statement comes first in the source and the
    swap statements after it, so for R4..R11 the swap wins when both are
    active in one cycle. *)
Definition step (rf : RegisterFile) (wr_addr wr_data : Z) (wr_en exx : bool)
  : RegisterFile :=
  let a := trunc 4 wr_addr in
  let written :=
    if wr_en && negb (a =? 0)
    then <[Z.to_nat a := trunc 16 wr_data]> (regs rf)
    else regs rf in
  if exx
  then {| regs := exx_regs (regs_alt rf) written;
          regs_alt := exx_alt (regs rf) (regs_alt rf) |}
  else {| regs := written; regs_alt := regs_alt rf |}.

(** The inputs of one cycle, and a run over a sequence of cycles. *)
Record Port : Set := {
  wr_addr : Z;
  wr_data : Z;
  wr_en : bool;
  exx : bool
}.

Definition step_port (rf : RegisterFile) (p : Port) : RegisterFile :=
  step rf (wr_addr p) (wr_data p) (wr_en p) (exx p).

Definition run (rf : RegisterFile) (ps : list Port) : RegisterFile :=
  foldl step_port rf ps.

End regfile.

(** ** rtl/decode.py *)

Module decode.

Import alu.

Inductive InstType : Set :=
  | ALU_REG | ALU_IMM | LOAD | STORE | BRANCH | JUMP | JUMP_REG | SHIFT
  | MULDIV | MISC | IO | SYSTEM | EXTENDED | INVALID.

(** Instruction fields. *)
Definition opcode (instr : Z) : Z := bits 12 16 instr.
Definition f_rd (instr : Z) : Z := bits 8 12 instr.
Definition f_rs1 (instr : Z) : Z := bits 4 8 instr.
Definition f_rs2 (instr : Z) : Z := bits 0 4 instr.
Definition f_func (instr : Z) : Z := bits 0 4 instr.
Definition imm8_raw (instr : Z) : Z := bits 0 8 instr.
Definition offset12_raw (instr : Z) : Z := bits 0 12 instr.

(** The JUMP opcode has three forms; [JR] is [(instr & 0x0F0F) == 0x0F00],
    [JALR] is [func == 1] with [rd != 0]. *)
Definition jump_is_jr (instr : Z) : bool :=
  Z.land (trunc 16 instr) 0x0F0F =? 0x0F00.
Definition jump_is_jalr (instr : Z) : bool :=
  negb (jump_is_jr instr) && ((f_func instr =? 1) && negb (f_rd instr =? 0)).

(** Outputs of [Decoder]. *)
Record Decoded : Set := {
  inst_type : InstType;
  rd : Z;
  rs1 : Z;
  rs2 : Z;
  func : Z;
  imm8 : Z;
  imm16_out : Z;
  offset8 : Z;
  offset12 : Z;
  alu_op : ALUOp;
  shift_func : Z;
  branch_cond : Z;
  mem_load : bool;
  mem_store : bool;
  mem_byte : bool;
  mem_signed : bool;
  reg_write : bool;
  is_jump : bool;
  is_branch : bool;
  is_call : bool;
  is_ret : bool;
  is_extended : bool;
  is_halt : bool;
  is_nop : bool;
  is_exx : bool;
  is_ei : bool;
  is_di : bool;
  is_reti : bool;
  is_io_in : bool;
  is_io_out : bool;
  io_port_imm : bool;
  is_push : bool;
  is_pop : bool
}.

(** Each control signal below is the default of the source followed by the
    drivers found in the [Switch(opcode)] block, in source order. *)

Definition d_inst_type (instr : Z) : InstType :=
  match opcode instr with
  | 0x0 | 0x1 | 0x2 | 0x3 | 0x4 => ALU_REG
  | 0x5 => ALU_IMM
  | 0x6 => match f_func instr with 0x8 => ALU_IMM | _ => LOAD end
  | 0x7 => STORE
  | 0x8 => BRANCH
  | 0x9 => if jump_is_jr instr then JUMP_REG
           else if jump_is_jalr instr then JUMP_REG else JUMP
  | 0xA => SHIFT
  | 0xB => MULDIV
  | 0xC => MISC
  | 0xD => IO
  | 0xE => SYSTEM
  | 0xF => EXTENDED
  | _ => INVALID
  end.

Definition d_alu_op (instr : Z) : ALUOp :=
  match opcode instr with
  | 0x0 => ADD
  | 0x1 => SUB
  | 0x2 => AND
  | 0x3 => OR
  | 0x4 => XOR
  | 0x5 => ADD
  | 0xB => match f_func instr with
           | 0x0 => MUL
           | 0x1 => MULH
           | 0x3 => DIV
           | 0x5 => REM
           | _ => ADD
           end
  | 0xC => match f_func instr with
           | 0x2 => SUB
           | 0x3 => AND
           | 0x4 => PASS_B
           | _ => ADD
           end
  | 0xF => match f_func instr with
           | 0x0 => ADD
           | 0x1 => SUB
           | 0x2 => AND
           | 0x3 => OR
           | 0x4 => XOR
           | 0x7 => PASS_B
           | 0xA => SUB
           | _ => ADD
           end
  | _ => ADD
  end.

Definition d_mem_load (instr : Z) : bool :=
  match opcode instr with
  | 0x6 => match f_func instr with 0x8 => false | _ => true end
  | 0xF => match f_func instr with 0x5 => true | _ => false end
  | _ => false
  end.

Definition d_mem_store (instr : Z) : bool :=
  match opcode instr with
  | 0x7 => true
  | 0xF => match f_func instr with 0x6 => true | _ => false end
  | _ => false
  end.

Definition d_mem_byte (instr : Z) : bool :=
  match opcode instr with
  | 0x6 => match f_func instr with 0x1 | 0x2 => true | _ => false end
  | 0x7 => f_func instr =? 0x1
  | _ => false
  end.

Definition d_mem_signed (instr : Z) : bool :=
  match opcode instr with
  | 0x6 => match f_func instr with 0x1 => true | _ => false end
  | _ => false
  end.

Definition d_reg_write (instr : Z) : bool :=
  match opcode instr with
  | 0x0 | 0x1 | 0x2 | 0x3 | 0x4 | 0x5 | 0x6 => true
  | 0x9 => jump_is_jalr instr
  | 0xA | 0xB => true
  | 0xC => match f_func instr with 0x1 | 0x4 | 0xC => true | _ => false end
  | 0xD => match f_func instr with 0x0 | 0x2 => true | _ => false end
  | 0xF => match f_func instr with
           | 0x0 | 0x1 | 0x2 | 0x3 | 0x4 | 0x5 | 0x7 | 0x9 | 0xB => true
           | _ => false
           end
  | _ => false
  end.

Definition d_is_jump (instr : Z) : bool :=
  match opcode instr with
  | 0x9 => true
  | 0xF => match f_func instr with 0x8 | 0x9 => true | _ => false end
  | _ => false
  end.

Definition d_is_call (instr : Z) : bool :=
  match opcode instr with
  | 0x9 => jump_is_jalr instr
  | 0xF => match f_func instr with 0x9 => true | _ => false end
  | _ => false
  end.

Definition d_is_ret (instr : Z) : bool :=
  match opcode instr with
  | 0x9 => jump_is_jr instr && (f_rs1 instr =? 1)
  | _ => false
  end.

Definition d_is_io_in (instr : Z) : bool :=
  match opcode instr with
  | 0xD => match f_func instr with 0x0 | 0x2 => true | _ => false end
  | 0xF => match f_func instr with 0xB => true | _ => false end
  | _ => false
  end.

Definition d_is_io_out (instr : Z) : bool :=
  match opcode instr with
  | 0xD => match f_func instr with 0x1 | 0x3 => true | _ => false end
  | 0xF => match f_func instr with 0xC => true | _ => false end
  | _ => false
  end.

Definition d_io_port_imm (instr : Z) : bool :=
  match opcode instr with
  | 0xD => match f_func instr with 0x0 | 0x1 => true | _ => false end
  | 0xF => match f_func instr with 0xB | 0xC => true | _ => false end
  | _ => false
  end.

(** A signal raised by one sub-function of one opcode only. *)
Definition sub_is (op sel key instr : Z) : bool :=
  (opcode instr =? op) && (sel =? key).

(** The 12-bit jump offset: when bit 11 is set, four ones are concatenated
    above it and the 16 bits are read as signed. *)
Definition d_offset12 (instr : Z) : Z :=
  if Z.testbit (offset12_raw instr) 11
  then as_signed 16 (cat 12 (offset12_raw instr) 0xF)
  else as_signed 12 (offset12_raw instr).

(** [Decoder.elaborate]. *)
Definition Decoder (instr imm16 : Z) : Decoded :=
  {| inst_type := d_inst_type instr;
     rd := f_rd instr;
     rs1 := f_rs1 instr;
     rs2 := f_rs2 instr;
     func := f_func instr;
     imm8 := trunc 16 (as_signed 8 (imm8_raw instr));
     imm16_out := trunc 16 imm16;
     offset8 := as_signed 8 (imm8_raw instr);
     offset12 := d_offset12 instr;
     alu_op := d_alu_op instr;
     shift_func := f_func instr;
     branch_cond := f_rd instr;
     mem_load := d_mem_load instr;
     mem_store := d_mem_store instr;
     mem_byte := d_mem_byte instr;
     mem_signed := d_mem_signed instr;
     reg_write := d_reg_write instr;
     is_jump := d_is_jump instr;
     is_branch := opcode instr =? 0x8;
     is_call := d_is_call instr;
     is_ret := d_is_ret instr;
     is_extended := opcode instr =? 0xF;
     is_halt := sub_is 0xE (f_rd instr) 0x1 instr;
     is_nop := sub_is 0xE (f_rd instr) 0x0 instr;
     is_exx := sub_is 0xC (f_func instr) 0xB instr;
     is_ei := sub_is 0xE (f_rd instr) 0x3 instr;
     is_di := sub_is 0xE (f_rd instr) 0x2 instr;
     is_reti := sub_is 0xE (f_rd instr) 0x4 instr;
     is_io_in := d_is_io_in instr;
     is_io_out := d_is_io_out instr;
     io_port_imm := d_io_port_imm instr;
     is_push := sub_is 0xC (f_func instr) 0x0 instr;
     is_pop := sub_is 0xC (f_func instr) 0x1 instr |}.

End decode.

(** ** rtl/cpu.py *)

Module cpu.

Import alu decode.

Inductive CPUState : Set :=
  | RESET | FETCH | FETCH_EXT | DECODE | EXECUTE | MEMORY | WRITEBACK | HALTED.

(** The registers of [SampoCPU] together with its register file.  [state] is
    the state register of the FSM. *)
Record CPU : Set := {
  state : CPUState;
  pc : Z;
  flags : Z;
  cycles : Z;
  instr : Z;
  instr_ext : Z;
  alu_result : Z;
  mem_addr_reg : Z;
  mem_data_reg : Z;
  int_enabled : bool;
  rf : regfile.RegisterFile
}.

(** Input signals of one cycle. *)
Record Inputs : Set := {
  mem_rdata : Z;
  mem_ready : bool;
  io_rdata : Z
}.

(** Output signals of one cycle. *)
Record Outputs : Set := {
  mem_addr : Z;
  mem_wdata : Z;
  mem_we : bool;
  mem_be : Z;
  mem_valid : bool;
  io_addr : Z;
  io_wdata : Z;
  io_rd : bool;
  io_wr : bool;
  halted : bool
}.

(** Power-on values: the FSM starts in RESET, [pc] at the reset vector. *)
Definition power_on (reset_vector : Z) : CPU :=
  {| state := RESET; pc := trunc 16 reset_vector; flags := 0; cycles := 0;
     instr := 0; instr_ext := 0; alu_result := 0; mem_addr_reg := 0;
     mem_data_reg := 0; int_enabled := false; rf := regfile.init |}.

(** *** Synchronous assignments, one per register *)

Definition set_state (v : CPUState) (c : CPU) : CPU :=
  {| state := v; pc := pc c; flags := flags c; cycles := cycles c;
     instr := instr c; instr_ext := instr_ext c; alu_result := alu_result c;
     mem_addr_reg := mem_addr_reg c; mem_data_reg := mem_data_reg c;
     int_enabled := int_enabled c; rf := rf c |}.

Definition set_pc (v : Z) (c : CPU) : CPU :=
  {| state := state c; pc := trunc 16 v; flags := flags c; cycles := cycles c;
     instr := instr c; instr_ext := instr_ext c; alu_result := alu_result c;
     mem_addr_reg := mem_addr_reg c; mem_data_reg := mem_data_reg c;
     int_enabled := int_enabled c; rf := rf c |}.

Definition set_flags (v : Z) (c : CPU) : CPU :=
  {| state := state c; pc := pc c; flags := trunc 8 v; cycles := cycles c;
     instr := instr c; instr_ext := instr_ext c; alu_result := alu_result c;
     mem_addr_reg := mem_addr_reg c; mem_data_reg := mem_data_reg c;
     int_enabled := int_enabled c; rf := rf c |}.

(** [flags[i].eq(b)]: one bit of the flag register. *)
Definition set_flag (i : Z) (b : bool) (c : CPU) : CPU :=
  {| state := state c; pc := pc c; flags := set_bit i b (flags c);
     cycles := cycles c;
     instr := instr c; instr_ext := instr_ext c; alu_result := alu_result c;
     mem_addr_reg := mem_addr_reg c; mem_data_reg := mem_data_reg c;
     int_enabled := int_enabled c; rf := rf c |}.

Definition set_cycles (v : Z) (c : CPU) : CPU :=
  {| state := state c; pc := pc c; flags := flags c; cycles := trunc 32 v;
     instr := instr c; instr_ext := instr_ext c; alu_result := alu_result c;
     mem_addr_reg := mem_addr_reg c; mem_data_reg := mem_data_reg c;
     int_enabled := int_enabled c; rf := rf c |}.

Definition set_instr (v : Z) (c : CPU) : CPU :=
  {| state := state c; pc := pc c; flags := flags c; cycles := cycles c;
     instr := trunc 16 v; instr_ext := instr_ext c; alu_result := alu_result c;
     mem_addr_reg := mem_addr_reg c; mem_data_reg := mem_data_reg c;
     int_enabled := int_enabled c; rf := rf c |}.

Definition set_instr_ext (v : Z) (c : CPU) : CPU :=
  {| state := state c; pc := pc c; flags := flags c; cycles := cycles c;
     instr := instr c; instr_ext := trunc 16 v; alu_result := alu_result c;
     mem_addr_reg := mem_addr_reg c; mem_data_reg := mem_data_reg c;
     int_enabled := int_enabled c; rf := rf c |}.

Definition set_alu_result (v : Z) (c : CPU) : CPU :=
  {| state := state c; pc := pc c; flags := flags c; cycles := cycles c;
     instr := instr c; instr_ext := instr_ext c; alu_result := trunc 16 v;
     mem_addr_reg := mem_addr_reg c; mem_data_reg := mem_data_reg c;
     int_enabled := int_enabled c; rf := rf c |}.

Definition set_mem_addr_reg (v : Z) (c : CPU) : CPU :=
  {| state := state c; pc := pc c; flags := flags c; cycles := cycles c;
     instr := instr c; instr_ext := instr_ext c; alu_result := alu_result c;
     mem_addr_reg := trunc 16 v; mem_data_reg := mem_data_reg c;
     int_enabled := int_enabled c; rf := rf c |}.

Definition set_mem_data_reg (v : Z) (c : CPU) : CPU :=
  {| state := state c; pc := pc c; flags := flags c; cycles := cycles c;
     instr := instr c; instr_ext := instr_ext c; alu_result := alu_result c;
     mem_addr_reg := mem_addr_reg c; mem_data_reg := trunc 16 v;
     int_enabled := int_enabled c; rf := rf c |}.

Definition set_int_enabled (v : bool) (c : CPU) : CPU :=
  {| state := state c; pc := pc c; flags := flags c; cycles := cycles c;
     instr := instr c; instr_ext := instr_ext c; alu_result := alu_result c;
     mem_addr_reg := mem_addr_reg c; mem_data_reg := mem_data_reg c;
     int_enabled := v; rf := rf c |}.

Definition set_rf (v : regfile.RegisterFile) (c : CPU) : CPU :=
  {| state := state c; pc := pc c; flags := flags c; cycles := cycles c;
     instr := instr c; instr_ext := instr_ext c; alu_result := alu_result c;
     mem_addr_reg := mem_addr_reg c; mem_data_reg := mem_data_reg c;
     int_enabled := int_enabled c; rf := v |}.

(** The four flag assignments from the ALU outputs. *)
Definition set_alu_flags (o : ALUOut) (c : CPU) : CPU :=
  set_flag 4 (flag_v o) (set_flag 5 (flag_c o)
    (set_flag 6 (flag_z o) (set_flag 7 (flag_n o) c))).

(** *** Combinational signals *)

Definition dec (c : CPU) : Decoded := Decoder (instr c) (instr_ext c).

Definition is_alu_imm (d : Decoded) : bool :=
  match inst_type d with ALU_IMM => true | _ => false end.

(** [regfile.rd_addr1]: [decoder.rs1]; [decoder.rd] for ALU_IMM; and, while
    in EXECUTE, [decoder.rd] for a store, an I/O output and an extended
    store. *)
Definition rd_addr1 (c : CPU) : Z :=
  let d := dec c in
  let base := if is_alu_imm d then rd d else rs1 d in
  match state c with
  | EXECUTE =>
      match inst_type d with
      | STORE => rd d
      | IO => if is_io_in d then base
              else if is_io_out d then rd d else base
      | EXTENDED =>
          if (mem_load d || mem_store d) && mem_store d then rd d else base
      | _ => base
      end
  | _ => base
  end.

Definition rd_addr2 (c : CPU) : Z := rs2 (dec c).

Definition rd_data1 (c : CPU) : Z := regfile.rd_data1 (rf c) (rd_addr1 c).
Definition rd_data2 (c : CPU) : Z := regfile.rd_data2 (rf c) (rd_addr2 c).

Definition rs1_data (c : CPU) : Z := trunc 16 (rd_data1 c).
Definition rs2_data (c : CPU) : Z := trunc 16 (rd_data2 c).

(** Both branches of the A-input selection read port 1. *)
Definition alu_a (c : CPU) : Z :=
  if is_alu_imm (dec c) then trunc 16 (rd_data1 c) else rs1_data c.

Definition alu_b (c : CPU) : Z :=
  let d := dec c in
  if is_alu_imm d then imm8 d
  else if is_extended d then trunc 16 (instr_ext c)
  else rs2_data c.

(** The ALU instance; [carry_in] and [shift_amt] are left undriven (0). *)
Definition alu_out (c : CPU) : ALUOut :=
  ALU (alu_op (dec c)) (alu_a c) (alu_b c) 0.

Definition shifter_out (c : CPU) : Z * bool :=
  Shifter (rs1_data c) (shift_func (dec c)) (Z.testbit (flags c) 5).

Definition flag_n (c : CPU) : bool := Z.testbit (flags c) 7.
Definition flag_z (c : CPU) : bool := Z.testbit (flags c) 6.
Definition flag_c (c : CPU) : bool := Z.testbit (flags c) 5.
Definition flag_v (c : CPU) : bool := Z.testbit (flags c) 4.

(** Branch condition evaluation. *)
Definition branch_taken (c : CPU) : bool :=
  match branch_cond (dec c) with
  | 0x0 => flag_z c
  | 0x1 => negb (flag_z c)
  | 0x2 => negb (eqb (flag_n c) (flag_v c))
  | 0x3 => eqb (flag_n c) (flag_v c)
  | 0x4 => negb (flag_c c)
  | 0x5 => flag_c c
  | 0x6 => flag_n c
  | 0x7 => negb (flag_n c)
  | 0x8 => flag_v c
  | 0x9 => negb (flag_v c)
  | 0xA => flag_c c
  | 0xB => negb (flag_c c)
  | 0xC => negb (flag_z c) && eqb (flag_n c) (flag_v c)
  | 0xD => flag_z c || negb (eqb (flag_n c) (flag_v c))
  | 0xE => flag_c c && negb (flag_z c)
  | 0xF => negb (flag_c c) || flag_z c
  | _ => false
  end.

Definition pc_plus_2 (c : CPU) : Z := trunc 16 (pc c + 2).
Definition pc_plus_4 (c : CPU) : Z := trunc 16 (pc c + 4).
Definition pc_branch (c : CPU) : Z :=
  trunc 16 (pc c + Z.shiftl (offset8 (dec c)) 1).
Definition pc_jump (c : CPU) : Z :=
  trunc 16 (pc c + Z.shiftl (offset12 (dec c)) 1).

(** Register-file write port and swap pulse: the write is issued in
    WRITEBACK, the pulse in EXECUTE of EXX; otherwise the defaults (0). *)
Definition wr_en (c : CPU) : bool :=
  match state c with WRITEBACK => reg_write (dec c) | _ => false end.
Definition wr_addr (c : CPU) : Z :=
  if wr_en c then rd (dec c) else 0.
Definition wr_data (c : CPU) : Z :=
  if wr_en c then alu_result c else 0.
Definition exx (c : CPU) : bool :=
  match state c, inst_type (dec c) with
  | EXECUTE, MISC => is_exx (dec c)
  | _, _ => false
  end.

(** *** The EXECUTE state

    Right-hand sides read the current cycle ([c]); the assignments are
    applied in source order, so a later one to the same register wins. *)
Definition execute (c : CPU) (i : Inputs) : CPU :=
  let d := dec c in
  let c1 := set_pc (if is_extended d then pc_plus_4 c else pc_plus_2 c) c in
  let alu_latch :=
    set_state WRITEBACK
      (set_alu_flags (alu_out c) (set_alu_result (result (alu_out c)) c1)) in
  let io_in_latch :=
    set_state WRITEBACK (set_alu_result (cat 8 (io_rdata i) 0) c1) in
  let c2 :=
    match inst_type d with
    | ALU_REG => alu_latch
    | ALU_IMM => alu_latch
    | LOAD => set_state MEMORY (set_mem_addr_reg (rs1_data c) c1)
    | STORE =>
        set_state MEMORY
          (set_mem_data_reg (rd_data1 c) (set_mem_addr_reg (rs1_data c) c1))
    | BRANCH =>
        set_state FETCH
          (if branch_taken c then set_pc (pc_branch c) c1 else c1)
    | JUMP => set_state FETCH (set_pc (pc_jump c) c1)
    | JUMP_REG =>
        let cj := set_pc (rs1_data c) c1 in
        if is_call d
        then set_state WRITEBACK (set_alu_result (pc_plus_2 c) cj)
        else set_state FETCH cj
    | SHIFT =>
        let r := fst (shifter_out c) in
        set_state WRITEBACK
          (set_flag 6 (r =? 0)
             (set_flag 7 (Z.testbit r 15)
                (set_flag 5 (snd (shifter_out c)) (set_alu_result r c1))))
    | MULDIV =>
        set_state WRITEBACK (set_alu_result (result (alu_out c)) c1)
    | MISC =>
        if is_exx d then set_state FETCH c1
        else if func d =? 0x2
        then set_state FETCH (set_alu_flags (alu_out c) c1)
        else if func d =? 0x4
        then set_state WRITEBACK (set_alu_result (rs1_data c) c1)
        else set_state FETCH c1
    | IO =>
        if is_io_in d then io_in_latch
        else if is_io_out d then set_state FETCH c1
        else c1
    | SYSTEM =>
        if is_halt d then set_state HALTED c1
        else if is_ei d then set_state FETCH (set_int_enabled true c1)
        else if is_di d then set_state FETCH (set_int_enabled false c1)
        else set_state FETCH c1
    | EXTENDED =>
        if mem_load d || mem_store d
        then
          let ca := set_mem_addr_reg (rs1_data c + trunc 16 (instr_ext c)) c1 in
          set_state MEMORY
            (if mem_store d then set_mem_data_reg (rd_data1 c) ca else ca)
        else if is_jump d
        then
          let cj := set_pc (instr_ext c) c1 in
          if is_call d
          then set_state WRITEBACK (set_alu_result (pc_plus_4 c) cj)
          else set_state FETCH cj
        else if func d =? 0x7
        then set_state WRITEBACK (set_alu_result (instr_ext c) c1)
        else if is_io_in d then io_in_latch
        else if is_io_out d then set_state FETCH c1
        else alu_latch
    | INVALID => set_state FETCH c1
    end in
  set_cycles (cycles c + 1) c2.

(** *** The MEMORY state

    In the source the two assignments to the Python name [byte_data] sit
    under [m.If(mem_addr_reg[0])] and [m.Else()], but both run when the
    design is elaborated and the second one stays: the byte read is
    [mem_rdata[0:8]] for either parity of the address. *)
Definition byte_data (i : Inputs) : Z := bits 0 8 (mem_rdata i).

Definition memory (c : CPU) (i : Inputs) : CPU :=
  let d := dec c in
  if mem_ready i
  then
    if mem_load d
    then
      set_state WRITEBACK
        (if mem_byte d
         then
           if mem_signed d
           then set_alu_result (as_signed 8 (byte_data i)) c
           else set_alu_result (byte_data i) c
         else set_alu_result (mem_rdata i) c)
    else set_state FETCH c
  else c.

(** *** One clock cycle *)
Definition tick (reset_vector : Z) (c : CPU) (i : Inputs) : CPU :=
  let c' :=
    match state c with
    | RESET =>
        set_state FETCH
          (set_cycles 0
             (set_int_enabled false (set_flags 0 (set_pc reset_vector c))))
    | FETCH =>
        if mem_ready i
        then set_state DECODE (set_instr (mem_rdata i) c)
        else c
    | DECODE =>
        if is_extended (dec c) then set_state FETCH_EXT c
        else set_state EXECUTE c
    | FETCH_EXT =>
        if mem_ready i
        then set_state EXECUTE (set_instr_ext (mem_rdata i) c)
        else c
    | EXECUTE => execute c i
    | MEMORY => memory c i
    | WRITEBACK => set_state FETCH c
    | HALTED => c
    end in
  set_rf (regfile.step (rf c) (wr_addr c) (wr_data c) (wr_en c) (exx c)) c'.

(** A run over the inputs of consecutive cycles. *)
Definition ticks (reset_vector : Z) (c : CPU) (ins : list Inputs) : CPU :=
  foldl (tick reset_vector) c ins.

(** The FSM states entered along such a run. *)
Fixpoint trace (reset_vector : Z) (c : CPU) (ins : list Inputs)
  : list CPUState :=
  match ins with
  | [] => []
  | i :: rest =>
      let c' := tick reset_vector c i in
      state c' :: trace reset_vector c' rest
  end.

(** *** Output signals of one cycle *)

Definition quiet (c : CPU) : Outputs :=
  {| mem_addr := 0; mem_wdata := 0; mem_we := false; mem_be := 0x3;
     mem_valid := false; io_addr := 0; io_wdata := 0; io_rd := false;
     io_wr := false;
     halted := match state c with HALTED => true | _ => false end |}.

Definition drive_mem (addr wdata : Z) (we : bool) (be : Z) (o : Outputs)
  : Outputs :=
  {| mem_addr := trunc 16 addr; mem_wdata := trunc 16 wdata; mem_we := we;
     mem_be := be; mem_valid := true; io_addr := io_addr o;
     io_wdata := io_wdata o; io_rd := io_rd o; io_wr := io_wr o;
     halted := halted o |}.

Definition drive_io (addr wdata : Z) (rd_strobe wr_strobe : bool) (o : Outputs)
  : Outputs :=
  {| mem_addr := mem_addr o; mem_wdata := mem_wdata o; mem_we := mem_we o;
     mem_be := mem_be o; mem_valid := mem_valid o; io_addr := trunc 8 addr;
     io_wdata := trunc 8 wdata; io_rd := rd_strobe; io_wr := wr_strobe;
     halted := halted o |}.

Definition outputs (c : CPU) : Outputs :=
  let d := dec c in
  let q := quiet c in
  match state c with
  | FETCH => drive_mem (pc c) 0 false 0x3 q
  | FETCH_EXT => drive_mem (pc c + 2) 0 false 0x3 q
  | EXECUTE =>
      match inst_type d with
      | IO =>
          if is_io_in d
          then drive_io (if io_port_imm d then rs1 d
                         else bits 0 8 (rs1_data c)) 0 true false q
          else if is_io_out d
          then drive_io (if io_port_imm d then rs1 d
                         else bits 0 8 (rd_data1 c))
                        (bits 0 8 (rd_data1 c)) false true q
          else q
      | EXTENDED =>
          if mem_load d || mem_store d then q
          else if is_jump d then q
          else if func d =? 0x7 then q
          else if is_io_in d
          then drive_io (bits 0 8 (instr_ext c)) 0 true false q
          else if is_io_out d
          then drive_io (bits 0 8 (instr_ext c)) (bits 0 8 (rs1_data c))
                        false true q
          else q
      | _ => q
      end
  | MEMORY =>
      if mem_store d
      then
        if mem_byte d
        then
          if Z.testbit (mem_addr_reg c) 0
          then drive_mem (mem_addr_reg c) (Z.shiftl (mem_data_reg c) 8)
                         true 0x2 q
          else drive_mem (mem_addr_reg c) (mem_data_reg c) true 0x1 q
        else drive_mem (mem_addr_reg c) (mem_data_reg c) true 0x3 q
      else drive_mem (mem_addr_reg c) 0 false 0x3 q
  | _ => q
  end.

End cpu.

(** ** rtl/opcodes.py *)

Module opcodes.

(** [BranchCond]: the condition codes carried in bits 11:8 of a branch. *)
Inductive BranchCond : Set :=
  | BEQ | BNE | BLT | BGE | BLTU | BGEU | BMI | BPL
  | BVS | BVC | BCS | BCC | BGT | BLE | BHI | BLS.

Definition BranchCond_of (code : Z) : option BranchCond :=
  match code with
  | 0x0 => Some BEQ | 0x1 => Some BNE | 0x2 => Some BLT | 0x3 => Some BGE
  | 0x4 => Some BLTU | 0x5 => Some BGEU | 0x6 => Some BMI | 0x7 => Some BPL
  | 0x8 => Some BVS | 0x9 => Some BVC | 0xA => Some BCS | 0xB => Some BCC
  | 0xC => Some BGT | 0xD => Some BLE | 0xE => Some BHI | 0xF => Some BLS
  | _ => None
  end.

(** [MulDivFunc.MULHU = 0x2], "Multiply high (unsigned)": what the opcode
    table documents for that function code, on 16-bit operands. *)
Definition MULHU_of (a b : Z) : Z := bits 16 32 (trunc 16 a * trunc 16 b).

End opcodes.

(** ** The branch table as the specification words it *)

Module spec.

Import opcodes.

(** "Taken when", by mnemonic, over the four flags. *)
Definition taken_when (bc : BranchCond) (n z c v : bool) : bool :=
  match bc with
  | BEQ => z
  | BNE => negb z
  | BLT => xorb n v
  | BGE => eqb n v
  | BLTU => negb c
  | BGEU => c
  | BMI => n
  | BPL => negb n
  | BVS => v
  | BVC => negb v
  | BCS => c
  | BCC => negb c
  | BGT => negb z && eqb n v
  | BLE => z || xorb n v
  | BHI => c && negb z
  | BLS => negb c || z
  end.

End spec.

(** ** Concrete machine states used in the examples *)

Module scenario.

Import regfile cpu.

Definition rv : Z := 0x0100.

(** The bus returns word [w]; the bus is idle. *)
Definition fetch (w : Z) : Inputs :=
  {| mem_rdata := w; mem_ready := true; io_rdata := 0 |}.
Definition idle : Inputs :=
  {| mem_rdata := 0; mem_ready := false; io_rdata := 0 |}.

(** R2 = R4 = 0x0100, R3 = 0, R5 = 0x1234, R6 = 0x0081. *)
Definition sample_regs : list Z :=
  [0; 0x1111; 0x0100; 0; 0x0100; 0x1234; 0x0081; 0x0007;
   0x0008; 0x0009; 0x000A; 0x000B; 0x000C; 0x000D; 0x000E; 0x000F].

Definition sample_rf : RegisterFile :=
  {| regs := sample_regs; regs_alt := replicate 8 0 |}.

(** About to fetch at the reset vector. *)
Definition at_fetch : CPU :=
  {| state := FETCH; pc := rv; flags := 0; cycles := 0; instr := 0;
     instr_ext := 0; alu_result := 0; mem_addr_reg := 0; mem_data_reg := 0;
     int_enabled := false; rf := sample_rf |}.

(** In EXECUTE with instruction word [w] latched. *)
Definition at_execute (w : Z) : CPU :=
  {| state := EXECUTE; pc := rv; flags := 0; cycles := 0; instr := w;
     instr_ext := 0; alu_result := 0; mem_addr_reg := 0; mem_data_reg := 0;
     int_enabled := false; rf := sample_rf |}.

(** One 16-bit instruction without bus stalls: fetch, decode, execute and
    one more cycle (write-back or memory, if the instruction has one). *)
Definition run_word (w : Z) (c : CPU) : CPU :=
  ticks rv c [fetch w; idle; idle; idle].

End scenario.

(** ** rtl/regfile.py, the variant with combinational bypass *)

Module regfile_async.

Import regfile.

(** A read port of [RegisterFileAsync]: address 0 reads 0; a write in
    flight to the address read is forwarded; otherwise the storage. *)
Definition read_port (rf : RegisterFile) (rd_addr wr_addr wr_data : Z)
    (wr_en : bool) : Z :=
  let a := trunc 4 rd_addr in
  let bypass := wr_en && (trunc 4 wr_addr =? a) && negb (a =? 0) in
  if a =? 0 then 0
  else if bypass then trunc 16 wr_data
  else sel (regs rf) (Z.to_nat a).

(** The stack-pointer tap: [sp = regs[2]]. *)
Definition sp (rf : RegisterFile) : Z := sel (regs rf) 2.

(** One clock edge: the write port, then the direct SP write, then the
    swap, in source order. *)
Definition step (rf : RegisterFile) (wr_addr wr_data : Z) (wr_en exx : bool)
    (sp_wr : Z) (sp_wr_en : bool) : RegisterFile :=
  let a := trunc 4 wr_addr in
  let written :=
    if wr_en && negb (a =? 0)
    then <[Z.to_nat a := trunc 16 wr_data]> (regs rf)
    else regs rf in
  let with_sp :=
    if sp_wr_en then <[2%nat := trunc 16 sp_wr]> written else written in
  if exx
  then {| regs := exx_regs (regs_alt rf) with_sp;
          regs_alt := exx_alt (regs rf) (regs_alt rf) |}
  else {| regs := with_sp; regs_alt := regs_alt rf |}.

End regfile_async.

(** ** rtl/soc.py *)

Module soc.

(** [RAM._init_words]: the byte image packed into 16-bit words, low byte
    first, an odd last byte completed by 0, then zero words up to
    [size // 2] words. *)
Fixpoint pack_words (init : list Z) : list Z :=
  match init with
  | [] => []
  | [lo] => [Z.lor lo (Z.shiftl 0 8)]
  | lo :: hi :: rest => Z.lor lo (Z.shiftl hi 8) :: pack_words rest
  end.

Definition _init_words (size : Z) (init : list Z) : list Z :=
  let words := pack_words init in
  words ++ replicate (Z.to_nat (size / 2) - length words) 0.

(** Byte [k] of a word image: the half of word [k / 2] that the parity of
    [k] selects. *)
Definition byte_at (words : list Z) (k : nat) : Z :=
  let w := default 0 (words !! (k / 2)%nat) in
  if Nat.even k then bits 0 8 w else bits 8 16 w.

(** Registers of [UART]. *)
Record UART : Set := {
  tx_buf : Z;
  tx_pending : bool;
  rx_buf : Z;
  rx_ready_int : bool
}.

(** Its input signals of one cycle: the I/O bus and the serial side. *)
Record UARTIn : Set := {
  addr : Z;
  wdata : Z;
  rd : bool;
  wr : bool;
  tx_ready : bool;
  rx_data : Z;
  rx_valid : bool
}.

Definition uart_reset : UART :=
  {| tx_buf := 0; tx_pending := false; rx_buf := 0; rx_ready_int := false |}.

(** [status]: bit 0 is RX ready, bit 1 is TX ready. *)
Definition status (u : UART) : Z :=
  set_bit 1 (negb (tx_pending u)) (set_bit 0 (rx_ready_int u) 0).

(** Combinational outputs. *)
Definition rdata (u : UART) (i : UARTIn) : Z :=
  if rd i
  then match trunc 8 (addr i) with
       | 0x80 => status u
       | 0x81 => trunc 8 (rx_buf u)
       | _ => 0
       end
  else 0.

Definition tx_data (u : UART) : Z := trunc 8 (tx_buf u).
Definition tx_valid (u : UART) : bool := tx_pending u.
Definition rx_ready (u : UART) : bool := negb (rx_ready_int u).

(** One clock edge.  The four groups of synchronous assignments are applied
    in source order (read, write, TX handshake, RX capture); every condition
    reads the registers of the current cycle. *)
Definition uart_step (u : UART) (i : UARTIn) : UART :=
  let data_port := trunc 8 (addr i) =? 0x81 in
  let rdy1 := if rd i && data_port then false else rx_ready_int u in
  let buf2 := if wr i && data_port then trunc 8 (wdata i) else tx_buf u in
  let pend2 := if wr i && data_port then true else tx_pending u in
  let pend3 := if tx_ready i && tx_pending u then false else pend2 in
  let capture := rx_valid i && negb (rx_ready_int u) in
  {| tx_buf := buf2;
     tx_pending := pend3;
     rx_buf := if capture then trunc 8 (rx_data i) else rx_buf u;
     rx_ready_int := if capture then true else rdy1 |}.

(** A run of the UART over the inputs of consecutive cycles. *)
Definition uart_run (u : UART) (ins : list UARTIn) : UART :=
  foldl uart_step u ins.

(** The cycle reads, or writes, the data register (port 0x81). *)
Definition reads_data (i : UARTIn) : bool :=
  rd i && (trunc 8 (addr i) =? 0x81).
Definition writes_data (i : UARTIn) : bool :=
  wr i && (trunc 8 (addr i) =? 0x81).

(** The CPU and the UART as [SampoSoC] wires them; the memory side of the
    CPU stays an input. *)
Record Board : Set := {
  b_cpu : cpu.CPU;
  b_uart : UART
}.

Record BoardIn : Set := {
  bi_mem_rdata : Z;
  bi_mem_ready : bool;
  bi_tx_ready : bool;
  bi_rx_data : Z;
  bi_rx_valid : bool
}.

(** What the UART sees in a cycle: the CPU's I/O outputs and the pins. *)
Definition uart_in (b : Board) (i : BoardIn) : UARTIn :=
  let o := cpu.outputs (b_cpu b) in
  {| addr := cpu.io_addr o; wdata := cpu.io_wdata o; rd := cpu.io_rd o;
     wr := cpu.io_wr o; tx_ready := bi_tx_ready i; rx_data := bi_rx_data i;
     rx_valid := bi_rx_valid i |}.

(** What the CPU sees: the memory inputs and the UART's read data. *)
Definition cpu_in (b : Board) (i : BoardIn) : cpu.Inputs :=
  {| cpu.mem_rdata := bi_mem_rdata i; cpu.mem_ready := bi_mem_ready i;
     cpu.io_rdata := rdata (b_uart b) (uart_in b i) |}.

Definition board_step (reset_vector : Z) (b : Board) (i : BoardIn) : Board :=
  {| b_cpu := cpu.tick reset_vector (b_cpu b) (cpu_in b i);
     b_uart := uart_step (b_uart b) (uart_in b i) |}.

(** No answer from the memory and nothing on the serial side. *)
Definition board_idle : BoardIn :=
  {| bi_mem_rdata := 0; bi_mem_ready := false; bi_tx_ready := false;
     bi_rx_data := 0; bi_rx_valid := false |}.

End soc.

(** ** Predicates used in the statements below *)

Module inv.

Import regfile cpu.

(** Every stored register is a 16-bit value. *)
Definition words16 (rf : RegisterFile) : Prop :=
  Forall (fun x => 0 <= x < 2 ^ 16) (regs rf) /\
  Forall (fun x => 0 <= x < 2 ^ 16) (regs_alt rf).

(** The instruction types whose EXECUTE case assigns the flag register. *)
Definition writes_flags (d : decode.Decoded) : bool :=
  match decode.inst_type d with
  | decode.ALU_REG | decode.ALU_IMM | decode.SHIFT => true
  | decode.MISC => negb (decode.is_exx d) && (decode.func d =? 0x2)
  | decode.EXTENDED =>
      negb (decode.mem_load d || decode.mem_store d)
      && negb (decode.is_jump d) && negb (decode.func d =? 0x7)
      && negb (decode.is_io_in d) && negb (decode.is_io_out d)
  | _ => false
  end.

(** The states in which the engine holds a request on the memory bus. *)
Definition on_bus (s : CPUState) : bool :=
  match s with FETCH | FETCH_EXT | MEMORY => true | _ => false end.

End inv.

Import alu regfile decode cpu.

(** * Properties *)

(** ** Bit-vector facts *)

Section bits_facts.

Lemma trunc_range w x : 0 <= w -> 0 <= trunc w x < 2 ^ w.
Proof. intros Hw. unfold trunc. apply Z.mod_pos_bound. lia. Qed.

Lemma trunc_small w x : 0 <= x < 2 ^ w -> trunc w x = x.
Proof. intros H. unfold trunc. apply Z.mod_small; exact H. Qed.

Lemma bits_range lo hi x : lo <= hi -> 0 <= bits lo hi x < 2 ^ (hi - lo).
Proof. intros H. unfold bits. apply trunc_range. lia. Qed.

Lemma testbit_trunc w x n :
  0 <= w -> 0 <= n -> Z.testbit (trunc w x) n = (n <? w) && Z.testbit x n.
Proof.
  intros Hw Hn. unfold trunc. destruct (Z.ltb_spec n w) as [Hlt | Hge].
  - rewrite Z.mod_pow2_bits_low by lia. reflexivity.
  - rewrite Z.mod_pow2_bits_high by lia. reflexivity.
Qed.

(** A slice of the low [w] bits does not see a truncation to [w] bits. *)
Lemma bits_trunc lo hi w x :
  0 <= lo -> lo <= hi -> hi <= w -> bits lo hi (trunc w x) = bits lo hi x.
Proof.
  intros Hlo Hhi Hw. unfold bits. apply Z.bits_inj'. intros n Hn.
  rewrite !testbit_trunc by lia.
  destruct (Z.ltb_spec n (hi - lo)) as [Hlt | Hge]; simpl; [| reflexivity].
  rewrite !Z.shiftr_spec by lia. rewrite testbit_trunc by lia.
  destruct (Z.ltb_spec (n + lo) w); [reflexivity | lia].
Qed.

End bits_facts.

(** ** The ALU *)

Section alu_facts.

Lemma alu_add_wide a b sa :
  0 <= a < 2 ^ 16 -> 0 <= b < 2 ^ 16 -> result_wide ADD a b sa = a + b.
Proof. intros Ha Hb. simpl. apply trunc_small. lia. Qed.

Lemma alu_result_low op a b sa :
  result (ALU op a b sa) = result_wide op a b sa mod 2 ^ 16.
Proof.
  unfold ALU, bits, trunc. cbn [result]. rewrite Z.shiftr_0_r. reflexivity.
Qed.

(** Bit 16 of a 17-bit value is set exactly from [2^16] on. *)
Lemma testbit16_carry s :
  0 <= s < 2 ^ 17 -> (Z.testbit s 16 = true <-> 2 ^ 16 <= s).
Proof.
  intros Hs. rewrite Z.testbit_true by lia.
  change (2 ^ 17) with (2 * 2 ^ 16) in Hs.
  split; intros H.
  - destruct (Z.lt_ge_cases s (2 ^ 16)) as [Hlt | Hge]; [| exact Hge].
    rewrite Z.div_small in H by lia. discriminate H.
  - assert (Hq : s / 2 ^ 16 = 1).
    { symmetry. apply (Z.div_unique s (2 ^ 16) 1 (s - 2 ^ 16)); lia. }
    rewrite Hq. reflexivity.
Qed.

(** C5. For 16-bit operands the ALU's ADD yields [(a + b) mod 2^16]; N is
    bit 15 of the result, Z says the result is 0, C says the sum reached
    [2^16], and V is set exactly when [a] and [b] agree in sign and the
    result's sign differs from [a]'s. *)
Theorem alu_add_spec (a b sa : Z) :
  0 <= a < 2 ^ 16 -> 0 <= b < 2 ^ 16 ->
  let o := ALU ADD a b sa in
  result o = (a + b) mod 2 ^ 16 /\
  alu.flag_n o = Z.testbit ((a + b) mod 2 ^ 16) 15 /\
  (alu.flag_z o = true <-> (a + b) mod 2 ^ 16 = 0) /\
  (alu.flag_c o = true <-> 2 ^ 16 <= a + b) /\
  (alu.flag_v o = true <->
     Z.testbit a 15 = Z.testbit b 15 /\
     Z.testbit a 15 <> Z.testbit ((a + b) mod 2 ^ 16) 15).
Proof.
  intros Ha Hb o.
  assert (Hres : result o = (a + b) mod 2 ^ 16).
  { unfold o. rewrite alu_result_low, alu_add_wide by assumption. reflexivity. }
  split; [exact Hres |].
  split; [rewrite <- Hres; reflexivity |].
  split; [rewrite <- Hres; apply Z.eqb_eq |].
  split.
  - change (alu.flag_c o) with (Z.testbit (result_wide ADD a b sa) 16).
    rewrite alu_add_wide by assumption. apply testbit16_carry.
    change (2 ^ 17) with (2 * 2 ^ 16). lia.
  - rewrite <- Hres.
    change (alu.flag_v o)
      with (eqb (Z.testbit a 15) (Z.testbit b 15)
            && negb (eqb (Z.testbit a 15) (Z.testbit (result o) 15))).
    destruct (Z.testbit a 15), (Z.testbit b 15), (Z.testbit (result o) 15);
      simpl; split; intros H; try discriminate H; try (split; congruence);
      destruct H as [H1 H2]; congruence.
Qed.

Lemma alu_add_spec_witness :
  let o := ALU ADD 0xFFFF 0x0001 0 in
  (0 <= 0xFFFF < 2 ^ 16 /\ 0 <= 0x0001 < 2 ^ 16) /\
  result o = (0xFFFF + 0x0001) mod 2 ^ 16 /\
  alu.flag_n o = Z.testbit ((0xFFFF + 0x0001) mod 2 ^ 16) 15 /\
  (alu.flag_z o = true <-> (0xFFFF + 0x0001) mod 2 ^ 16 = 0) /\
  (alu.flag_c o = true <-> 2 ^ 16 <= 0xFFFF + 0x0001) /\
  (alu.flag_v o = true <->
     Z.testbit 0xFFFF 15 = Z.testbit 0x0001 15 /\
     Z.testbit 0xFFFF 15 <> Z.testbit ((0xFFFF + 0x0001) mod 2 ^ 16) 15).
Proof.
  split; [lia |]. apply (alu_add_spec 0xFFFF 0x0001 0); lia.
Defined.

(** Division and remainder by zero, at the ALU alone. *)
Lemma alu_div_rem_by_zero a sa :
  0 <= a < 2 ^ 16 ->
  result (ALU DIV a 0 sa) = 0xFFFF /\ result (ALU REM a 0 sa) = a.
Proof.
  intros Ha. split.
  - reflexivity.
  - rewrite alu_result_low. cbn [result_wide Z.eqb negb].
    rewrite (trunc_small 17 a) by (change (2 ^ 17) with (2 * 2 ^ 16); lia).
    apply Z.mod_small. exact Ha.
Qed.

End alu_facts.

(** ** The register file *)

Section regfile_facts.

Lemma step_idle rf a d : step rf a d false false = rf.
Proof. destruct rf; reflexivity. Qed.

Lemma step_write_r0 rf d en : step rf 0 d en false = rf.
Proof. destruct rf, en; reflexivity. Qed.

Lemma step_write_r0_exx rf d en : step rf 0 d en true = step rf 0 0 false true.
Proof. destruct rf, en; reflexivity. Qed.

Lemma read_port_r0 rf : read_port rf 0 = 0.
Proof. reflexivity. Qed.

(** A well-formed file is sixteen registers and eight shadows. *)
Lemma wf_inv rf :
  wf rf ->
  exists r0 r1 r2 r3 r4 r5 r6 r7 r8 r9 r10 r11 r12 r13 r14 r15
         s4 s5 s6 s7 s8 s9 s10 s11,
    rf = {| regs := [r0; r1; r2; r3; r4; r5; r6; r7;
                     r8; r9; r10; r11; r12; r13; r14; r15];
            regs_alt := [s4; s5; s6; s7; s8; s9; s10; s11] |}.
Proof.
  destruct rf as [l m]. unfold wf. cbn [regs regs_alt]. intros [Hl Hm].
  do 16 (destruct l as [| ? l]; [discriminate Hl |]).
  destruct l; [| discriminate Hl].
  do 8 (destruct m as [| ? m]; [discriminate Hm |]).
  destruct m; [| discriminate Hm].
  repeat eexists.
Qed.

Lemma step_wf rf a d en x : wf rf -> wf (step rf a d en x).
Proof.
  intros Hwf. destruct (wf_inv rf Hwf) as
    (r0 & r1 & r2 & r3 & r4 & r5 & r6 & r7 & r8 & r9 & r10 & r11 & r12 & r13
       & r14 & r15 & s4 & s5 & s6 & s7 & s8 & s9 & s10 & s11 & ->).
  unfold wf, step, exx_regs, exx_alt. cbn [regs regs_alt].
  destruct x, (en && negb (trunc 4 a =? 0));
    cbn [foldl seq regs regs_alt]; rewrite ?length_insert; split; reflexivity.
Qed.

(** The swap alone (no write in the same cycle), on the 24 stored values. *)
Lemma step_exx_explicit r0 r1 r2 r3 r4 r5 r6 r7 r8 r9 r10 r11 r12 r13 r14 r15
      s4 s5 s6 s7 s8 s9 s10 s11 a d :
  step {| regs := [r0; r1; r2; r3; r4; r5; r6; r7;
                   r8; r9; r10; r11; r12; r13; r14; r15];
          regs_alt := [s4; s5; s6; s7; s8; s9; s10; s11] |} a d false true
  = {| regs := [r0; r1; r2; r3; s4; s5; s6; s7;
                s8; s9; s10; s11; r12; r13; r14; r15];
       regs_alt := [r4; r5; r6; r7; r8; r9; r10; r11] |}.
Proof. reflexivity. Qed.

(** Two swaps in a row restore both banks. *)
Lemma step_exx_twice rf a d a' d' :
  wf rf -> step (step rf a d false true) a' d' false true = rf.
Proof.
  intros Hwf. destruct (wf_inv rf Hwf) as
    (r0 & r1 & r2 & r3 & r4 & r5 & r6 & r7 & r8 & r9 & r10 & r11 & r12 & r13
       & r14 & r15 & s4 & s5 & s6 & s7 & s8 & s9 & s10 & s11 & ->).
  rewrite !step_exx_explicit. reflexivity.
Qed.

(** One swap: R[k] for [4 <= k < 12] and R'[k] trade places, the other
    registers stay. *)
Lemma step_exx_lookup rf a d (k : nat) :
  wf rf ->
  let rf' := step rf a d false true in
  ((4 <= k < 12)%nat ->
     regs rf' !! k = regs_alt rf !! (k - 4)%nat /\
     regs_alt rf' !! (k - 4)%nat = regs rf !! k) /\
  ((k < 4 \/ 12 <= k)%nat -> regs rf' !! k = regs rf !! k).
Proof.
  intros Hwf rf'. unfold rf'. destruct (wf_inv rf Hwf) as
    (r0 & r1 & r2 & r3 & r4 & r5 & r6 & r7 & r8 & r9 & r10 & r11 & r12 & r13
       & r14 & r15 & s4 & s5 & s6 & s7 & s8 & s9 & s10 & s11 & ->).
  rewrite step_exx_explicit. cbn [regs regs_alt].
  split; intros Hk.
  - do 12 (destruct k as [| k]; [try lia; split; reflexivity |]). lia.
  - do 16 (destruct k as [| k]; [try lia; reflexivity |]). reflexivity.
Qed.

(** C8. After any sequence of writes and swaps, either read port returns 0
    at address 0, and a write addressed to register 0 leaves the whole
    storage as it was, whatever the data and the enable. *)
Theorem r0_reads_zero_and_ignores_writes (rf0 : RegisterFile) (ps : list Port) :
  let rf := run rf0 ps in
  regfile.rd_data1 rf 0 = 0 /\
  regfile.rd_data2 rf 0 = 0 /\
  (forall (d : Z) (en : bool), step rf 0 d en false = rf) /\
  (forall (d : Z) (en : bool), step rf 0 d en true = step rf 0 0 false true).
Proof.
  intros rf. repeat split.
  - intros d en. apply step_write_r0.
  - intros d en. apply step_write_r0_exx.
Qed.

End regfile_facts.

(** ** The engine *)

Section cpu_facts.

Variable rv : Z.

Local Arguments trunc : simpl never.
Local Arguments bits : simpl never.

(** *** One cycle, state by state *)

Lemma tick_fetch c i :
  state c = FETCH -> mem_ready i = true ->
  tick rv c i = set_state DECODE (set_instr (mem_rdata i) c).
Proof.
  intros Hst Hrdy. unfold tick, cpu.wr_addr, cpu.wr_data, cpu.wr_en, cpu.exx.
  rewrite Hst, Hrdy, step_idle. destruct c; reflexivity.
Qed.

Lemma tick_decode c i :
  state c = DECODE -> is_extended (dec c) = false ->
  tick rv c i = set_state EXECUTE c.
Proof.
  intros Hst Hext. unfold tick, cpu.wr_addr, cpu.wr_data, cpu.wr_en, cpu.exx.
  rewrite Hst, Hext, step_idle. destruct c; reflexivity.
Qed.

Lemma tick_execute c i :
  state c = EXECUTE ->
  tick rv c i = set_rf (step (rf c) 0 0 false (cpu.exx c)) (execute c i).
Proof.
  intros Hst. unfold tick, cpu.wr_addr, cpu.wr_data, cpu.wr_en.
  rewrite Hst. reflexivity.
Qed.

Lemma tick_writeback c i :
  state c = WRITEBACK ->
  tick rv c i =
  set_rf (step (rf c) (cpu.wr_addr c) (cpu.wr_data c) (reg_write (dec c)) false)
         (set_state FETCH c).
Proof.
  intros Hst. unfold tick, cpu.exx.
  replace (cpu.wr_en c) with (reg_write (dec c))
    by (unfold cpu.wr_en; rewrite Hst; reflexivity).
  rewrite Hst. reflexivity.
Qed.

(** The swap pulse is raised by EXX alone. *)
Lemma exx_only_misc c :
  (inst_type (dec c) = MISC -> is_exx (dec c) = false) -> cpu.exx c = false.
Proof.
  intros H. unfold cpu.exx. destruct (state c); try reflexivity.
  destruct (inst_type (dec c)); try reflexivity. apply H. reflexivity.
Qed.

(** *** Decoding by opcode *)

Lemma opcode_latched w : opcode (trunc 16 w) = opcode w.
Proof. apply bits_trunc; lia. Qed.

Lemma f_func_latched w : f_func (trunc 16 w) = f_func w.
Proof. apply bits_trunc; lia. Qed.

Lemma dec_misc c :
  opcode (instr c) = 0xC ->
  inst_type (dec c) = MISC /\ is_extended (dec c) = false /\
  is_exx (dec c) = (f_func (instr c) =? 0xB) /\
  func (dec c) = f_func (instr c).
Proof.
  intros Hop. unfold dec, Decoder, d_inst_type, sub_is.
  cbn [inst_type is_extended is_exx func]. rewrite Hop. repeat split.
Qed.

Lemma dec_muldiv c :
  opcode (instr c) = 0xB ->
  inst_type (dec c) = MULDIV /\ is_extended (dec c) = false /\
  reg_write (dec c) = true.
Proof.
  intros Hop. unfold dec, Decoder, d_inst_type, d_reg_write.
  cbn [inst_type is_extended reg_write]. rewrite Hop. repeat split.
Qed.

Lemma alu_result_range op a b sa : 0 <= result (ALU op a b sa) < 2 ^ 16.
Proof. unfold ALU. cbn [result]. apply (bits_range 0 16). lia. Qed.

(** *** The MISC sub-functions without an engine case *)

Lemma execute_misc_idle c i :
  opcode (instr c) = 0xC -> f_func (instr c) <> 0xB ->
  f_func (instr c) <> 0x2 -> f_func (instr c) <> 0x4 ->
  execute c i = set_cycles (cycles c + 1) (set_state FETCH (set_pc (pc_plus_2 c) c)).
Proof.
  intros Hop Hb H2 H4. destruct (dec_misc c Hop) as (Hty & Hext & Hexx & Hfn).
  unfold execute. rewrite Hty, Hext, Hexx, Hfn.
  rewrite (proj2 (Z.eqb_neq _ _) Hb), (proj2 (Z.eqb_neq _ _) H2),
    (proj2 (Z.eqb_neq _ _) H4).
  reflexivity.
Qed.

(** C10. Executing TEST (opcode 0xC, func 3) goes from EXECUTE straight to
    FETCH; the flags, the register file and every latch keep their values,
    no bus is driven, and only PC (plus 2, in 16 bits) and CYCLES (plus 1, in
    32 bits) change. *)
Theorem test_changes_only_pc_and_cycles (c : CPU) (i : Inputs) :
  state c = EXECUTE -> opcode (instr c) = 0xC -> f_func (instr c) = 0x3 ->
  let c' := tick rv c i in
  state c' = FETCH /\
  flags c' = flags c /\
  rf c' = rf c /\
  pc c' = trunc 16 (pc c + 2) /\
  cycles c' = trunc 32 (cycles c + 1) /\
  instr c' = instr c /\ instr_ext c' = instr_ext c /\
  alu_result c' = alu_result c /\ mem_addr_reg c' = mem_addr_reg c /\
  mem_data_reg c' = mem_data_reg c /\ int_enabled c' = int_enabled c /\
  outputs c = quiet c.
Proof.
  intros Hst Hop Hfn c'. unfold c'.
  destruct (dec_misc c Hop) as (Hty & Hext & Hexx & Hfunc).
  rewrite tick_execute by exact Hst.
  rewrite exx_only_misc by (intros _; rewrite Hexx, Hfn; reflexivity).
  rewrite step_idle.
  rewrite execute_misc_idle by (try exact Hop; rewrite Hfn; discriminate).
  cbn [state flags rf pc cycles instr instr_ext alu_result mem_addr_reg
       mem_data_reg int_enabled set_rf set_cycles set_state set_pc].
  repeat split.
  - unfold pc_plus_2. apply trunc_small. apply trunc_range. lia.
  - unfold outputs. rewrite Hst, Hty. reflexivity.
Qed.

(** *** MULDIV *)

Lemma execute_muldiv c i :
  state c = EXECUTE -> opcode (instr c) = 0xB ->
  tick rv c i =
  set_cycles (cycles c + 1)
    (set_state WRITEBACK
       (set_alu_result (result (alu_out c)) (set_pc (pc_plus_2 c) c))).
Proof.
  intros Hst Hop. destruct (dec_muldiv c Hop) as (Hty & Hext & _).
  rewrite tick_execute by exact Hst.
  rewrite exx_only_misc by (rewrite Hty; discriminate).
  rewrite step_idle. unfold execute. rewrite Hty, Hext.
  destruct c; reflexivity.
Qed.

Lemma muldiv_exec_facts c i :
  state c = EXECUTE -> opcode (instr c) = 0xB ->
  alu_result (tick rv c i) = result (alu_out c) /\
  state (tick rv c i) = WRITEBACK.
Proof.
  intros Hst Hop. rewrite execute_muldiv by assumption.
  cbn [alu_result state set_cycles set_state set_alu_result set_pc].
  split; [apply trunc_small, alu_result_range | reflexivity].
Qed.

(** C2, as the engine has it. For every MULDIV instruction (opcode 0xB) the
    EXECUTE step latches ALU_RES := alu.result and goes to WRITEBACK; the
    flag register keeps its value. *)
Theorem muldiv_latches_result_keeps_flags (c : CPU) (i : Inputs) :
  state c = EXECUTE -> opcode (instr c) = 0xB ->
  let c' := tick rv c i in
  alu_result c' = result (alu_out c) /\
  flags c' = flags c /\
  state c' = WRITEBACK.
Proof.
  intros Hst Hop c'. unfold c'. rewrite execute_muldiv by assumption.
  cbn [alu_result flags state set_cycles set_state set_alu_result set_pc].
  repeat split. apply trunc_small, alu_result_range.
Qed.

(** C6. With divisor 0 the ALU yields 0xFFFF for DIV and the dividend for
    REM; in the engine a MULDIV instruction whose B operand is 0 latches
    these values and goes on to WRITEBACK as any other: no trap state. *)
Theorem div_rem_by_zero (a sa : Z) (c : CPU) (i : Inputs) :
  0 <= a < 2 ^ 16 ->
  state c = EXECUTE -> opcode (instr c) = 0xB -> alu_b c = 0 ->
  result (ALU DIV a 0 sa) = 0xFFFF /\
  result (ALU REM a 0 sa) = a /\
  (f_func (instr c) = 0x3 -> alu_result (tick rv c i) = 0xFFFF) /\
  (f_func (instr c) = 0x5 -> alu_result (tick rv c i) = alu_a c) /\
  state (tick rv c i) = WRITEBACK.
Proof.
  intros Ha Hst Hop Hb.
  destruct (alu_div_rem_by_zero a sa Ha) as [Hdiv Hrem].
  destruct (muldiv_exec_facts c i Hst Hop) as (Hres & Hstate).
  split; [exact Hdiv |]. split; [exact Hrem |].
  assert (Hop' : forall k, f_func (instr c) = k ->
            alu_op (dec c) =
            match k with 0x0 => MUL | 0x1 => MULH | 0x3 => DIV | 0x5 => REM
                    | _ => ADD end).
  { intros k Hk. unfold dec, Decoder, d_alu_op. cbn [alu_op].
    rewrite Hop, Hk. reflexivity. }
  assert (Ha' : 0 <= alu_a c < 2 ^ 16).
  { unfold alu_a, rs1_data. destruct (is_alu_imm (dec c));
      apply trunc_range; lia. }
  repeat split.
  - intros Hf. rewrite Hres. unfold alu_out. rewrite (Hop' _ Hf), Hb.
    reflexivity.
  - intros Hf. rewrite Hres. unfold alu_out. rewrite (Hop' _ Hf), Hb.
    apply (alu_div_rem_by_zero (alu_a c) 0 Ha').
  - exact Hstate.
Qed.
(** *** EXX *)

(** Fetch, decode and execute of one EXX without bus stalls. *)
Lemma exec_exx c i1 i2 i3 :
  state c = FETCH -> mem_ready i1 = true ->
  opcode (mem_rdata i1) = 0xC -> f_func (mem_rdata i1) = 0xB ->
  state (ticks rv c [i1; i2; i3]) = FETCH /\
  rf (ticks rv c [i1; i2; i3]) = step (rf c) 0 0 false true.
Proof.
  intros Hst Hrdy Hop Hfn. unfold ticks. cbn [foldl].
  rewrite (tick_fetch c i1 Hst Hrdy).
  set (cd := set_state DECODE (set_instr (mem_rdata i1) c)).
  assert (Hopd : opcode (instr cd) = 0xC)
    by (unfold cd; cbn [instr set_state set_instr];
        rewrite opcode_latched; exact Hop).
  assert (Hfnd : f_func (instr cd) = 0xB)
    by (unfold cd; cbn [instr set_state set_instr];
        rewrite f_func_latched; exact Hfn).
  destruct (dec_misc cd Hopd) as (_ & Hext & _ & _).
  rewrite (tick_decode cd i2 eq_refl Hext).
  set (ce := set_state EXECUTE cd).
  assert (Hdec : dec ce = dec cd) by reflexivity.
  assert (Hope : opcode (instr ce) = 0xC) by exact Hopd.
  destruct (dec_misc ce Hope) as (Hty & Hexte & Hexx & Hfunc).
  replace (f_func (instr ce)) with 0xB in Hexx, Hfunc by (symmetry; exact Hfnd).
  rewrite (tick_execute ce i3 eq_refl).
  replace (cpu.exx ce) with true
    by (unfold cpu.exx; rewrite Hty, Hexx; reflexivity).
  unfold execute. rewrite Hty, Hexte, Hexx.
  split; reflexivity.
Qed.

(** C7. One EXX execution exchanges R[4..11] with the alternate bank in a
    single clock edge and leaves the other registers alone; after two
    consecutive EXX executions the sixteen registers and the alternate bank
    are what they were before the sequence. *)
Theorem exx_involutive (c : CPU) (i1 i2 i3 i4 i5 i6 : Inputs) :
  wf (rf c) -> state c = FETCH ->
  mem_ready i1 = true ->
  opcode (mem_rdata i1) = 0xC -> f_func (mem_rdata i1) = 0xB ->
  mem_ready i4 = true ->
  opcode (mem_rdata i4) = 0xC -> f_func (mem_rdata i4) = 0xB ->
  let c1 := ticks rv c [i1; i2; i3] in
  let c2 := ticks rv c1 [i4; i5; i6] in
  (forall k : nat, (4 <= k < 12)%nat ->
     regs (rf c1) !! k = regs_alt (rf c) !! (k - 4)%nat /\
     regs_alt (rf c1) !! (k - 4)%nat = regs (rf c) !! k) /\
  (forall k : nat, (k < 4 \/ 12 <= k)%nat ->
     regs (rf c1) !! k = regs (rf c) !! k) /\
  state c1 = FETCH /\
  state c2 = FETCH /\
  rf c2 = rf c.
Proof.
  intros Hwf Hst Hr1 Ho1 Hf1 Hr4 Ho4 Hf4 c1 c2.
  destruct (exec_exx c i1 i2 i3 Hst Hr1 Ho1 Hf1) as [Hs1 Hrf1].
  fold c1 in Hs1, Hrf1.
  destruct (exec_exx c1 i4 i5 i6 Hs1 Hr4 Ho4 Hf4) as [Hs2 Hrf2].
  fold c2 in Hs2, Hrf2.
  split; [| split; [| split; [exact Hs1 | split; [exact Hs2 |]]]].
  - intros k Hk. rewrite Hrf1.
    exact (proj1 (step_exx_lookup (rf c) 0 0 k Hwf) Hk).
  - intros k Hk. rewrite Hrf1.
    exact (proj2 (step_exx_lookup (rf c) 0 0 k Hwf) Hk).
  - rewrite Hrf2, Hrf1. apply step_exx_twice. exact Hwf.
Qed.

(** *** Branch conditions *)

Lemma nibble_cases v :
  0 <= v < 2 ^ (12 - 8) ->
  v = 0 \/ v = 1 \/ v = 2 \/ v = 3 \/ v = 4 \/ v = 5 \/ v = 6 \/ v = 7 \/
  v = 8 \/ v = 9 \/ v = 10 \/ v = 11 \/ v = 12 \/ v = 13 \/ v = 14 \/ v = 15.
Proof. change (2 ^ (12 - 8)) with 16. lia. Qed.

(** C4. Whatever instruction is latched and whatever the flag register
    holds, the condition field names one of the sixteen conditions and
    [branch_taken] is that condition's entry of the table, read on
    N = FLAGS[7], Z = FLAGS[6], C = FLAGS[5], V = FLAGS[4]. *)
Theorem branch_taken_matches_table (c : CPU) :
  exists bc : opcodes.BranchCond,
    opcodes.BranchCond_of (branch_cond (dec c)) = Some bc /\
    branch_taken c =
    spec.taken_when bc (Z.testbit (flags c) 7) (Z.testbit (flags c) 6)
      (Z.testbit (flags c) 5) (Z.testbit (flags c) 4).
Proof.
  unfold branch_taken, cpu.flag_n, cpu.flag_z, cpu.flag_c, cpu.flag_v.
  assert (Hr : 0 <= branch_cond (dec c) < 2 ^ (12 - 8))
    by (apply (bits_range 8 12); lia).
  generalize dependent (branch_cond (dec c)). intros v Hv.
  destruct (nibble_cases v Hv) as
    [-> | [-> | [-> | [-> | [-> | [-> | [-> | [-> | [-> | [-> | [-> | [->
     | [-> | [-> | [-> | ->]]]]]]]]]]]]]]];
    eexists; (split; [reflexivity |]);
    destruct (Z.testbit (flags c) 7), (Z.testbit (flags c) 6),
      (Z.testbit (flags c) 5), (Z.testbit (flags c) 4); reflexivity.
Qed.

(** *** LUI, register-port OUT and MULHU *)

(** LUI is decoded as an immediate ALU operation with the default ADD. *)
Lemma dec_lui c :
  opcode (instr c) = 0x6 -> f_func (instr c) = 0x8 ->
  inst_type (dec c) = ALU_IMM /\ mem_load (dec c) = false /\
  alu_op (dec c) = ADD /\ reg_write (dec c) = true /\
  is_extended (dec c) = false.
Proof.
  intros Hop Hfn.
  unfold dec, Decoder, d_inst_type, d_mem_load, d_alu_op, d_reg_write.
  cbn [inst_type mem_load alu_op reg_write is_extended].
  rewrite Hop, Hfn. repeat split.
Qed.

(** What EXECUTE latches for LUI: R[rd] plus the sign-extended low byte of
    the instruction, and the next state is WRITEBACK, not MEMORY. *)
Lemma lui_execute c i :
  state c = EXECUTE -> opcode (instr c) = 0x6 -> f_func (instr c) = 0x8 ->
  state (tick rv c i) = WRITEBACK /\
  alu_result (tick rv c i) =
  trunc 16 (trunc 16 (read_port (rf c) (f_rd (instr c)))
            + trunc 16 (as_signed 8 (imm8_raw (instr c)))).
Proof.
  intros Hst Hop Hfn.
  destruct (dec_lui c Hop Hfn) as (Hty & _ & Halu & _ & Hext).
  rewrite tick_execute by exact Hst.
  rewrite exx_only_misc by (rewrite Hty; discriminate).
  unfold execute. rewrite Hty, Hext.
  cbn [state alu_result set_rf set_cycles set_state set_alu_flags set_flag
       set_alu_result set_pc].
  split; [reflexivity |].
  unfold alu_out. rewrite Halu.
  rewrite trunc_small by apply alu_result_range.
  rewrite alu_result_low.
  unfold alu_a, alu_b, cpu.rd_data1, regfile.rd_data1, rd_addr1, is_alu_imm.
  rewrite Hty, Hst. cbn [result_wide imm8 rd dec Decoder].
  unfold trunc at 1 4. apply Z.mod_mod_divide.
  exists 2. reflexivity.
Qed.

(** Register-port OUT: both the port address and the data byte come from
    read port 1, whose address is re-steered to [rd]. *)
Lemma out_reg_port c :
  state c = EXECUTE -> opcode (instr c) = 0xD -> f_func (instr c) = 0x3 ->
  io_wr (outputs c) = true /\
  io_addr (outputs c) = bits 0 8 (read_port (rf c) (f_rd (instr c))) /\
  io_wdata (outputs c) = bits 0 8 (read_port (rf c) (f_rd (instr c))).
Proof.
  intros Hst Hop Hfn.
  assert (Hd : inst_type (dec c) = IO /\ is_io_in (dec c) = false /\
               is_io_out (dec c) = true /\ io_port_imm (dec c) = false).
  { unfold dec, Decoder, d_inst_type, d_is_io_in, d_is_io_out, d_io_port_imm.
    cbn [inst_type is_io_in is_io_out io_port_imm]. rewrite Hop, Hfn.
    repeat split. }
  destruct Hd as (Hty & Hin & Hout & Himm).
  assert (Hrd : cpu.rd_data1 c = read_port (rf c) (f_rd (instr c))).
  { unfold cpu.rd_data1, regfile.rd_data1, rd_addr1.
    rewrite Hst, Hty, Hin, Hout. reflexivity. }
  unfold outputs. rewrite Hst, Hty, Hin, Hout, Himm, Hrd.
  cbn [io_wr io_addr io_wdata drive_io].
  rewrite trunc_small by (apply (bits_range 0 8); lia).
  repeat split.
Qed.

(** MULDIV with func 2 has no decoder case: the ALU operation stays ADD. *)
Lemma dec_mulhu c :
  opcode (instr c) = 0xB -> f_func (instr c) = 0x2 -> alu_op (dec c) = ADD.
Proof.
  intros Hop Hfn. unfold dec, Decoder, d_alu_op. cbn [alu_op].
  rewrite Hop, Hfn. reflexivity.
Qed.

End cpu_facts.

(** ** The engine on concrete machine states *)

Section cpu_examples.

Import scenario.

Lemma test_changes_only_pc_and_cycles_witness :
  let c := at_execute 0xC563 in
  let c' := tick rv c idle in
  (state c = EXECUTE /\ opcode (instr c) = 0xC /\ f_func (instr c) = 0x3) /\
  state c' = FETCH /\
  flags c' = flags c /\
  rf c' = rf c /\
  pc c' = trunc 16 (pc c + 2) /\
  cycles c' = trunc 32 (cycles c + 1) /\
  instr c' = instr c /\ instr_ext c' = instr_ext c /\
  alu_result c' = alu_result c /\ mem_addr_reg c' = mem_addr_reg c /\
  mem_data_reg c' = mem_data_reg c /\ int_enabled c' = int_enabled c /\
  outputs c = quiet c.
Proof.
  split; [repeat split |].
  apply (test_changes_only_pc_and_cycles rv (at_execute 0xC563) idle);
    reflexivity.
Defined.

(** C2, as the claim words it, fails: MUL R3, R0, R0 (0xB300) computes 0, so
    the ALU raises its Z output, yet FLAGS[6] is still 0 after EXECUTE. *)
Lemma muldiv_updates_flags_counterexample :
  let c := at_execute 0xB300 in
  let c' := tick rv c idle in
  state c = EXECUTE /\ opcode (instr c) = 0xB /\ state c' = WRITEBACK /\
  alu.flag_z (alu_out c) = true /\
  cpu.flag_z c' = false /\
  cpu.flag_z c' <> alu.flag_z (alu_out c).
Proof. repeat split. discriminate. Qed.

Lemma muldiv_latches_result_keeps_flags_witness :
  let c := at_execute 0xB300 in
  let c' := tick rv c idle in
  (state c = EXECUTE /\ opcode (instr c) = 0xB) /\
  alu_result c' = result (alu_out c) /\
  flags c' = flags c /\
  state c' = WRITEBACK.
Proof.
  split; [split; reflexivity |].
  apply (muldiv_latches_result_keeps_flags rv (at_execute 0xB300) idle);
    reflexivity.
Defined.

(** DIV R5, R4 by R[3] = 0 (word 0xB543; the [func] nibble doubles as the
    [rs2] field). *)
Lemma div_rem_by_zero_witness :
  let c := at_execute 0xB543 in
  (0 <= 0x1234 < 2 ^ 16 /\ state c = EXECUTE /\ opcode (instr c) = 0xB /\
   alu_b c = 0) /\
  result (ALU DIV 0x1234 0 0) = 0xFFFF /\
  result (ALU REM 0x1234 0 0) = 0x1234 /\
  (f_func (instr c) = 0x3 -> alu_result (tick rv c idle) = 0xFFFF) /\
  (f_func (instr c) = 0x5 -> alu_result (tick rv c idle) = alu_a c) /\
  state (tick rv c idle) = WRITEBACK.
Proof.
  split; [split; [lia | repeat split] |].
  apply (div_rem_by_zero rv 0x1234 0 (at_execute 0xB543) idle);
    [lia | reflexivity | reflexivity | reflexivity].
Defined.

Lemma exx_involutive_witness :
  let c := at_fetch in
  let c1 := ticks rv c [fetch 0xC00B; idle; idle] in
  let c2 := ticks rv c1 [fetch 0xC00B; idle; idle] in
  (wf (rf c) /\ state c = FETCH /\ opcode 0xC00B = 0xC /\ f_func 0xC00B = 0xB) /\
  (forall k : nat, (4 <= k < 12)%nat ->
     regs (rf c1) !! k = regs_alt (rf c) !! (k - 4)%nat /\
     regs_alt (rf c1) !! (k - 4)%nat = regs (rf c) !! k) /\
  (forall k : nat, (k < 4 \/ 12 <= k)%nat ->
     regs (rf c1) !! k = regs (rf c) !! k) /\
  state c1 = FETCH /\
  state c2 = FETCH /\
  rf c2 = rf c.
Proof.
  split; [repeat split |].
  apply (exx_involutive rv at_fetch (fetch 0xC00B) idle idle
           (fetch 0xC00B) idle idle);
    try reflexivity.
  split; reflexivity.
Defined.

(** The third end-to-end scenario of the specification, on the sample file:
    after EXX, R4..R11 hold the alternate bank's zeros. *)
Example exx_sample :
  regs (rf (run_word 0xC00B at_fetch)) =
    [0; 0x1111; 0x0100; 0; 0; 0; 0; 0; 0; 0; 0; 0;
     0x000C; 0x000D; 0x000E; 0x000F] /\
  regs_alt (rf (run_word 0xC00B at_fetch)) =
    [0x0100; 0x1234; 0x0081; 0x0007; 0x0008; 0x0009; 0x000A; 0x000B].
Proof. split; reflexivity. Qed.

(** C1, on the code. LUI R5 with low byte 0x18 (word 0x6518) and
    R5 = 0x1234: the instruction never enters MEMORY, but what reaches R5 is
    R5 + 0x18 = 0x124C. Its upper half is 0x12, not the immediate byte. *)
Theorem lui_adds_low_byte_to_rd :
  let ins := [fetch 0x6518; idle; idle; idle] in
  let c := run_word 0x6518 at_fetch in
  opcode 0x6518 = 0x6 /\ f_func 0x6518 = 0x8 /\ f_rd 0x6518 = 5 /\
  imm8_raw 0x6518 = 0x18 /\
  read_port (rf at_fetch) 5 = 0x1234 /\
  trace rv at_fetch ins = [DECODE; EXECUTE; WRITEBACK; FETCH] /\
  read_port (rf c) 5 = 0x124C /\
  bits 8 16 (read_port (rf c) 5) = 0x12.
Proof. repeat split. Qed.

(** C3, on the code. OUT with rd = 5 and rs1 = 6 (word 0xD563), when
    R5 = 0x1234 and R6 = 0x0081: the data byte is the low byte of R5, and so
    is the port address; the low byte of R6 is not driven anywhere. *)
Theorem out_port_address_comes_from_rd :
  let c := at_execute 0xD563 in
  opcode (instr c) = 0xD /\ f_func (instr c) = 0x3 /\
  f_rd (instr c) = 5 /\ f_rs1 (instr c) = 6 /\
  bits 0 8 (read_port (rf c) 5) = 0x34 /\
  bits 0 8 (read_port (rf c) 6) = 0x81 /\
  io_wr (outputs c) = true /\
  io_wdata (outputs c) = 0x34 /\
  io_addr (outputs c) = 0x34.
Proof. repeat split. Qed.

(** C9, on the code. MULDIV func 2 with rd = 3 and rs1 = 4 (word 0xB342),
    when R4 = R2 = 0x0100: the high half of the unsigned product is 1, but
    R3 receives the sum 0x0200 (the second operand is R[2], the [func]
    nibble being the [rs2] field). *)
Theorem mulhu_executes_as_add :
  let c := run_word 0xB342 at_fetch in
  opcode 0xB342 = 0xB /\ f_func 0xB342 = 0x2 /\
  f_rd 0xB342 = 3 /\ f_rs1 0xB342 = 4 /\ f_rs2 0xB342 = 2 /\
  read_port (rf at_fetch) 4 = 0x0100 /\ read_port (rf at_fetch) 2 = 0x0100 /\
  opcodes.MULHU_of 0x0100 0x0100 = 0x0001 /\
  bits 16 32 (mul_result_u 0x0100 0x0100) = 0x0001 /\
  alu_op (Decoder 0xB342 0) = ADD /\
  read_port (rf c) 3 = 0x0200.
Proof. repeat split. Qed.

(** The first end-to-end scenario of the specification: ADDI R0, 0x34 then
    ADDI R5, 0x01 from power-on leave R5 = 1, PC = 0x0104, CYCLES = 2. *)
Example addi_scenario :
  let c := ticks rv (power_on rv)
             [idle; fetch 0x5034; idle; idle; idle;
              fetch 0x5501; idle; idle; idle] in
  read_port (rf c) 5 = 1 /\ read_port (rf c) 0 = 0 /\ pc c = 0x0104 /\
  cycles c = 2 /\ cpu.flag_z c = false /\ state c = FETCH.
Proof. repeat split. Qed.

End cpu_examples.

(** * Further properties *)

(** ** Arithmetic reading of the bit-vector operations *)

Section bits_arith.

Lemma pow2_16 : 2 ^ 16 = 65536.
Proof. reflexivity. Qed.

Lemma bits_div_mod lo hi x :
  0 <= lo -> bits lo hi x = (x / 2 ^ lo) mod 2 ^ (hi - lo).
Proof. intros Hlo. unfold bits, trunc. rewrite Z.shiftr_div_pow2 by lia. reflexivity. Qed.

(** Bit [k] of a non-negative number as a comparison on a remainder. *)
Lemma testbit_ge x k :
  0 <= k -> Z.testbit x k = (2 ^ k <=? x mod 2 ^ (k + 1)).
Proof.
  intros Hk.
  assert (Hp : 0 < 2 ^ k) by (apply Z.pow_pos_nonneg; lia).
  replace (2 ^ (k + 1)) with (2 ^ k * 2)
    by (rewrite Z.pow_add_r by lia; reflexivity).
  rewrite Z.rem_mul_r by lia.
  pose proof (Z.mod_pos_bound x (2 ^ k) Hp) as H1.
  destruct (Z.testbit x k) eqn:E.
  - apply Z.testbit_true in E; [| exact Hk]. rewrite E.
    symmetry. apply Z.leb_le. lia.
  - apply Z.testbit_false in E; [| exact Hk]. rewrite E.
    symmetry. apply Z.leb_gt. lia.
Qed.

Lemma testbit15 x : 0 <= x < 2 ^ 16 -> Z.testbit x 15 = (2 ^ 15 <=? x).
Proof.
  intros Hx. rewrite testbit_ge by lia. change (15 + 1) with 16.
  rewrite Z.mod_small by exact Hx. reflexivity.
Qed.

Lemma as_signed16 x :
  0 <= x < 2 ^ 16 -> as_signed 16 x = if x <? 2 ^ 15 then x else x - 2 ^ 16.
Proof. intros Hx. unfold as_signed. rewrite trunc_small by exact Hx. reflexivity. Qed.

Lemma as_signed16_range x : - 2 ^ 15 <= as_signed 16 x < 2 ^ 15.
Proof.
  unfold as_signed. pose proof (trunc_range 16 x ltac:(lia)) as H.
  change (16 - 1) with 15.
  destruct (Z.ltb_spec (trunc 16 x) (2 ^ 15)); lia.
Qed.

(** Concatenation is addition: the two parts do not overlap. *)
Lemma cat_add w lo hi : 0 <= w -> cat w lo hi = trunc w lo + hi * 2 ^ w.
Proof.
  intros Hw. unfold cat. rewrite Z.shiftl_mul_pow2 by lia.
  rewrite <- Z.lxor_lor, <- Z.add_nocarry_lxor; try reflexivity.
  all: apply Z.bits_inj'; intros n Hn; rewrite Z.land_spec, Z.bits_0;
    rewrite testbit_trunc by lia;
    destruct (Z.ltb_spec n w); simpl; try reflexivity;
    rewrite Z.mul_pow2_bits_low by lia; apply andb_false_r.
Qed.

(** A value is inside [w] bits exactly when its bits from [w] on are 0. *)
Lemma range_of_bits w x :
  0 <= w -> (forall n, w <= n -> Z.testbit x n = false) -> 0 <= x < 2 ^ w.
Proof.
  intros Hw H. replace x with (trunc w x); [apply trunc_range; exact Hw |].
  apply Z.bits_inj'. intros n Hn. rewrite testbit_trunc by lia.
  destruct (Z.ltb_spec n w); simpl; [reflexivity |].
  symmetry. apply H. lia.
Qed.

Lemma bits_of_range w x n :
  0 <= w -> 0 <= x < 2 ^ w -> w <= n -> Z.testbit x n = false.
Proof.
  intros Hw Hx Hn. rewrite <- (trunc_small w x Hx).
  rewrite testbit_trunc by lia.
  destruct (Z.ltb_spec n w); [lia | reflexivity].
Qed.

End bits_arith.

(** ** The ALU, operation by operation *)

Section alu_more.

Lemma mod17_mod16 x : (x mod 2 ^ 17) mod 2 ^ 16 = x mod 2 ^ 16.
Proof. apply Z.mod_mod_divide. exists 2. reflexivity. Qed.

Lemma alu_result_mod16 op a b sa :
  (forall y, result_wide op a b sa = trunc 17 y ->
     result (ALU op a b sa) = y mod 2 ^ 16).
Proof.
  intros y Hy. rewrite alu_result_low, Hy. apply mod17_mod16.
Qed.

(** X1. For 16-bit operands SUB yields [(a - b) mod 2^16]; C is the borrow
    ([a < b]), Z says the operands are equal, N is bit 15 of the result and
    V is set exactly when the signed difference leaves the 16-bit signed
    range. *)
Theorem alu_sub_spec (a b sa : Z) :
  0 <= a < 2 ^ 16 -> 0 <= b < 2 ^ 16 ->
  let o := ALU SUB a b sa in
  result o = (a - b) mod 2 ^ 16 /\
  alu.flag_n o = Z.testbit ((a - b) mod 2 ^ 16) 15 /\
  (alu.flag_z o = true <-> a = b) /\
  (alu.flag_c o = true <-> a < b) /\
  (alu.flag_v o = true <->
     ~ (- 2 ^ 15 <= as_signed 16 a - as_signed 16 b < 2 ^ 15)).
Proof.
  intros Ha Hb o.
  assert (Hres : result o = (a - b) mod 2 ^ 16)
    by (apply alu_result_mod16; reflexivity).
  assert (Hr : 0 <= result o < 2 ^ 16) by apply alu_result_range.
  split; [exact Hres |].
  split; [rewrite <- Hres; reflexivity |].
  split.
  { change (alu.flag_z o) with (result o =? 0). rewrite Z.eqb_eq, Hres.
    split; intros H.
    - apply Z.mod_divide in H; [| lia]. destruct H as [q Hq]. nia.
    - subst b. rewrite Z.sub_diag. reflexivity. }
  split.
  { change (alu.flag_c o) with (Z.testbit (trunc 17 (a - b)) 16).
    rewrite testbit_ge by lia. change (16 + 1) with 17.
    unfold trunc. rewrite Z.mod_mod by lia. rewrite Z.leb_le.
    destruct (Z.lt_ge_cases a b) as [Hlt | Hge].
    - rewrite <- (Z.mod_add (a - b) 1) by lia.
      rewrite Z.mod_small by lia. lia.
    - rewrite Z.mod_small by lia. lia. }
  change (alu.flag_v o)
    with (negb (eqb (Z.testbit a 15) (Z.testbit b 15))
          && negb (eqb (Z.testbit (result o) 15) (Z.testbit a 15))).
  rewrite !testbit15 by assumption. rewrite !as_signed16 by assumption.
  assert (Hcases : result o = a - b \/ result o = a - b + 2 ^ 16).
  { rewrite Hres. destruct (Z.lt_ge_cases a b).
    - right. rewrite <- (Z.mod_add (a - b) 1) by lia.
      apply Z.mod_small. lia.
    - left. apply Z.mod_small. lia. }
  destruct (Z.leb_spec (2 ^ 15) a), (Z.leb_spec (2 ^ 15) b),
    (Z.leb_spec (2 ^ 15) (result o)), (Z.ltb_spec a (2 ^ 15)),
    (Z.ltb_spec b (2 ^ 15)); cbn [andb negb eqb]; split; intros Hv;
    try discriminate Hv; try reflexivity; try lia.
Qed.

Lemma alu_sub_spec_witness :
  let o := ALU SUB 0x0000 0x0001 0 in
  (0 <= 0x0000 < 2 ^ 16 /\ 0 <= 0x0001 < 2 ^ 16) /\
  result o = (0x0000 - 0x0001) mod 2 ^ 16 /\
  alu.flag_n o = Z.testbit ((0x0000 - 0x0001) mod 2 ^ 16) 15 /\
  (alu.flag_z o = true <-> 0x0000 = 0x0001) /\
  (alu.flag_c o = true <-> 0x0000 < 0x0001) /\
  (alu.flag_v o = true <->
     ~ (- 2 ^ 15 <= as_signed 16 0x0000 - as_signed 16 0x0001 < 2 ^ 15)).
Proof.
  split; [lia |]. apply (alu_sub_spec 0x0000 0x0001 0); lia.
Defined.

(** X2. The V output of ADD is signed overflow: it is set exactly when the
    sum of the operands read as two's complement leaves [-2^15, 2^15);
    when it is clear the result read as two's complement is that sum. *)
Theorem alu_add_overflow (a b sa : Z) :
  0 <= a < 2 ^ 16 -> 0 <= b < 2 ^ 16 ->
  let o := ALU ADD a b sa in
  (alu.flag_v o = true <->
     ~ (- 2 ^ 15 <= as_signed 16 a + as_signed 16 b < 2 ^ 15)) /\
  (alu.flag_v o = false ->
     as_signed 16 (result o) = as_signed 16 a + as_signed 16 b).
Proof.
  intros Ha Hb o.
  assert (Hres : result o = (a + b) mod 2 ^ 16)
    by (apply alu_result_mod16; reflexivity).
  assert (Hr : 0 <= result o < 2 ^ 16) by apply alu_result_range.
  change (alu.flag_v o)
    with (eqb (Z.testbit a 15) (Z.testbit b 15)
          && negb (eqb (Z.testbit a 15) (Z.testbit (result o) 15))).
  rewrite !testbit15 by assumption. rewrite !as_signed16 by assumption.
  assert (Hcases : result o = a + b \/ result o = a + b - 2 ^ 16).
  { rewrite Hres. destruct (Z.lt_ge_cases (a + b) (2 ^ 16)).
    - left. apply Z.mod_small. lia.
    - right. rewrite <- (Z.mod_add (a + b) (-1)) by lia.
      apply Z.mod_small. lia. }
  destruct (Z.leb_spec (2 ^ 15) a), (Z.leb_spec (2 ^ 15) b),
    (Z.leb_spec (2 ^ 15) (result o)), (Z.ltb_spec a (2 ^ 15)),
    (Z.ltb_spec b (2 ^ 15)), (Z.ltb_spec (result o) (2 ^ 15));
    cbn [andb negb eqb]; (split; [split |]); intros Hv;
    try discriminate Hv; try reflexivity; try lia.
Qed.

Lemma alu_add_overflow_witness :
  let o := ALU ADD 0x7FFF 0x0001 0 in
  (0 <= 0x7FFF < 2 ^ 16 /\ 0 <= 0x0001 < 2 ^ 16) /\
  (alu.flag_v o = true <->
     ~ (- 2 ^ 15 <= as_signed 16 0x7FFF + as_signed 16 0x0001 < 2 ^ 15)) /\
  (alu.flag_v o = false ->
     as_signed 16 (result o) = as_signed 16 0x7FFF + as_signed 16 0x0001).
Proof.
  split; [lia |]. apply (alu_add_overflow 0x7FFF 0x0001 0); lia.
Defined.

Lemma logic_range (f : Z -> Z -> Z) (g : bool -> bool -> bool) a b :
  (forall x y n, Z.testbit (f x y) n = g (Z.testbit x n) (Z.testbit y n)) ->
  g false false = false ->
  0 <= a < 2 ^ 16 -> 0 <= b < 2 ^ 16 -> 0 <= f a b < 2 ^ 16.
Proof.
  intros Hf Hg Ha Hb. apply range_of_bits; [lia |]. intros n Hn.
  rewrite Hf, (bits_of_range 16 a n), (bits_of_range 16 b n) by (lia || assumption).
  exact Hg.
Qed.

Lemma alu_logic_result op (f : Z -> Z -> Z) a b sa :
  result_wide op a b sa = trunc 17 (f a b) ->
  0 <= f a b < 2 ^ 16 ->
  result (ALU op a b sa) = f a b /\ alu.flag_c (ALU op a b sa) = false.
Proof.
  intros Hw Hr. split.
  - rewrite (alu_result_mod16 _ _ _ _ _ Hw). apply Z.mod_small. exact Hr.
  - change (alu.flag_c (ALU op a b sa)) with (Z.testbit (result_wide op a b sa) 16).
    rewrite Hw, trunc_small by (change (2 ^ 17) with (2 * 2 ^ 16); lia).
    apply (bits_of_range 16); lia.
Qed.

(** On 16-bit operands AND, OR and XOR yield the bitwise operation with
    C and V clear; the Z output of XOR says the operands are equal. *)
Theorem alu_logic_spec (a b sa : Z) :
  0 <= a < 2 ^ 16 -> 0 <= b < 2 ^ 16 ->
  (result (ALU AND a b sa) = Z.land a b /\
   alu.flag_c (ALU AND a b sa) = false /\ alu.flag_v (ALU AND a b sa) = false) /\
  (result (ALU OR a b sa) = Z.lor a b /\
   alu.flag_c (ALU OR a b sa) = false /\ alu.flag_v (ALU OR a b sa) = false) /\
  (result (ALU XOR a b sa) = Z.lxor a b /\
   alu.flag_c (ALU XOR a b sa) = false /\ alu.flag_v (ALU XOR a b sa) = false) /\
  (alu.flag_z (ALU XOR a b sa) = true <-> a = b).
Proof.
  intros Ha Hb.
  pose proof (logic_range Z.land andb a b Z.land_spec eq_refl Ha Hb) as Hand.
  pose proof (logic_range Z.lor orb a b Z.lor_spec eq_refl Ha Hb) as Hor.
  pose proof (logic_range Z.lxor xorb a b Z.lxor_spec eq_refl Ha Hb) as Hxor.
  destruct (alu_logic_result AND Z.land a b sa eq_refl Hand) as [R1 C1].
  destruct (alu_logic_result OR Z.lor a b sa eq_refl Hor) as [R2 C2].
  destruct (alu_logic_result XOR Z.lxor a b sa eq_refl Hxor) as [R3 C3].
  repeat split; try assumption.
  - change (alu.flag_z (ALU XOR a b sa)) with (result (ALU XOR a b sa) =? 0).
    rewrite R3. intros H. apply Z.eqb_eq in H. apply Z.lxor_eq. exact H.
  - intros ->.
    change (alu.flag_z (ALU XOR b b sa)) with (result (ALU XOR b b sa) =? 0).
    rewrite R3, Z.lxor_nilpotent. reflexivity.
Qed.

Lemma alu_logic_spec_witness :
  (0 <= 0xFF00 < 2 ^ 16 /\ 0 <= 0x0FF0 < 2 ^ 16) /\
  (result (ALU AND 0xFF00 0x0FF0 0) = Z.land 0xFF00 0x0FF0 /\
   alu.flag_c (ALU AND 0xFF00 0x0FF0 0) = false /\
   alu.flag_v (ALU AND 0xFF00 0x0FF0 0) = false) /\
  (result (ALU OR 0xFF00 0x0FF0 0) = Z.lor 0xFF00 0x0FF0 /\
   alu.flag_c (ALU OR 0xFF00 0x0FF0 0) = false /\
   alu.flag_v (ALU OR 0xFF00 0x0FF0 0) = false) /\
  (result (ALU XOR 0xFF00 0x0FF0 0) = Z.lxor 0xFF00 0x0FF0 /\
   alu.flag_c (ALU XOR 0xFF00 0x0FF0 0) = false /\
   alu.flag_v (ALU XOR 0xFF00 0x0FF0 0) = false) /\
  (alu.flag_z (ALU XOR 0xFF00 0x0FF0 0) = true <-> 0xFF00 = 0x0FF0).
Proof.
  split; [lia |]. apply (alu_logic_spec 0xFF00 0x0FF0 0); lia.
Defined.

Lemma as_signed16_mod x : as_signed 16 x mod 2 ^ 16 = x mod 2 ^ 16.
Proof.
  unfold as_signed, trunc. change (16 - 1) with 15.
  destruct (x mod 2 ^ 16 <? 2 ^ 15).
  - apply Z.mod_mod. lia.
  - rewrite <- (Z.mod_add _ 1) by lia.
    replace (x mod 2 ^ 16 - 2 ^ 16 + 1 * 2 ^ 16) with (x mod 2 ^ 16) by lia.
    apply Z.mod_mod. lia.
Qed.

Lemma mul_signed_mod a b :
  (as_signed 16 a * as_signed 16 b) mod 2 ^ 16 = (a * b) mod 2 ^ 16.
Proof.
  rewrite Z.mul_mod by lia. rewrite !as_signed16_mod.
  rewrite <- Z.mul_mod by lia. reflexivity.
Qed.

(** X3. MUL and MULH are the two halves of the signed product taken modulo
    2^32; the low half is also the low half of the unsigned product. *)
Theorem alu_mul_spec (a b sa : Z) :
  let lo := result (ALU MUL a b sa) in
  let hi := result (ALU MULH a b sa) in
  lo = (a * b) mod 2 ^ 16 /\
  hi * 2 ^ 16 + lo = (as_signed 16 a * as_signed 16 b) mod 2 ^ 32 /\
  alu.flag_v (ALU MUL a b sa) = false /\ alu.flag_v (ALU MULH a b sa) = false.
Proof.
  intros lo hi.
  set (P := as_signed 16 a * as_signed 16 b).
  assert (HM : 0 <= P mod 2 ^ 32 < 2 ^ 32) by (apply Z.mod_pos_bound; lia).
  assert (Hlo : lo = (P mod 2 ^ 32) mod 2 ^ 16).
  { unfold lo. rewrite (alu_result_mod16 MUL a b sa _ eq_refl).
    rewrite bits_div_mod by lia. unfold mul_result, trunc. fold P.
    change (2 ^ 0) with 1. rewrite Z.div_1_r.
    change (2 ^ (16 - 0)) with (2 ^ 16).
    apply Z.mod_mod. lia. }
  assert (Hhi : hi = (P mod 2 ^ 32) / 2 ^ 16).
  { unfold hi. rewrite (alu_result_mod16 MULH a b sa _ eq_refl).
    rewrite bits_div_mod by lia. unfold mul_result, trunc. fold P.
    change (2 ^ (32 - 16)) with (2 ^ 16).
    rewrite Z.mod_mod by lia. apply Z.mod_small. split.
    - apply Z.div_pos; lia.
    - apply Z.div_lt_upper_bound; [lia |].
      change (2 ^ 16 * 2 ^ 16) with (2 ^ 32). lia. }
  split; [| split; [| split; reflexivity]].
  - rewrite Hlo. rewrite Z.mod_mod_divide by (exists (2 ^ 16); reflexivity).
    apply mul_signed_mod.
  - rewrite Hlo, Hhi.
    pose proof (Z.div_mod (P mod 2 ^ 32) (2 ^ 16) ltac:(lia)). lia.
Qed.

Lemma floor_quotient_range x y :
  - 2 ^ 15 <= x < 2 ^ 15 -> - 2 ^ 15 <= y < 2 ^ 15 -> y <> 0 ->
  - 2 ^ 15 <= x / y <= 2 ^ 15.
Proof.
  intros Hx Hy Hy0. destruct (Z.lt_trichotomy y 0) as [Hn | [H0 | Hp]];
    [| lia |].
  - rewrite <- (Z.div_opp_opp x y) by lia.
    split.
    + apply Z.div_le_lower_bound; nia.
    + apply Z.div_le_upper_bound; nia.
  - split.
    + apply Z.div_le_lower_bound; nia.
    + apply Z.div_le_upper_bound; nia.
Qed.

(** X4. With a non-zero divisor DIV and REM are the floor quotient and the
    matching remainder of the operands read as two's complement: the
    remainder read as two's complement is [a mod b] (it has the divisor's
    sign), quotient times divisor plus remainder gives back the dividend
    modulo 2^16, and C is raised exactly when the quotient is negative. *)
Theorem alu_div_rem_spec (a b sa : Z) :
  0 <= a < 2 ^ 16 -> 0 <= b < 2 ^ 16 -> b <> 0 ->
  let q := as_signed 16 a / as_signed 16 b in
  let r := as_signed 16 a mod as_signed 16 b in
  result (ALU DIV a b sa) = q mod 2 ^ 16 /\
  as_signed 16 (result (ALU REM a b sa)) = r /\
  (result (ALU DIV a b sa) * b + result (ALU REM a b sa)) mod 2 ^ 16 = a /\
  (alu.flag_c (ALU DIV a b sa) = true <-> q < 0).
Proof.
  intros Ha Hb Hb0 q r.
  assert (Hbz : (b =? 0) = false) by (apply Z.eqb_neq; exact Hb0).
  pose proof (as_signed16_range a) as Hsa.
  pose proof (as_signed16_range b) as Hsb.
  assert (Hsb0 : as_signed 16 b <> 0).
  { rewrite as_signed16 by exact Hb. destruct (b <? 2 ^ 15); lia. }
  pose proof (floor_quotient_range _ _ Hsa Hsb Hsb0) as Hq. fold q in Hq.
  assert (Hr : - 2 ^ 15 < r < 2 ^ 15).
  { unfold r. destruct (Z.lt_trichotomy (as_signed 16 b) 0) as [Hn | [H0 | Hp]];
      [| lia |].
    - pose proof (Z.mod_neg_bound (as_signed 16 a) _ Hn). lia.
    - pose proof (Z.mod_pos_bound (as_signed 16 a) _ Hp). lia. }
  assert (HD : result (ALU DIV a b sa) = q mod 2 ^ 16).
  { apply alu_result_mod16. cbn [result_wide]. rewrite Hbz. cbn [negb].
    unfold trunc. rewrite Z.mod_mod by lia. reflexivity. }
  assert (HR : result (ALU REM a b sa) = r mod 2 ^ 16).
  { rewrite (alu_result_mod16 REM a b sa (r mod 2 ^ 16)).
    - apply Z.mod_mod. lia.
    - cbn [result_wide]. rewrite Hbz. reflexivity. }
  split; [exact HD |]. split; [| split].
  - rewrite HR. unfold as_signed, trunc. change (16 - 1) with 15.
    rewrite Z.mod_mod by lia.
    destruct (Z.lt_ge_cases r 0) as [Hneg | Hpos].
    + rewrite <- (Z.mod_add r 1) by lia. rewrite (Z.mod_small (r + 1 * 2 ^ 16)) by lia.
      destruct (Z.ltb_spec (r + 1 * 2 ^ 16) (2 ^ 15)); lia.
    + rewrite (Z.mod_small r) by lia.
      destruct (Z.ltb_spec r (2 ^ 15)); lia.
  - rewrite HD, HR.
    rewrite <- (Z.mod_small b (2 ^ 16)) at 1 by exact Hb.
    rewrite <- (as_signed16_mod b).
    rewrite Z.add_mod_idemp_r by lia.
    rewrite <- Z.add_mod_idemp_l by lia.
    rewrite <- Z.mul_mod by lia.
    rewrite Z.add_mod_idemp_l by lia.
    replace (q * as_signed 16 b + r) with (as_signed 16 a)
      by (unfold q, r; rewrite (Z.mul_comm _ (as_signed 16 b));
          apply Z.div_mod; exact Hsb0).
    rewrite as_signed16_mod. apply Z.mod_small. exact Ha.
  - change (alu.flag_c (ALU DIV a b sa))
      with (Z.testbit (result_wide DIV a b sa) 16).
    cbn [result_wide]. rewrite Hbz. cbn [negb]. fold q.
    rewrite testbit_ge by lia. change (16 + 1) with 17.
    unfold trunc. rewrite !Z.mod_mod by lia. rewrite Z.leb_le.
    destruct (Z.lt_ge_cases q 0) as [Hneg | Hpos].
    + rewrite <- (Z.mod_add q 1) by lia. rewrite Z.mod_small by lia. lia.
    + rewrite Z.mod_small by lia. lia.
Qed.

Lemma alu_div_rem_spec_witness :
  let q := as_signed 16 0xFFF9 / as_signed 16 0x0002 in
  let r := as_signed 16 0xFFF9 mod as_signed 16 0x0002 in
  (0 <= 0xFFF9 < 2 ^ 16 /\ 0 <= 0x0002 < 2 ^ 16 /\ 0x0002 <> 0) /\
  result (ALU DIV 0xFFF9 0x0002 0) = q mod 2 ^ 16 /\
  as_signed 16 (result (ALU REM 0xFFF9 0x0002 0)) = r /\
  (result (ALU DIV 0xFFF9 0x0002 0) * 0x0002
   + result (ALU REM 0xFFF9 0x0002 0)) mod 2 ^ 16 = 0xFFF9 /\
  (alu.flag_c (ALU DIV 0xFFF9 0x0002 0) = true <-> q < 0).
Proof.
  split; [lia |]. apply (alu_div_rem_spec 0xFFF9 0x0002 0); lia.
Defined.

End alu_more.

(** ** The shifter *)

Section shifter_facts.

(** Turn slices, concatenations and shifts by constants into [/] and [mod]
    by literal powers of two. *)
Ltac pow2_literals :=
  repeat match goal with
         | |- context [2 ^ ?e] =>
             let v := eval vm_compute in (2 ^ e) in
             progress change (2 ^ e) with v
         | H : context [2 ^ ?e] |- _ =>
             let v := eval vm_compute in (2 ^ e) in
             progress change (2 ^ e) with v in H
         end.

Ltac shifter_arith :=
  unfold Shifter; cbv beta iota; cbn [fst snd];
  rewrite ?cat_add by lia;
  rewrite ?bits_div_mod by lia;
  rewrite ?Z.shiftl_mul_pow2, ?Z.shiftr_div_pow2 by lia;
  rewrite ?testbit_ge by lia;
  unfold trunc; pow2_literals.

Lemma b2z_leb x m : 0 <= x < 2 * m -> 0 < m -> Z.b2z (m <=? x) = x / m.
Proof.
  intros Hx Hm. destruct (Z.leb_spec m x); cbn [Z.b2z].
  - apply (Z.div_unique x m 1 (x - m)); lia.
  - symmetry. apply Z.div_small. lia.
Qed.

(** SWAP exchanges the two bytes and is its own inverse; ROL8 gives the
    same word, and two ROL4 in a row give it too. *)
Theorem shifter_swap_involutive (v : Z) (c c' : bool) :
  0 <= v < 2 ^ 16 ->
  fst (Shifter v 0x7 c) = v / 256 + (v mod 256) * 256 /\
  fst (Shifter (fst (Shifter v 0x7 c)) 0x7 c') = v /\
  fst (Shifter v 0xF c) = fst (Shifter v 0x7 c) /\
  fst (Shifter (fst (Shifter v 0xB c)) 0xB c') = fst (Shifter v 0x7 c).
Proof.
  intros Hv. pow2_literals.
  assert (H7 : forall x k, 0 <= x < 65536 ->
            fst (Shifter x 0x7 k) = x / 256 + (x mod 256) * 256).
  { intros x k Hx. shifter_arith. Z.div_mod_to_equations. lia. }
  assert (HB : forall x k, 0 <= x < 65536 ->
            fst (Shifter x 0xB k) = x / 4096 + (x mod 4096) * 16).
  { intros x k Hx. shifter_arith. Z.div_mod_to_equations. lia. }
  assert (R7 : 0 <= v / 256 + (v mod 256) * 256 < 65536)
    by (Z.div_mod_to_equations; lia).
  assert (RB : 0 <= v / 4096 + (v mod 4096) * 16 < 65536)
    by (Z.div_mod_to_equations; lia).
  split; [apply H7; exact Hv |]. split; [| split].
  - rewrite (H7 v c Hv), (H7 _ c' R7). Z.div_mod_to_equations. lia.
  - reflexivity.
  - rewrite (HB v c Hv), (HB _ c' RB), (H7 v c Hv).
    Z.div_mod_to_equations. lia.
Qed.

Lemma shifter_swap_involutive_witness :
  (0 <= 0x12AB < 2 ^ 16) /\
  fst (Shifter 0x12AB 0x7 false) = 0x12AB / 256 + (0x12AB mod 256) * 256 /\
  fst (Shifter (fst (Shifter 0x12AB 0x7 false)) 0x7 true) = 0x12AB /\
  fst (Shifter 0x12AB 0xF false) = fst (Shifter 0x12AB 0x7 false) /\
  fst (Shifter (fst (Shifter 0x12AB 0xB false)) 0xB true)
  = fst (Shifter 0x12AB 0x7 false).
Proof.
  split; [lia |]. apply (shifter_swap_involutive 0x12AB false true); lia.
Defined.

(** X5. The rotates are lossless. RCL1 followed by RCR1 fed with the
    carry that RCL1 produced gives back the word and the original carry
    (a 17-bit rotation and its inverse); ROR1 undoes ROL1 and ROL1 undoes
    ROR1. *)
Theorem shifter_rotates_round_trip (v : Z) (cin c c' : bool) :
  0 <= v < 2 ^ 16 ->
  Shifter (fst (Shifter v 0x5 cin)) 0x6 (snd (Shifter v 0x5 cin)) = (v, cin) /\
  Shifter (fst (Shifter v 0x6 cin)) 0x5 (snd (Shifter v 0x6 cin)) = (v, cin) /\
  fst (Shifter (fst (Shifter v 0x3 c)) 0x4 c') = v /\
  fst (Shifter (fst (Shifter v 0x4 c)) 0x3 c') = v.
Proof.
  intros Hv. pow2_literals.
  assert (L : forall x k, 0 <= x < 65536 ->
            fst (Shifter x 0x5 k) = Z.b2z k + (x mod 32768) * 2 /\
            snd (Shifter x 0x5 k) = (32768 <=? x)).
  { intros x k Hx. split.
    - shifter_arith. destruct k; cbn [Z.b2z]; Z.div_mod_to_equations; lia.
    - shifter_arith. rewrite Z.mod_small by lia. reflexivity. }
  assert (R : forall x k, 0 <= x < 65536 ->
            fst (Shifter x 0x6 k) = x / 2 + Z.b2z k * 32768 /\
            snd (Shifter x 0x6 k) = (1 <=? x mod 2)).
  { intros x k Hx. split.
    - shifter_arith. destruct k; cbn [Z.b2z]; Z.div_mod_to_equations; lia.
    - shifter_arith. reflexivity. }
  assert (L3 : forall x k, 0 <= x < 65536 ->
            fst (Shifter x 0x3 k) = x / 32768 + (x mod 32768) * 2).
  { intros x k Hx. shifter_arith. rewrite (Z.mod_small x 65536) by lia.
    rewrite b2z_leb by lia. Z.div_mod_to_equations. lia. }
  assert (R4 : forall x k, 0 <= x < 65536 ->
            fst (Shifter x 0x4 k) = x / 2 + (x mod 2) * 32768).
  { intros x k Hx. shifter_arith.
    rewrite b2z_leb by (Z.div_mod_to_equations; lia).
    Z.div_mod_to_equations. lia. }
  assert (Hb : forall k : bool, 0 <= Z.b2z k <= 1) by (intros []; cbn; lia).
  split; [| split; [| split]].
  - destruct (L v cin Hv) as [-> ->].
    assert (Hr : 0 <= Z.b2z cin + v mod 32768 * 2 < 65536)
      by (specialize (Hb cin); Z.div_mod_to_equations; lia).
    rewrite (surjective_pairing (Shifter _ 0x6 _)).
    destruct (R _ (32768 <=? v) Hr) as [-> ->].
    f_equal.
    + specialize (Hb cin). destruct (Z.leb_spec 32768 v); cbn [Z.b2z];
        Z.div_mod_to_equations; lia.
    + destruct cin; cbn [Z.b2z].
      * apply Z.leb_le. Z.div_mod_to_equations. lia.
      * apply Z.leb_gt. Z.div_mod_to_equations. lia.
  - destruct (R v cin Hv) as [-> ->].
    assert (Hr : 0 <= v / 2 + Z.b2z cin * 32768 < 65536)
      by (specialize (Hb cin); Z.div_mod_to_equations; lia).
    rewrite (surjective_pairing (Shifter _ 0x5 _)).
    destruct (L _ (1 <=? v mod 2) Hr) as [-> ->].
    f_equal.
    + specialize (Hb cin). destruct (Z.leb_spec 1 (v mod 2)); cbn [Z.b2z];
        Z.div_mod_to_equations; lia.
    + specialize (Hb cin). destruct cin; cbn [Z.b2z] in *.
      * apply Z.leb_le. Z.div_mod_to_equations. lia.
      * apply Z.leb_gt. Z.div_mod_to_equations. lia.
  - rewrite (L3 v c Hv).
    assert (Hr : 0 <= v / 32768 + v mod 32768 * 2 < 65536)
      by (Z.div_mod_to_equations; lia).
    rewrite (R4 _ c' Hr). Z.div_mod_to_equations. lia.
  - rewrite (R4 v c Hv).
    assert (Hr : 0 <= v / 2 + v mod 2 * 32768 < 65536)
      by (Z.div_mod_to_equations; lia).
    rewrite (L3 _ c' Hr). Z.div_mod_to_equations. lia.
Qed.

Lemma shifter_rotates_round_trip_witness :
  (0 <= 0x8001 < 2 ^ 16) /\
  Shifter (fst (Shifter 0x8001 0x5 false)) 0x6 (snd (Shifter 0x8001 0x5 false))
  = (0x8001, false) /\
  Shifter (fst (Shifter 0x8001 0x6 false)) 0x5 (snd (Shifter 0x8001 0x6 false))
  = (0x8001, false) /\
  fst (Shifter (fst (Shifter 0x8001 0x3 true)) 0x4 false) = 0x8001 /\
  fst (Shifter (fst (Shifter 0x8001 0x4 true)) 0x3 false) = 0x8001.
Proof.
  split; [lia |].
  apply (shifter_rotates_round_trip 0x8001 false true false); lia.
Defined.

(** The logical shifts as arithmetic on the 16-bit word: SLLn is
    multiplication by 2^n modulo 2^16 and SRLn is division by 2^n; for the
    single-bit shifts the carry-out is the bit that left, so nothing is
    lost: carry and result together rebuild the operand. *)
Theorem shifter_logical_shifts (v : Z) (c : bool) :
  0 <= v < 2 ^ 16 ->
  (fst (Shifter v 0x0 c) = (v * 2) mod 2 ^ 16 /\
   fst (Shifter v 0x8 c) = (v * 16) mod 2 ^ 16 /\
   fst (Shifter v 0xC c) = (v * 256) mod 2 ^ 16) /\
  (fst (Shifter v 0x1 c) = v / 2 /\
   fst (Shifter v 0x9 c) = v / 16 /\
   fst (Shifter v 0xD c) = v / 256) /\
  2 * v = fst (Shifter v 0x0 c) + 2 ^ 16 * Z.b2z (snd (Shifter v 0x0 c)) /\
  v = 2 * fst (Shifter v 0x1 c) + Z.b2z (snd (Shifter v 0x1 c)).
Proof.
  intros Hv. pow2_literals.
  repeat split.
  - shifter_arith. reflexivity.
  - shifter_arith. reflexivity.
  - shifter_arith. reflexivity.
  - shifter_arith. Z.div_mod_to_equations. lia.
  - shifter_arith. Z.div_mod_to_equations. lia.
  - shifter_arith. Z.div_mod_to_equations. lia.
  - shifter_arith. rewrite (Z.mod_small v 65536) by lia.
    rewrite b2z_leb by lia. Z.div_mod_to_equations. lia.
  - shifter_arith. rewrite b2z_leb by (Z.div_mod_to_equations; lia).
    Z.div_mod_to_equations. lia.
Qed.

Lemma shifter_logical_shifts_witness :
  (0 <= 0x8421 < 2 ^ 16) /\
  (fst (Shifter 0x8421 0x0 false) = (0x8421 * 2) mod 2 ^ 16 /\
   fst (Shifter 0x8421 0x8 false) = (0x8421 * 16) mod 2 ^ 16 /\
   fst (Shifter 0x8421 0xC false) = (0x8421 * 256) mod 2 ^ 16) /\
  (fst (Shifter 0x8421 0x1 false) = 0x8421 / 2 /\
   fst (Shifter 0x8421 0x9 false) = 0x8421 / 16 /\
   fst (Shifter 0x8421 0xD false) = 0x8421 / 256) /\
  2 * 0x8421 = fst (Shifter 0x8421 0x0 false)
               + 2 ^ 16 * Z.b2z (snd (Shifter 0x8421 0x0 false)) /\
  0x8421 = 2 * fst (Shifter 0x8421 0x1 false)
           + Z.b2z (snd (Shifter 0x8421 0x1 false)).
Proof.
  split; [lia |]. apply (shifter_logical_shifts 0x8421 false); lia.
Defined.

Lemma as_signed16_of_signed x :
  - 2 ^ 15 <= x < 2 ^ 15 -> as_signed 16 (x mod 2 ^ 16) = x.
Proof.
  intros Hx. unfold as_signed, trunc. change (16 - 1) with 15.
  rewrite Z.mod_mod by lia.
  destruct (Z.lt_ge_cases x 0) as [Hneg | Hpos].
  - rewrite <- (Z.mod_add x 1) by lia.
    rewrite (Z.mod_small (x + 1 * 2 ^ 16)) by lia.
    destruct (Z.ltb_spec (x + 1 * 2 ^ 16) (2 ^ 15)); lia.
  - rewrite (Z.mod_small x) by lia.
    destruct (Z.ltb_spec x (2 ^ 15)); lia.
Qed.

(** X6. The three arithmetic right shifts divide the operand read as two's
    complement by 2, 16 and 256, rounding down, so the sign is kept; SRA1,
    written in the source as a concatenation, agrees with SRA4 and SRA8,
    written as shifts of the signed value. *)
Theorem shifter_arithmetic_shifts (v : Z) (c : bool) :
  0 <= v < 2 ^ 16 ->
  as_signed 16 (fst (Shifter v 0x2 c)) = as_signed 16 v / 2 /\
  as_signed 16 (fst (Shifter v 0xA c)) = as_signed 16 v / 16 /\
  as_signed 16 (fst (Shifter v 0xE c)) = as_signed 16 v / 256 /\
  Z.testbit (fst (Shifter v 0x2 c)) 15 = Z.testbit v 15.
Proof.
  intros Hv.
  pose proof (as_signed16_range v) as Hs.
  assert (H1 : fst (Shifter v 0x2 c) = (as_signed 16 v / 2) mod 2 ^ 16).
  { rewrite as_signed16 by exact Hv. pow2_literals. shifter_arith.
    rewrite (Z.mod_small v 65536) by lia. rewrite b2z_leb by lia.
    destruct (Z.ltb_spec v 32768); Z.div_mod_to_equations; lia. }
  assert (H4 : fst (Shifter v 0xA c) = (as_signed 16 v / 16) mod 2 ^ 16).
  { unfold Shifter; cbv beta iota; cbn [fst].
    rewrite Z.shiftr_div_pow2 by lia. reflexivity. }
  assert (H8 : fst (Shifter v 0xE c) = (as_signed 16 v / 256) mod 2 ^ 16).
  { unfold Shifter; cbv beta iota; cbn [fst].
    rewrite Z.shiftr_div_pow2 by lia. reflexivity. }
  assert (E1 : as_signed 16 (fst (Shifter v 0x2 c)) = as_signed 16 v / 2).
  { rewrite H1. apply as_signed16_of_signed.
    pow2_literals. Z.div_mod_to_equations. lia. }
  split; [exact E1 |]. split; [| split].
  - rewrite H4. apply as_signed16_of_signed.
    pow2_literals. Z.div_mod_to_equations. lia.
  - rewrite H8. apply as_signed16_of_signed.
    pow2_literals. Z.div_mod_to_equations. lia.
  - assert (Hr : 0 <= fst (Shifter v 0x2 c) < 2 ^ 16)
      by (rewrite H1; apply Z.mod_pos_bound; lia).
    rewrite !testbit15 by assumption.
    rewrite (as_signed16 _ Hr), (as_signed16 v Hv) in E1.
    pow2_literals.
    destruct (Z.ltb_spec (fst (Shifter v 0x2 c)) 32768),
      (Z.ltb_spec v 32768), (Z.leb_spec 32768 (fst (Shifter v 0x2 c))),
      (Z.leb_spec 32768 v); try reflexivity; try lia;
      exfalso; Z.div_mod_to_equations; lia.
Qed.

Lemma shifter_arithmetic_shifts_witness :
  (0 <= 0xFF00 < 2 ^ 16) /\
  as_signed 16 (fst (Shifter 0xFF00 0x2 false)) = as_signed 16 0xFF00 / 2 /\
  as_signed 16 (fst (Shifter 0xFF00 0xA false)) = as_signed 16 0xFF00 / 16 /\
  as_signed 16 (fst (Shifter 0xFF00 0xE false)) = as_signed 16 0xFF00 / 256 /\
  Z.testbit (fst (Shifter 0xFF00 0x2 false)) 15 = Z.testbit 0xFF00 15.
Proof.
  split; [lia |]. apply (shifter_arithmetic_shifts 0xFF00 false); lia.
Defined.

End shifter_facts.

(** ** The register file: writes, invariants, the bypass variant *)

Section regfile_more.

Lemma addr_range a : (Z.to_nat (trunc 4 a) < 16)%nat.
Proof. pose proof (trunc_range 4 a ltac:(lia)) as H. change (2 ^ 4) with 16 in H. lia. Qed.

Lemma sel_insert_eq (l : list Z) i x :
  (i < length l)%nat -> sel (<[i := x]> l) i = x.
Proof. intros H. unfold sel. rewrite list_lookup_insert_eq by exact H. reflexivity. Qed.

Lemma sel_insert_ne (l : list Z) i j x :
  i <> j -> sel (<[i := x]> l) j = sel l j.
Proof. intros H. unfold sel. rewrite list_lookup_insert_ne by exact H. reflexivity. Qed.

(** X7. A write to a register other than R0 is read back on the next
    cycle (as 16 bits), every other register reads as before, and the
    alternate bank is not touched. *)
Theorem regfile_write_then_read (rf : RegisterFile) (a d : Z) :
  wf rf -> trunc 4 a <> 0 ->
  let rf' := step rf a d true false in
  read_port rf' a = trunc 16 d /\
  (forall b, trunc 4 b <> trunc 4 a -> read_port rf' b = read_port rf b) /\
  regs_alt rf' = regs_alt rf.
Proof.
  intros [Hlen _] Ha rf'. unfold rf', step, read_port.
  rewrite (proj2 (Z.eqb_neq _ _) Ha). cbn [andb negb regs regs_alt].
  pose proof (addr_range a) as Hr.
  split; [| split; [| reflexivity]].
  - apply sel_insert_eq. lia.
  - intros b Hb. destruct (trunc 4 b =? 0); [reflexivity |].
    apply sel_insert_ne.
    pose proof (trunc_range 4 a ltac:(lia)).
    pose proof (trunc_range 4 b ltac:(lia)). lia.
Qed.

Lemma regfile_write_then_read_witness :
  let rf := scenario.sample_rf in
  let rf' := step rf 7 0xBEEF true false in
  (wf rf /\ trunc 4 7 <> 0) /\
  read_port rf' 7 = trunc 16 0xBEEF /\
  (forall b, trunc 4 b <> trunc 4 7 -> read_port rf' b = read_port rf b) /\
  regs_alt rf' = regs_alt rf.
Proof.
  split; [split; [split; reflexivity | discriminate] |].
  apply (regfile_write_then_read scenario.sample_rf 7 0xBEEF);
    [split; reflexivity | discriminate].
Defined.

Lemma sel_word (l : list Z) i :
  Forall (fun x => 0 <= x < 2 ^ 16) l -> 0 <= sel l i < 2 ^ 16.
Proof.
  intros H. unfold sel. destruct (l !! i) as [x |] eqn:E; cbn [default].
  - exact (proj1 (Forall_lookup _ l) H i x E).
  - lia.
Qed.

Lemma exx_regs_word alt ks acc :
  Forall (fun x => 0 <= x < 2 ^ 16) alt ->
  Forall (fun x => 0 <= x < 2 ^ 16) acc ->
  Forall (fun x => 0 <= x < 2 ^ 16)
    (foldl (fun l i => <[(i + 4)%nat := sel alt i]> l) acc ks).
Proof.
  intros Halt. revert acc. induction ks as [| k ks IH]; intros acc Hacc.
  - exact Hacc.
  - cbn [foldl]. apply IH. apply Forall_insert; [exact Hacc |].
    apply sel_word. exact Halt.
Qed.

Lemma exx_alt_word cur ks acc :
  Forall (fun x => 0 <= x < 2 ^ 16) cur ->
  Forall (fun x => 0 <= x < 2 ^ 16) acc ->
  Forall (fun x => 0 <= x < 2 ^ 16)
    (foldl (fun l i => <[i := sel cur (i + 4)]> l) acc ks).
Proof.
  intros Hcur. revert acc. induction ks as [| k ks IH]; intros acc Hacc.
  - exact Hacc.
  - cbn [foldl]. apply IH. apply Forall_insert; [exact Hacc |].
    apply sel_word. exact Hcur.
Qed.

Lemma step_words16 rf a d en x :
  inv.words16 rf -> inv.words16 (step rf a d en x).
Proof.
  intros [Hr Ha]. unfold inv.words16, step.
  assert (Hw : Forall (fun v => 0 <= v < 2 ^ 16)
                 (if en && negb (trunc 4 a =? 0)
                  then <[Z.to_nat (trunc 4 a) := trunc 16 d]> (regs rf)
                  else regs rf)).
  { destruct (en && negb (trunc 4 a =? 0)); [| exact Hr].
    apply Forall_insert; [exact Hr | apply trunc_range; lia]. }
  destruct x; cbn [regs regs_alt]; split; try assumption.
  - apply exx_regs_word; assumption.
  - apply exx_alt_word; assumption.
Qed.

(** X8. Over any sequence of writes and swaps the two banks keep their
    sizes (16 and 8) and hold 16-bit values only, so every read returns a
    16-bit value. *)
Theorem regfile_run_invariant (rf0 : RegisterFile) (ps : list Port) :
  wf rf0 -> inv.words16 rf0 ->
  wf (run rf0 ps) /\ inv.words16 (run rf0 ps) /\
  (forall a, 0 <= read_port (run rf0 ps) a < 2 ^ 16).
Proof.
  intros Hwf Hw.
  assert (H : wf (run rf0 ps) /\ inv.words16 (run rf0 ps)).
  { revert rf0 Hwf Hw. induction ps as [| p ps IH]; intros rf0 Hwf Hw.
    - split; assumption.
    - cbn [run foldl]. apply IH.
      + apply step_wf. exact Hwf.
      + apply step_words16. exact Hw. }
  destruct H as [H1 H2]. split; [exact H1 |]. split; [exact H2 |].
  intros a. unfold read_port. destruct (trunc 4 a =? 0); [lia |].
  apply sel_word. exact (proj1 H2).
Qed.

Lemma regfile_run_invariant_witness :
  let ps := [ {| regfile.wr_addr := 5; regfile.wr_data := 0x12345;
                 regfile.wr_en := true; regfile.exx := false |};
              {| regfile.wr_addr := 0; regfile.wr_data := 1;
                 regfile.wr_en := true; regfile.exx := true |} ] in
  (wf regfile.init /\ inv.words16 regfile.init) /\
  wf (run regfile.init ps) /\ inv.words16 (run regfile.init ps) /\
  (forall a, 0 <= read_port (run regfile.init ps) a < 2 ^ 16).
Proof.
  assert (H0 : inv.words16 regfile.init).
  { split; cbn [regs regs_alt regfile.init replicate];
      repeat (apply Forall_cons; split; [lia |]); apply Forall_nil; exact I. }
  split; [split; [split; reflexivity | exact H0] |].
  apply (regfile_run_invariant regfile.init); [split; reflexivity | exact H0].
Defined.

Lemma addr_cases a :
  let k := trunc 4 a in
  k = 0 \/ k = 1 \/ k = 2 \/ k = 3 \/ k = 4 \/ k = 5 \/ k = 6 \/ k = 7 \/
  k = 8 \/ k = 9 \/ k = 10 \/ k = 11 \/ k = 12 \/ k = 13 \/ k = 14 \/ k = 15.
Proof.
  intros k. pose proof (trunc_range 4 a ltac:(lia)) as H.
  change (2 ^ 4) with 16 in H. fold k in H. lia.
Qed.

Ltac explicit_rf rf Hwf :=
  let r0 := fresh "r0" in
  destruct (wf_inv rf Hwf) as
    (r0 & ?r1 & ?r2 & ?r3 & ?r4 & ?r5 & ?r6 & ?r7 & ?r8 & ?r9 & ?r10 & ?r11
        & ?r12 & ?r13 & ?r14 & ?r15
        & ?s4 & ?s5 & ?s6 & ?s7 & ?s8 & ?s9 & ?s10 & ?s11 & ->).

Ltac each_addr a :=
  let Hc := fresh "Hc" in
  let k := fresh "k" in
  pose proof (addr_cases a) as Hc; cbv zeta in Hc;
  generalize dependent (trunc 4 a); intros k; intros;
  destruct Hc as
    [-> | [-> | [-> | [-> | [-> | [-> | [-> | [-> | [-> | [-> | [-> | [->
     | [-> | [-> | [-> | ->]]]]]]]]]]]]]]].

(** X9. When a write and the swap fall in the same cycle, the swap wins for
    R4..R11: the written value is lost, the register file ends as if only
    the swap had happened. A write to R1..R3 or R12..R15 lands as usual. *)
Theorem regfile_write_during_exx (rf : RegisterFile) (a d : Z) :
  wf rf ->
  (4 <= trunc 4 a < 12 -> step rf a d true true = step rf a d false true) /\
  (0 < trunc 4 a < 4 \/ 12 <= trunc 4 a ->
     read_port (step rf a d true true) a = trunc 16 d /\
     regs_alt (step rf a d true true) = regs_alt (step rf a d false true)).
Proof.
  intros Hwf. explicit_rf rf Hwf.
  unfold step, read_port. cbv zeta. cbn [regs regs_alt].
  generalize (trunc 16 d). intros w.
  split; intros Hk; each_addr a; try lia; try reflexivity;
    split; reflexivity.
Qed.

Lemma regfile_write_during_exx_witness :
  let rf := scenario.sample_rf in
  wf rf /\
  (4 <= trunc 4 5 < 12 ->
     step rf 5 0xBEEF true true = step rf 5 0xBEEF false true) /\
  (0 < trunc 4 5 < 4 \/ 12 <= trunc 4 5 ->
     read_port (step rf 5 0xBEEF true true) 5 = trunc 16 0xBEEF /\
     regs_alt (step rf 5 0xBEEF true true)
     = regs_alt (step rf 5 0xBEEF false true)).
Proof.
  split; [split; reflexivity |].
  apply (regfile_write_during_exx scenario.sample_rf 5 0xBEEF).
  split; reflexivity.
Defined.

(** X10. The bypassing read port returns, in the cycle of the write, what
    the plain register file returns one cycle later: the forwarded value for
    the register being written, the stored one otherwise, 0 for R0. *)
Theorem async_read_is_next_cycle_read (rf : RegisterFile)
    (ra wa wd : Z) (en : bool) :
  wf rf ->
  regfile_async.read_port rf ra wa wd en
  = read_port (step rf wa wd en false) ra.
Proof.
  intros [Hlen _]. unfold regfile_async.read_port, read_port, step.
  cbv zeta. destruct (Z.eqb_spec (trunc 4 ra) 0) as [Hz | Hnz];
    [reflexivity |].
  rewrite andb_true_r.
  destruct en; cbn [andb]; [| reflexivity].
  destruct (Z.eqb_spec (trunc 4 wa) (trunc 4 ra)) as [He | Hne].
  - rewrite He, (proj2 (Z.eqb_neq _ _) Hnz). cbn [negb regs].
    symmetry. apply sel_insert_eq. pose proof (addr_range ra). lia.
  - destruct (trunc 4 wa =? 0); cbn [negb regs]; [reflexivity |].
    symmetry. apply sel_insert_ne.
    pose proof (trunc_range 4 wa ltac:(lia)).
    pose proof (trunc_range 4 ra ltac:(lia)). lia.
Qed.

Lemma async_read_is_next_cycle_read_witness :
  wf scenario.sample_rf /\
  regfile_async.read_port scenario.sample_rf 5 5 0xBEEF true
  = read_port (step scenario.sample_rf 5 0xBEEF true false) 5.
Proof.
  split; [split; reflexivity |].
  apply (async_read_is_next_cycle_read scenario.sample_rf 5 5 0xBEEF true).
  split; reflexivity.
Defined.

(** In the bypassing variant a direct SP write always lands in R2: it
    overrides a regular write to R2 made in the same cycle and is not
    affected by the swap; with the SP port idle the storage evolves as in
    the plain register file. *)
Theorem async_sp_write_wins (rf : RegisterFile) (a d spv : Z) (en x : bool) :
  wf rf ->
  regfile_async.sp (regfile_async.step rf a d en x spv true) = trunc 16 spv /\
  regfile_async.step rf a d en x spv false = step rf a d en x.
Proof.
  intros Hwf. split; [| reflexivity]. explicit_rf rf Hwf.
  unfold regfile_async.sp, regfile_async.step. cbv zeta. cbn [regs regs_alt].
  generalize (trunc 16 d) (trunc 16 spv). intros w v.
  destruct en, x; each_addr a; reflexivity.
Qed.

Lemma async_sp_write_wins_witness :
  wf scenario.sample_rf /\
  regfile_async.sp
    (regfile_async.step scenario.sample_rf 2 0x1111 true false 0x2222 true)
  = trunc 16 0x2222 /\
  regfile_async.step scenario.sample_rf 2 0x1111 true false 0x2222 false
  = step scenario.sample_rf 2 0x1111 true false.
Proof.
  split; [split; reflexivity |].
  apply (async_sp_write_wins scenario.sample_rf 2 0x1111 0x2222 true false).
  split; reflexivity.
Defined.

End regfile_more.

(** ** The decoder *)

Section decoder_facts.

Lemma nibble16 lo x :
  let k := bits lo (lo + 4) x in
  k = 0 \/ k = 1 \/ k = 2 \/ k = 3 \/ k = 4 \/ k = 5 \/ k = 6 \/ k = 7 \/
  k = 8 \/ k = 9 \/ k = 10 \/ k = 11 \/ k = 12 \/ k = 13 \/ k = 14 \/ k = 15.
Proof.
  intros k. pose proof (bits_range lo (lo + 4) x ltac:(lia)) as H.
  replace (lo + 4 - lo) with 4 in H by lia. change (2 ^ 4) with 16 in H.
  fold k in H. lia.
Qed.

(** Case analysis on a 4-bit field [f instr]. *)
Ltac each_nibble f instr lo :=
  let Hc := fresh "Hc" in
  let k := fresh "k" in
  pose proof (nibble16 lo instr) as Hc; cbv zeta in Hc;
  change (bits lo (lo + 4) instr) with (f instr) in Hc;
  generalize dependent (f instr); intros k; intros;
  destruct Hc as
    [-> | [-> | [-> | [-> | [-> | [-> | [-> | [-> | [-> | [-> | [-> | [->
     | [-> | [-> | [-> | ->]]]]]]]]]]]]]]].

(** X11. Every 16-bit word decodes to one of the thirteen instruction
    types: INVALID, the default of the decoder, is never its output; and
    the word is flagged as extended exactly when its type is EXTENDED. *)
Theorem decoder_never_invalid (instr imm16 : Z) :
  inst_type (Decoder instr imm16) <> INVALID /\
  (is_extended (Decoder instr imm16) = true <->
   inst_type (Decoder instr imm16) = EXTENDED).
Proof.
  unfold Decoder, d_inst_type. cbn [inst_type is_extended].
  destruct (jump_is_jr instr), (jump_is_jalr instr);
    each_nibble f_func instr 0; each_nibble opcode instr 12;
    cbv beta iota; (split; [discriminate | split; intros H];
                    solve [reflexivity | discriminate H]).
Qed.

(** X12. The control outputs never conflict: no word is both a load and a
    store or both an I/O input and an I/O output; stores and I/O outputs
    never enable the register write while loads, I/O inputs and calls always
    do; byte and signed accesses only come with a load or a store. *)
Theorem decoder_controls_consistent (instr imm16 : Z) :
  let d := Decoder instr imm16 in
  (mem_load d && mem_store d = false) /\
  (is_io_in d && is_io_out d = false) /\
  (mem_store d = true -> reg_write d = false) /\
  (is_io_out d = true -> reg_write d = false) /\
  (mem_load d = true -> reg_write d = true) /\
  (is_io_in d = true -> reg_write d = true) /\
  (is_call d = true -> reg_write d = true /\ is_jump d = true) /\
  (mem_byte d = true -> mem_load d || mem_store d = true) /\
  (mem_signed d = true -> mem_byte d = true /\ mem_load d = true).
Proof.
  unfold Decoder, d_mem_load, d_mem_store, d_is_io_in, d_is_io_out,
    d_reg_write, d_is_call, d_is_jump, d_mem_byte, d_mem_signed.
  cbv zeta.
  cbn [mem_load mem_store is_io_in is_io_out reg_write is_call is_jump
       mem_byte mem_signed].
  destruct (jump_is_jalr instr);
    each_nibble f_func instr 0; each_nibble opcode instr 12;
    cbv beta iota; repeat split; intros;
    first [ reflexivity
          | match goal with
            | Hx : _ = true |- _ => first [discriminate Hx | exact Hx]
            end ].
Qed.

Lemma decoder_controls_consistent_witness :
  let d := Decoder 0x7450 0 in
  mem_store d = true /\ reg_write d = false.
Proof.
  split; [reflexivity |].
  destruct (decoder_controls_consistent 0x7450 0) as (_ & _ & Hst & _).
  apply Hst. reflexivity.
Defined.

(** X13. Both branches of the 12-bit offset decoding are the sign extension
    of bits 11:0; the byte immediate and the branch offset are the same
    signed byte, [imm8] being its 16-bit two's complement image. *)
Theorem decoder_offsets (instr imm16 : Z) :
  let d := Decoder instr imm16 in
  offset12 d = as_signed 12 (offset12_raw instr) /\
  - 2 ^ 11 <= offset12 d < 2 ^ 11 /\
  - 2 ^ 7 <= offset8 d < 2 ^ 7 /\
  imm8 d = offset8 d mod 2 ^ 16 /\
  as_signed 16 (imm8 d) = offset8 d.
Proof.
  intros d. unfold d, Decoder. cbn [offset12 offset8 imm8].
  assert (Hraw : 0 <= offset12_raw instr < 2 ^ 12)
    by (apply (bits_range 0 12); lia).
  assert (H12 : d_offset12 instr = as_signed 12 (offset12_raw instr)).
  { unfold d_offset12. destruct (Z.testbit (offset12_raw instr) 11) eqn:E;
      [| reflexivity].
    rewrite testbit_ge in E by lia. change (11 + 1) with 12 in E.
    rewrite Z.mod_small in E by exact Hraw. apply Z.leb_le in E.
    rewrite cat_add by lia. rewrite (trunc_small 12 (offset12_raw instr)) by exact Hraw.
    unfold as_signed. rewrite (trunc_small 12 (offset12_raw instr)) by exact Hraw.
    rewrite trunc_small
      by (change (2 ^ 16) with (16 * 2 ^ 12); change 0xF with 15; lia).
    change (16 - 1) with 15. change (12 - 1) with 11.
    destruct (Z.ltb_spec (offset12_raw instr + 0xF * 2 ^ 12) (2 ^ 15)),
      (Z.ltb_spec (offset12_raw instr) (2 ^ 11)); lia. }
  assert (H8 : - 2 ^ 7 <= as_signed 8 (imm8_raw instr) < 2 ^ 7).
  { unfold as_signed. pose proof (trunc_range 8 (imm8_raw instr) ltac:(lia)).
    change (8 - 1) with 7.
    destruct (Z.ltb_spec (trunc 8 (imm8_raw instr)) (2 ^ 7)); lia. }
  split; [exact H12 |]. split; [| split; [exact H8 | split; [reflexivity |]]].
  - rewrite H12. unfold as_signed. rewrite (trunc_small 12 (offset12_raw instr)) by exact Hraw.
    change (12 - 1) with 11.
    destruct (Z.ltb_spec (offset12_raw instr) (2 ^ 11)); lia.
  - apply as_signed16_of_signed. lia.
Qed.

(** *** The three forms of the JUMP opcode *)

Lemma testbit_bits lo hi x n :
  0 <= lo -> lo <= hi -> 0 <= n ->
  Z.testbit (bits lo hi x) n = (n <? hi - lo) && Z.testbit x (n + lo).
Proof.
  intros Hlo Hhi Hn. unfold bits. rewrite testbit_trunc by lia.
  rewrite Z.shiftr_spec by lia. reflexivity.
Qed.

(** The JR test [(instr & 0x0F0F) == 0x0F00] reads two fields. *)
Lemma jump_is_jr_fields instr :
  jump_is_jr instr = (f_rd instr =? 0xF) && (f_func instr =? 0x0).
Proof.
  unfold jump_is_jr.
  assert (Hland : Z.land (trunc 16 instr) 0x0F0F
                  = f_func instr + f_rd instr * 2 ^ 8).
  { rewrite <- (trunc_small 8 (f_func instr))
      by (pose proof (bits_range 0 4 instr ltac:(lia)) as H;
          change (2 ^ (4 - 0)) with 16 in H; change (2 ^ 8) with 256;
          unfold f_func; lia).
    rewrite <- cat_add by lia. unfold cat, f_func, f_rd.
    apply Z.bits_inj'. intros n Hn.
    rewrite Z.land_spec, Z.lor_spec, !testbit_trunc by lia.
    rewrite Z.shiftl_spec by lia.
    destruct (Z.ltb_spec n 16) as [Hlt | Hge].
    - assert (Hn16 : 0 <= n < 2 ^ (12 - 8))
        by (change (2 ^ (12 - 8)) with 16; lia).
      destruct (nibble_cases n Hn16) as
        [-> | [-> | [-> | [-> | [-> | [-> | [-> | [-> | [-> | [-> | [->
         | [-> | [-> | [-> | [-> | ->]]]]]]]]]]]]]]];
        rewrite ?testbit_bits by lia;
        repeat match goal with
               | |- context [Z.testbit 0x0F0F ?k] =>
                   let v := eval vm_compute in (Z.testbit 0x0F0F k) in
                   change (Z.testbit 0x0F0F k) with v
               | |- context [?p <? ?q] =>
                   let v := eval vm_compute in (p <? q) in
                   progress change (p <? q) with v
               | |- context [Z.testbit (bits ?l ?h instr) ?k] =>
                   first [ rewrite (Z.testbit_neg_r (bits l h instr) k)
                             by (vm_compute; reflexivity)
                         | rewrite (testbit_bits l h instr k)
                             by (vm_compute; discriminate) ]
               end;
        cbn [andb orb];
        rewrite ?andb_true_r, ?andb_false_r, ?orb_false_r; reflexivity.
    - cbn [andb]. rewrite !testbit_bits by lia.
      replace (n - 8 <? 12 - 8) with false by (symmetry; apply Z.ltb_ge; lia).
      replace (n <? 8) with false by (symmetry; apply Z.ltb_ge; lia).
      reflexivity. }
  rewrite Hland.
  pose proof (bits_range 0 4 instr ltac:(lia)) as Hf.
  pose proof (bits_range 8 12 instr ltac:(lia)) as Hr.
  change (2 ^ (4 - 0)) with 16 in Hf. change (2 ^ (12 - 8)) with 16 in Hr.
  fold (f_func instr) in Hf. fold (f_rd instr) in Hr.
  change (2 ^ 8) with 256.
  destruct (Z.eqb_spec (f_rd instr) 0xF), (Z.eqb_spec (f_func instr) 0x0);
    cbn [andb]; [apply Z.eqb_eq | apply Z.eqb_neq ..]; lia.
Qed.

(** X14. For opcode 0x9 the word is JR exactly when rd = 15 and func = 0,
    JALR exactly when func = 1 and rd is not 0, and a relative jump
    otherwise. So a 12-bit offset whose low nibble is 1 and whose high
    nibble is not 0, or of the form 0xF?0, never reaches the relative jump.
    Only JALR links: it alone enables the register write. *)
Theorem decoder_jump_forms (instr imm16 : Z) :
  opcode instr = 0x9 ->
  let d := Decoder instr imm16 in
  let jr := (f_rd instr =? 0xF) && (f_func instr =? 0x0) in
  let jalr := (f_func instr =? 0x1) && negb (f_rd instr =? 0x0) in
  jr && jalr = false /\
  inst_type d = (if jr || jalr then JUMP_REG else JUMP) /\
  is_call d = jalr /\ reg_write d = jalr /\ is_jump d = true /\
  is_ret d = jr && (f_rs1 instr =? 1).
Proof.
  intros Hop d jr jalr.
  assert (Hjalr : jump_is_jalr instr = jalr).
  { unfold jump_is_jalr, jalr. rewrite jump_is_jr_fields.
    destruct (Z.eqb_spec (f_func instr) 0x0) as [E | E]; [rewrite E |];
      destruct (f_rd instr =? 0xF), (f_func instr =? 0x1),
        (f_rd instr =? 0x0); reflexivity. }
  unfold d, Decoder, d_inst_type, d_is_call, d_reg_write, d_is_jump, d_is_ret.
  cbn [inst_type is_call reg_write is_jump is_ret].
  rewrite Hop, Hjalr, jump_is_jr_fields. fold jr.
  repeat split; try reflexivity.
  - unfold jr, jalr.
    destruct (Z.eqb_spec (f_func instr) 0x0) as [E | E]; [rewrite E |];
      destruct (f_rd instr =? 0xF), (f_func instr =? 0x1),
        (f_rd instr =? 0x0); reflexivity.
  - destruct jr, jalr; reflexivity.
Qed.

Lemma decoder_jump_forms_witness :
  let instr := 0x9311 in
  let d := Decoder instr 0 in
  let jr := (f_rd instr =? 0xF) && (f_func instr =? 0x0) in
  let jalr := (f_func instr =? 0x1) && negb (f_rd instr =? 0x0) in
  opcode instr = 0x9 /\
  jr && jalr = false /\
  inst_type d = (if jr || jalr then JUMP_REG else JUMP) /\
  is_call d = jalr /\ reg_write d = jalr /\ is_jump d = true /\
  is_ret d = jr && (f_rs1 instr =? 1).
Proof.
  split; [reflexivity |]. apply (decoder_jump_forms 0x9311 0). reflexivity.
Defined.

End decoder_facts.

(** ** The engine: what a cycle leaves alone *)

Section cpu_frame.

Local Arguments trunc : simpl never.
Local Arguments bits : simpl never.

Lemma set_rf_id c : set_rf (rf c) c = c.
Proof. destruct c; reflexivity. Qed.

(** Outside WRITEBACK and the EXECUTE of EXX the register file is idle. *)
Lemma tick_rf_idle rv c i :
  cpu.wr_en c = false -> cpu.exx c = false -> rf (tick rv c i) = rf c.
Proof.
  intros Hw Hx. unfold tick. cbn [rf set_rf].
  unfold cpu.wr_addr, cpu.wr_data. rewrite Hw, Hx. apply step_idle.
Qed.

Lemma tick_halted rv c i : state c = HALTED -> tick rv c i = c.
Proof.
  intros Hst. unfold tick, cpu.wr_addr, cpu.wr_data, cpu.wr_en, cpu.exx.
  rewrite Hst, step_idle. apply set_rf_id.
Qed.

Lemma ticks_halted rv c ins : state c = HALTED -> ticks rv c ins = c.
Proof.
  intros Hst. induction ins as [| i ins IH]; [reflexivity |].
  unfold ticks in *. cbn [foldl]. rewrite tick_halted by exact Hst. exact IH.
Qed.

(** X15. HALT (opcode 0xE, sub-function 1) takes the engine from EXECUTE to
    HALTED, where the halted output is raised and no bus is driven; from
    then on no input sequence changes anything: PC, flags, registers and
    the cycle count are frozen. *)
Theorem halt_is_terminal (rv : Z) (c : CPU) (i : Inputs) (ins : list Inputs) :
  state c = EXECUTE -> opcode (instr c) = 0xE -> f_rd (instr c) = 0x1 ->
  let h := tick rv c i in
  state h = HALTED /\
  halted (outputs h) = true /\ mem_valid (outputs h) = false /\
  io_rd (outputs h) = false /\ io_wr (outputs h) = false /\
  ticks rv h ins = h.
Proof.
  intros Hst Hop Hrd h.
  assert (Hh : state h = HALTED).
  { unfold h. rewrite tick_execute by exact Hst. unfold execute.
    assert (Hd : inst_type (dec c) = SYSTEM /\ is_halt (dec c) = true
                 /\ is_extended (dec c) = false).
    { unfold dec, Decoder, d_inst_type, sub_is.
      cbn [inst_type is_halt is_extended]. rewrite Hop, Hrd. repeat split. }
    destruct Hd as (-> & -> & ->). reflexivity. }
  split; [exact Hh |].
  unfold outputs, quiet. rewrite Hh. cbn [halted mem_valid io_rd io_wr].
  repeat split. apply ticks_halted. exact Hh.
Qed.

Lemma halt_is_terminal_witness :
  let c := scenario.at_execute 0xE100 in
  let ins := [scenario.fetch 0x5501; scenario.idle; scenario.fetch 0] in
  let h := tick scenario.rv c scenario.idle in
  (state c = EXECUTE /\ opcode (instr c) = 0xE /\ f_rd (instr c) = 0x1) /\
  state h = HALTED /\
  halted (outputs h) = true /\ mem_valid (outputs h) = false /\
  io_rd (outputs h) = false /\ io_wr (outputs h) = false /\
  ticks scenario.rv h ins = h.
Proof.
  split; [repeat split |].
  apply (halt_is_terminal scenario.rv (scenario.at_execute 0xE100)
           scenario.idle);
    reflexivity.
Defined.

Lemma ticks_cons rv c i ins :
  ticks rv c (i :: ins) = ticks rv (tick rv c i) ins.
Proof. reflexivity. Qed.

(** X16. While the memory has not answered, a cycle in FETCH, FETCH_EXT or
    MEMORY changes nothing at all and the request stays on the bus, for
    as long as [mem_ready] stays low: there is no timeout. *)
Theorem stall_holds_everything (rv : Z) (c : CPU) (ins : list Inputs) :
  inv.on_bus (state c) = true ->
  Forall (fun i => mem_ready i = false) ins ->
  ticks rv c ins = c /\ mem_valid (outputs c) = true.
Proof.
  intros Hbus Hall. split.
  - induction Hall as [| i ins Hi _ IH]; [reflexivity |].
    rewrite ticks_cons.
    assert (Ht : tick rv c i = c).
    { unfold tick, memory, cpu.wr_addr, cpu.wr_data, cpu.wr_en, cpu.exx.
      destruct (state c) eqn:Hst; try discriminate Hbus;
        rewrite Hi, step_idle; apply set_rf_id. }
    rewrite Ht. exact IH.
  - unfold outputs.
    destruct (state c); try discriminate Hbus; try reflexivity.
    destruct (mem_store (dec c)), (mem_byte (dec c)),
      (Z.testbit (mem_addr_reg c) 0); reflexivity.
Qed.

Lemma stall_holds_everything_witness :
  let c := scenario.at_fetch in
  let ins := [scenario.idle; scenario.idle; scenario.idle] in
  (inv.on_bus (state c) = true /\
   Forall (fun i => mem_ready i = false) ins) /\
  ticks scenario.rv c ins = c /\ mem_valid (outputs c) = true.
Proof.
  assert (H : Forall (fun i => mem_ready i = false)
                [scenario.idle; scenario.idle; scenario.idle])
    by (repeat (apply Forall_cons; split; [reflexivity |]); apply Forall_nil;
        exact I).
  split; [split; [reflexivity | exact H] |].
  apply (stall_holds_everything scenario.rv scenario.at_fetch);
    [reflexivity | exact H].
Defined.

(** X17. The flag register is assigned only in RESET and in the EXECUTE of a
    flag-producing instruction (register and immediate ALU, SHIFT, CMP and
    the extended ALU forms): loads, stores, branches, jumps, MULDIV, MOV,
    TEST, I/O and SYSTEM instructions, and every other state, leave it as it
    was. PC and CYCLES move only in RESET and EXECUTE, and every EXECUTE
    cycle adds one to CYCLES. *)
Theorem flags_pc_cycles_frame (rv : Z) (c : CPU) (i : Inputs) :
  let c' := tick rv c i in
  (state c <> RESET ->
   (state c = EXECUTE -> inv.writes_flags (dec c) = false) ->
   flags c' = flags c) /\
  (state c <> RESET -> state c <> EXECUTE ->
   pc c' = pc c /\ cycles c' = cycles c) /\
  (state c = EXECUTE -> cycles c' = trunc 32 (cycles c + 1)).
Proof.
  intros c'. unfold c'. split; [| split].
  - intros Hr Hw. unfold tick, memory. cbn [flags set_rf].
    destruct (state c) eqn:Hst; try congruence;
      try (destruct (mem_ready i); reflexivity);
      try (destruct (is_extended (dec c)); reflexivity);
      try reflexivity.
    + specialize (Hw eq_refl). unfold inv.writes_flags in Hw.
      unfold execute.
      destruct (inst_type (dec c)); try discriminate Hw; try reflexivity.
      * destruct (branch_taken c); reflexivity.
      * destruct (is_call (dec c)); reflexivity.
      * destruct (is_exx (dec c)), (func (dec c) =? 0x2),
          (func (dec c) =? 0x4); try discriminate Hw; reflexivity.
      * destruct (is_io_in (dec c)), (is_io_out (dec c)); reflexivity.
      * destruct (is_halt (dec c)), (is_ei (dec c)), (is_di (dec c));
          reflexivity.
      * destruct (mem_load (dec c)), (mem_store (dec c)), (is_jump (dec c)),
          (is_call (dec c)), (func (dec c) =? 0x7), (is_io_in (dec c)),
          (is_io_out (dec c)); try discriminate Hw; reflexivity.
    + destruct (mem_ready i), (mem_load (dec c)), (mem_byte (dec c)),
        (mem_signed (dec c)); reflexivity.
  - intros Hr He. unfold tick, memory. cbn [pc cycles set_rf].
    destruct (state c) eqn:Hst; try congruence;
      try (destruct (mem_ready i); split; reflexivity);
      try (destruct (is_extended (dec c)); split; reflexivity);
      try (split; reflexivity).
    destruct (mem_ready i), (mem_load (dec c)), (mem_byte (dec c)),
      (mem_signed (dec c)); split; reflexivity.
  - intros Hst. rewrite tick_execute by exact Hst. reflexivity.
Qed.

Lemma flags_pc_cycles_frame_witness :
  let c := scenario.at_execute 0xC453 in
  let c' := tick scenario.rv c scenario.idle in
  (state c = EXECUTE /\ inv.writes_flags (dec c) = false) /\
  flags c' = flags c /\ cycles c' = trunc 32 (cycles c + 1).
Proof.
  split; [split; reflexivity |].
  destruct (flags_pc_cycles_frame scenario.rv (scenario.at_execute 0xC453)
              scenario.idle) as (Hfl & _ & Hcy).
  split.
  - apply Hfl; [discriminate | intros _; reflexivity].
  - apply Hcy. reflexivity.
Defined.

Lemma tick_rf rv c i :
  rf (tick rv c i)
  = step (rf c) (cpu.wr_addr c) (cpu.wr_data c) (cpu.wr_en c) (cpu.exx c).
Proof. reflexivity. Qed.

(** X18. The engine never writes and swaps in the same cycle: the write
    port is driven in WRITEBACK only and the swap pulse in the EXECUTE of EXX
    only; in any other cycle the register file keeps its contents. Over any
    run the banks keep their sizes and hold 16-bit values. *)
Theorem regfile_driven_only_by_writeback_and_exx
    (rv : Z) (c : CPU) (i : Inputs) (ins : list Inputs) :
  wf (rf c) -> inv.words16 (rf c) ->
  cpu.wr_en c && cpu.exx c = false /\
  (cpu.wr_en c = true -> state c = WRITEBACK /\ reg_write (dec c) = true) /\
  (cpu.exx c = true -> state c = EXECUTE /\ is_exx (dec c) = true) /\
  (cpu.wr_en c = false -> cpu.exx c = false -> rf (tick rv c i) = rf c) /\
  wf (rf (ticks rv c ins)) /\ inv.words16 (rf (ticks rv c ins)).
Proof.
  intros Hwf Hw16.
  split; [| split; [| split; [| split]]].
  - unfold cpu.wr_en, cpu.exx. destruct (state c); try reflexivity.
    apply andb_false_r.
  - unfold cpu.wr_en. destruct (state c); try discriminate. intros H.
    split; [reflexivity | exact H].
  - unfold cpu.exx. destruct (state c); try discriminate.
    destruct (inst_type (dec c)); try discriminate. intros H.
    split; [reflexivity | exact H].
  - apply tick_rf_idle.
  - revert c Hwf Hw16. induction ins as [| j ins IH]; intros c Hwf Hw16.
    + split; assumption.
    + rewrite ticks_cons. apply IH; rewrite tick_rf.
      * apply step_wf. exact Hwf.
      * apply step_words16. exact Hw16.
Qed.

Lemma sample_rf_words16 : inv.words16 scenario.sample_rf.
Proof.
  split; cbn [regs regs_alt scenario.sample_rf scenario.sample_regs replicate];
    repeat (apply Forall_cons; split; [lia |]); apply Forall_nil; exact I.
Qed.

Lemma regfile_driven_only_by_writeback_and_exx_witness :
  let c := scenario.at_fetch in
  let i := scenario.fetch 0x5501 in
  let ins := [scenario.fetch 0x5501; scenario.idle; scenario.idle;
              scenario.idle] in
  (wf (rf c) /\ inv.words16 (rf c)) /\
  cpu.wr_en c && cpu.exx c = false /\
  (cpu.wr_en c = true -> state c = WRITEBACK /\ reg_write (dec c) = true) /\
  (cpu.exx c = true -> state c = EXECUTE /\ is_exx (dec c) = true) /\
  (cpu.wr_en c = false -> cpu.exx c = false ->
   rf (tick scenario.rv c i) = rf c) /\
  wf (rf (ticks scenario.rv c ins)) /\
  inv.words16 (rf (ticks scenario.rv c ins)).
Proof.
  split; [split; [split; reflexivity | exact sample_rf_words16] |].
  apply (regfile_driven_only_by_writeback_and_exx scenario.rv
           scenario.at_fetch);
    [split; reflexivity | exact sample_rf_words16].
Defined.

(** X19. What the engine puts on its buses. A memory request is up exactly
    in FETCH, FETCH_EXT and MEMORY; write enable only in MEMORY of a store;
    the byte enables differ from 0b11 only for a byte store; the I/O
    strobes are raised in EXECUTE only and never together; [halted] is the
    HALTED state. *)
Theorem bus_outputs_by_state (c : CPU) :
  let o := outputs c in
  mem_valid o = inv.on_bus (state c) /\
  (mem_we o = true -> state c = MEMORY /\ mem_store (dec c) = true) /\
  (mem_be o <> 0x3 ->
   state c = MEMORY /\ mem_store (dec c) = true /\ mem_byte (dec c) = true) /\
  io_rd o && io_wr o = false /\
  (io_rd o || io_wr o = true -> state c = EXECUTE) /\
  (halted o = true <-> state c = HALTED).
Proof.
  unfold outputs, quiet.
  destruct (state c) eqn:Hst; cbn [inv.on_bus].
  all: try match goal with
           | |- context [inst_type ?d] => destruct (inst_type d)
           end.
  all: repeat match goal with
              | |- context [if ?b then _ else _] => destruct b eqn:?
              end.
  all: cbn [mem_valid mem_we mem_be io_rd io_wr halted drive_mem drive_io];
    repeat split; intros;
    first [ reflexivity
          | match goal with
            | H : _ <> _ |- _ => exfalso; apply H; reflexivity
            | H : _ = _ |- _ => discriminate H
            end ].
Qed.

Lemma bus_outputs_by_state_witness :
  let c := set_state MEMORY (scenario.at_execute 0x7450) in
  mem_we (outputs c) = true /\
  state c = MEMORY /\ mem_store (dec c) = true.
Proof.
  split; [reflexivity |].
  destruct (bus_outputs_by_state
              (set_state MEMORY (scenario.at_execute 0x7450)))
    as (_ & Hwe & _).
  apply Hwe. reflexivity.
Defined.

End cpu_frame.

(** ** The engine: memory and I/O instructions, branches *)

Section cpu_memory.

Local Arguments trunc : simpl never.
Local Arguments bits : simpl never.

Lemma trunc_trunc w x : 0 <= w -> trunc w (trunc w x) = trunc w x.
Proof. intros Hw. apply trunc_small, trunc_range. exact Hw. Qed.

Lemma dec_store c :
  opcode (instr c) = 0x7 ->
  inst_type (dec c) = STORE /\ mem_store (dec c) = true /\
  mem_load (dec c) = false /\ is_extended (dec c) = false /\
  mem_byte (dec c) = (f_func (instr c) =? 0x1) /\
  rd (dec c) = f_rd (instr c).
Proof.
  intros Hop. unfold dec, Decoder, d_inst_type, d_mem_store, d_mem_load,
    d_mem_byte.
  cbn [inst_type mem_store mem_load is_extended mem_byte rd].
  rewrite Hop. repeat split.
Qed.

(** X20. In the EXECUTE of a STORE (opcode 0x7) read port 1 is steered to
    [rd], and both latches are loaded from it: the address latch and the
    data latch both receive R[rd]; R[rs1] is not read. The MEMORY cycle
    that follows drives that value as the address with write enable up. *)
Theorem store_latches_rd_twice (rv : Z) (c : CPU) (i : Inputs) :
  state c = EXECUTE -> opcode (instr c) = 0x7 ->
  let r := trunc 16 (read_port (rf c) (f_rd (instr c))) in
  let c' := tick rv c i in
  state c' = MEMORY /\
  mem_addr_reg c' = r /\ mem_data_reg c' = r /\
  rf c' = rf c /\ flags c' = flags c /\
  mem_we (outputs c') = true /\ mem_addr (outputs c') = r.
Proof.
  intros Hst Hop r c'.
  destruct (dec_store c Hop) as (Hty & Hms & Hml & Hext & Hmb & Hrd).
  assert (Hrd1 : cpu.rd_data1 c = read_port (rf c) (f_rd (instr c))).
  { unfold cpu.rd_data1, regfile.rd_data1, rd_addr1.
    rewrite Hst, Hty, Hrd. reflexivity. }
  assert (Hc' : c' = set_cycles (cycles c + 1)
                       (set_state MEMORY
                          (set_mem_data_reg (cpu.rd_data1 c)
                             (set_mem_addr_reg (rs1_data c)
                                (set_pc (pc_plus_2 c) c))))).
  { unfold c'. rewrite tick_execute by exact Hst.
    rewrite exx_only_misc by (rewrite Hty; discriminate).
    rewrite step_idle. unfold execute. rewrite Hty, Hext.
    destruct c; reflexivity. }
  assert (Hdec : dec c' = dec c) by (rewrite Hc'; reflexivity).
  assert (Ha : mem_addr_reg c' = r).
  { rewrite Hc'. cbn [mem_addr_reg set_cycles set_state set_mem_data_reg
                      set_mem_addr_reg].
    unfold rs1_data. rewrite Hrd1. apply trunc_trunc. lia. }
  split; [rewrite Hc'; reflexivity |].
  split; [exact Ha |].
  split; [rewrite Hc'; cbn [mem_data_reg set_cycles set_state
                            set_mem_data_reg]; rewrite Hrd1; reflexivity |].
  split; [rewrite Hc'; reflexivity |].
  split; [rewrite Hc'; reflexivity |].
  unfold outputs. rewrite Hdec, Hms.
  replace (state c') with MEMORY by (rewrite Hc'; reflexivity).
  rewrite Ha.
  assert (Hr : trunc 16 r = r) by (apply trunc_trunc; lia).
  destruct (mem_byte (dec c)), (Z.testbit r 0);
    cbn [mem_we mem_addr drive_mem]; split; try reflexivity; exact Hr.
Qed.

Lemma store_latches_rd_twice_witness :
  let c := scenario.at_execute 0x7560 in
  let r := trunc 16 (read_port (rf c) (f_rd (instr c))) in
  let c' := tick scenario.rv c scenario.idle in
  (state c = EXECUTE /\ opcode (instr c) = 0x7) /\
  state c' = MEMORY /\
  mem_addr_reg c' = r /\ mem_data_reg c' = r /\
  rf c' = rf c /\ flags c' = flags c /\
  mem_we (outputs c') = true /\ mem_addr (outputs c') = r.
Proof.
  split; [split; reflexivity |].
  apply (store_latches_rd_twice scenario.rv (scenario.at_execute 0x7560)
           scenario.idle); reflexivity.
Defined.

(** X21. A byte store drives one lane: at an odd latched address the byte
    enable is 0b10 and the low byte of the data latch travels in bits 15:8
    of the write data; at an even address the enable is 0b01 and the byte
    travels in bits 7:0. A word store enables both lanes. *)
Theorem byte_store_lanes (c : CPU) :
  state c = MEMORY -> opcode (instr c) = 0x7 ->
  let o := outputs c in
  mem_we o = true /\ mem_valid o = true /\
  mem_addr o = trunc 16 (mem_addr_reg c) /\
  (f_func (instr c) = 0x1 ->
   if Z.testbit (mem_addr_reg c) 0
   then mem_be o = 0x2 /\ bits 8 16 (mem_wdata o) = bits 0 8 (mem_data_reg c)
   else mem_be o = 0x1 /\ bits 0 8 (mem_wdata o) = bits 0 8 (mem_data_reg c)) /\
  (f_func (instr c) <> 0x1 ->
   mem_be o = 0x3 /\ mem_wdata o = trunc 16 (mem_data_reg c)).
Proof.
  intros Hst Hop o.
  destruct (dec_store c Hop) as (Hty & Hms & Hml & Hext & Hmb & Hrd).
  unfold o, outputs. rewrite Hst, Hms, Hmb.
  destruct (Z.eqb_spec (f_func (instr c)) 0x1) as [Hf | Hf].
  - destruct (Z.testbit (mem_addr_reg c) 0);
      cbn [mem_we mem_valid mem_addr mem_be mem_wdata drive_mem];
      repeat split; try reflexivity; try (intros; contradiction).
    + rewrite bits_trunc by lia. rewrite !bits_div_mod by lia.
      rewrite Z.shiftl_mul_pow2 by lia.
      change (2 ^ 0) with 1. rewrite Z.div_1_r.
      rewrite Z.div_mul by lia. reflexivity.
    + rewrite bits_trunc by lia. reflexivity.
  - cbn [mem_we mem_valid mem_addr mem_be mem_wdata drive_mem].
    repeat split; try reflexivity. intros; contradiction.
Qed.

Lemma byte_store_lanes_witness :
  let c := set_mem_data_reg 0x12AB
             (set_mem_addr_reg 0x1001
                (set_state MEMORY (scenario.at_execute 0x7561))) in
  let o := outputs c in
  (state c = MEMORY /\ opcode (instr c) = 0x7) /\
  mem_we o = true /\ mem_valid o = true /\
  mem_addr o = trunc 16 (mem_addr_reg c) /\
  (f_func (instr c) = 0x1 ->
   if Z.testbit (mem_addr_reg c) 0
   then mem_be o = 0x2 /\ bits 8 16 (mem_wdata o) = bits 0 8 (mem_data_reg c)
   else mem_be o = 0x1 /\ bits 0 8 (mem_wdata o) = bits 0 8 (mem_data_reg c)) /\
  (f_func (instr c) <> 0x1 ->
   mem_be o = 0x3 /\ mem_wdata o = trunc 16 (mem_data_reg c)).
Proof.
  split; [split; reflexivity |].
  apply (byte_store_lanes
           (set_mem_data_reg 0x12AB
              (set_mem_addr_reg 0x1001
                 (set_state MEMORY (scenario.at_execute 0x7561)))));
    reflexivity.
Defined.

Lemma set_rf_eq (k : CPU) r : rf k = r -> set_rf r k = k.
Proof. intros <-. destruct k; reflexivity. Qed.

Lemma tick_memory rv c i :
  state c = MEMORY -> tick rv c i = memory c i.
Proof.
  intros Hst. unfold tick, cpu.wr_addr, cpu.wr_data, cpu.wr_en, cpu.exx.
  rewrite Hst, step_idle. apply set_rf_eq. unfold memory.
  destruct (mem_ready i), (mem_load (dec c)), (mem_byte (dec c)),
    (mem_signed (dec c)); reflexivity.
Qed.

(** X22. A byte load takes its byte from bits 7:0 of the word read,
    whatever the parity of the latched address: LB (func 1) sign-extends
    it to 16 bits, LBU (func 2) zero-extends it, and LW (func 0) takes the
    whole word; the engine then goes to WRITEBACK. *)
Theorem byte_load_takes_low_byte (rv : Z) (c : CPU) (i : Inputs) :
  state c = MEMORY -> mem_ready i = true -> opcode (instr c) = 0x6 ->
  let b := mem_rdata i mod 2 ^ 8 in
  let c' := tick rv c i in
  (f_func (instr c) = 0x1 ->
   state c' = WRITEBACK /\
   alu_result c' = if b <? 2 ^ 7 then b else b + 0xFF00) /\
  (f_func (instr c) = 0x2 -> state c' = WRITEBACK /\ alu_result c' = b) /\
  (f_func (instr c) = 0x0 ->
   state c' = WRITEBACK /\ alu_result c' = mem_rdata i mod 2 ^ 16).
Proof.
  intros Hst Hrdy Hop b c'. unfold c'. rewrite tick_memory by exact Hst.
  unfold memory. cbv zeta. rewrite Hrdy.
  assert (Hb : byte_data i = b).
  { unfold byte_data, b. rewrite bits_div_mod by lia.
    change (2 ^ 0) with 1. rewrite Z.div_1_r. reflexivity. }
  assert (Hbr : 0 <= b < 2 ^ 8) by (apply Z.mod_pos_bound; lia).
  assert (Hd : forall k, f_func (instr c) = k ->
            mem_load (dec c) = match k with 0x8 => false | _ => true end /\
            mem_byte (dec c) = match k with 0x1 | 0x2 => true | _ => false end /\
            mem_signed (dec c) = match k with 0x1 => true | _ => false end).
  { intros k Hk. unfold dec, Decoder, d_mem_load, d_mem_byte, d_mem_signed.
    cbn [mem_load mem_byte mem_signed]. rewrite Hop, Hk. repeat split. }
  split; [| split]; intros Hf; destruct (Hd _ Hf) as (H1 & H2 & H3);
    rewrite H1, H2, ?H3;
    cbn [state alu_result set_state set_alu_result]; (split; [reflexivity |]).
  - rewrite Hb. unfold as_signed. rewrite (trunc_small 8 b) by exact Hbr.
    change (8 - 1) with 7. unfold trunc.
    destruct (Z.ltb_spec b (2 ^ 7)).
    + apply Z.mod_small. lia.
    + rewrite <- (Z.mod_add _ 1) by lia. rewrite Z.mod_small; lia.
  - rewrite Hb. apply trunc_small. lia.
  - reflexivity.
Qed.

Lemma byte_load_takes_low_byte_witness :
  let c := set_mem_addr_reg 0x1001
             (set_state MEMORY (scenario.at_execute 0x6711)) in
  let i := scenario.fetch 0xFF80 in
  let b := mem_rdata i mod 2 ^ 8 in
  let c' := tick scenario.rv c i in
  (state c = MEMORY /\ mem_ready i = true /\ opcode (instr c) = 0x6) /\
  (f_func (instr c) = 0x1 ->
   state c' = WRITEBACK /\
   alu_result c' = if b <? 2 ^ 7 then b else b + 0xFF00) /\
  (f_func (instr c) = 0x2 -> state c' = WRITEBACK /\ alu_result c' = b) /\
  (f_func (instr c) = 0x0 ->
   state c' = WRITEBACK /\ alu_result c' = mem_rdata i mod 2 ^ 16).
Proof.
  split; [repeat split |].
  apply (byte_load_takes_low_byte scenario.rv
           (set_mem_addr_reg 0x1001
              (set_state MEMORY (scenario.at_execute 0x6711)))
           (scenario.fetch 0xFF80)); reflexivity.
Defined.

(** X23. An I/O instruction (opcode 0xD) whose function code is not one of
    INI, OUTI, IN, OUT has no transition out of EXECUTE: whatever the
    inputs, the engine stays in EXECUTE on the same instruction, raising no
    I/O strobe and never fetching again. *)
Theorem io_unknown_func_never_leaves_execute
    (rv : Z) (c : CPU) (ins : list Inputs) :
  state c = EXECUTE -> opcode (instr c) = 0xD -> 4 <= f_func (instr c) ->
  let c' := ticks rv c ins in
  state c' = EXECUTE /\ instr c' = instr c /\ rf c' = rf c /\
  io_rd (outputs c') = false /\ io_wr (outputs c') = false /\
  mem_valid (outputs c') = false.
Proof.
  intros Hst Hop Hf.
  assert (Hd : forall k : CPU, instr k = instr c ->
            inst_type (dec k) = IO /\ is_io_in (dec k) = false /\
            is_io_out (dec k) = false /\ is_extended (dec k) = false).
  { intros k Hk. unfold dec, Decoder, d_inst_type, d_is_io_in, d_is_io_out.
    cbn [inst_type is_io_in is_io_out is_extended]. rewrite Hk, Hop.
    pose proof (bits_range 0 4 (instr c) ltac:(lia)) as Hr.
    change (2 ^ (4 - 0)) with 16 in Hr. fold (f_func (instr c)) in Hr.
    assert (Hc : f_func (instr c) = 4 \/ f_func (instr c) = 5
                 \/ f_func (instr c) = 6 \/ f_func (instr c) = 7
                 \/ f_func (instr c) = 8 \/ f_func (instr c) = 9
                 \/ f_func (instr c) = 10 \/ f_func (instr c) = 11
                 \/ f_func (instr c) = 12 \/ f_func (instr c) = 13
                 \/ f_func (instr c) = 14 \/ f_func (instr c) = 15) by lia.
    destruct Hc as [-> | [-> | [-> | [-> | [-> | [-> | [-> | [-> | [-> | [->
                    | [-> | ->]]]]]]]]]]]; repeat split. }
  assert (Hstep : forall (k : CPU) (j : Inputs),
            state k = EXECUTE -> instr k = instr c ->
            state (tick rv k j) = EXECUTE /\ instr (tick rv k j) = instr c
            /\ rf (tick rv k j) = rf k).
  { intros k j Hks Hki. destruct (Hd k Hki) as (Hty & Hin & Hout & Hext).
    rewrite tick_execute by exact Hks.
    rewrite exx_only_misc by (rewrite Hty; discriminate).
    rewrite step_idle. unfold execute. rewrite Hty, Hin, Hout, Hext.
    cbn [state instr rf set_rf set_cycles set_pc].
    split; [exact Hks | split; [exact Hki | reflexivity]]. }
  intros c'. unfold c'. clear c'.
  assert (Hrun : state (ticks rv c ins) = EXECUTE
                 /\ instr (ticks rv c ins) = instr c
                 /\ rf (ticks rv c ins) = rf c).
  { assert (G : forall k, state k = EXECUTE -> instr k = instr c ->
                state (ticks rv k ins) = EXECUTE
                /\ instr (ticks rv k ins) = instr c
                /\ rf (ticks rv k ins) = rf k).
    { induction ins as [| j ins IH]; intros k Hks Hki.
      - repeat split; assumption.
      - rewrite ticks_cons. destruct (Hstep k j Hks Hki) as (H1 & H2 & H3).
        destruct (IH _ H1 H2) as (I1 & I2 & I3).
        rewrite I3, H3. repeat split; assumption. }
    apply G; [exact Hst | reflexivity]. }
  destruct Hrun as (R1 & R2 & R3).
  destruct (Hd _ R2) as (Hty & Hin & Hout & _).
  split; [exact R1 |]. split; [exact R2 |]. split; [exact R3 |].
  unfold outputs. rewrite R1, Hty, Hin, Hout. repeat split.
Qed.

Lemma io_unknown_func_never_leaves_execute_witness :
  let c := scenario.at_execute 0xD567 in
  let ins := [scenario.idle; scenario.fetch 0xE100; scenario.idle] in
  let c' := ticks scenario.rv c ins in
  (state c = EXECUTE /\ opcode (instr c) = 0xD /\ 4 <= f_func (instr c)) /\
  state c' = EXECUTE /\ instr c' = instr c /\ rf c' = rf c /\
  io_rd (outputs c') = false /\ io_wr (outputs c') = false /\
  mem_valid (outputs c') = false.
Proof.
  split; [split; [reflexivity | split; [reflexivity | discriminate]] |].
  apply (io_unknown_func_never_leaves_execute scenario.rv
           (scenario.at_execute 0xD567));
    [reflexivity | reflexivity | discriminate].
Defined.

(** X24. A conditional branch (opcode 0x8) either falls through to PC + 2
    or, when its condition holds on the current flags, goes to
    PC + 2 * offset, the offset being the signed low byte and PC the
    address of the branch itself; it returns to FETCH and changes neither
    flags nor registers. *)
Theorem branch_target (rv : Z) (c : CPU) (i : Inputs) :
  state c = EXECUTE -> opcode (instr c) = 0x8 ->
  let off := as_signed 8 (imm8_raw (instr c)) in
  let c' := tick rv c i in
  state c' = FETCH /\
  pc c' = (if branch_taken c then (pc c + 2 * off) mod 2 ^ 16
           else (pc c + 2) mod 2 ^ 16) /\
  - 2 ^ 7 <= off < 2 ^ 7 /\
  flags c' = flags c /\ rf c' = rf c.
Proof.
  intros Hst Hop off c'.
  assert (Hd : inst_type (dec c) = BRANCH /\ is_extended (dec c) = false).
  { unfold dec, Decoder, d_inst_type. cbn [inst_type is_extended].
    rewrite Hop. split; reflexivity. }
  destruct Hd as [Hty Hext].
  unfold c'. rewrite tick_execute by exact Hst.
  rewrite exx_only_misc by (rewrite Hty; discriminate).
  rewrite step_idle. unfold execute. rewrite Hty, Hext.
  assert (Hoff : - 2 ^ 7 <= off < 2 ^ 7).
  { unfold off, as_signed. change (8 - 1) with 7.
    pose proof (trunc_range 8 (imm8_raw (instr c)) ltac:(lia)).
    destruct (Z.ltb_spec (trunc 8 (imm8_raw (instr c))) (2 ^ 7)); lia. }
  destruct (branch_taken c);
    cbn [state pc flags rf set_rf set_cycles set_state set_pc];
    (split; [reflexivity |]); (split; [| split; [exact Hoff |
                                                 split; reflexivity]]).
  - unfold pc_branch. rewrite trunc_trunc by lia.
    rewrite Z.shiftl_mul_pow2 by lia. unfold trunc. cbn [offset8 dec Decoder].
    fold off. f_equal. change (2 ^ 1) with 2. lia.
  - unfold pc_plus_2. apply trunc_trunc. lia.
Qed.

Lemma branch_target_witness :
  let c := set_flags 0x40 (scenario.at_execute 0x8004) in
  let off := as_signed 8 (imm8_raw (instr c)) in
  let c' := tick scenario.rv c scenario.idle in
  (state c = EXECUTE /\ opcode (instr c) = 0x8) /\
  state c' = FETCH /\
  pc c' = (if branch_taken c then (pc c + 2 * off) mod 2 ^ 16
           else (pc c + 2) mod 2 ^ 16) /\
  - 2 ^ 7 <= off < 2 ^ 7 /\
  flags c' = flags c /\ rf c' = rf c.
Proof.
  split; [split; reflexivity |].
  apply (branch_target scenario.rv
           (set_flags 0x40 (scenario.at_execute 0x8004)) scenario.idle);
    reflexivity.
Defined.

End cpu_memory.

(** ** The engine: whole instructions *)

Section cpu_sequences.

Local Arguments trunc : simpl never.
Local Arguments bits : simpl never.

Lemma field_latched lo hi w :
  0 <= lo -> lo <= hi -> hi <= 16 -> bits lo hi (trunc 16 w) = bits lo hi w.
Proof. intros. apply bits_trunc; lia. Qed.

(** Fetch and decode of a 16-bit instruction without bus stall. *)
Lemma fetch_decode rv c i1 i2 :
  state c = FETCH -> mem_ready i1 = true -> opcode (mem_rdata i1) <> 0xF ->
  ticks rv c [i1; i2] = set_state EXECUTE (set_instr (mem_rdata i1) c).
Proof.
  intros Hst Hrdy Hop. rewrite ticks_cons, (tick_fetch rv c i1 Hst Hrdy).
  rewrite ticks_cons. rewrite tick_decode; [reflexivity | reflexivity |].
  unfold dec, Decoder. cbn [is_extended instr set_state set_instr].
  rewrite opcode_latched. apply Z.eqb_neq. exact Hop.
Qed.

Lemma read_after_write rf a d :
  wf rf -> trunc 4 a <> 0 ->
  read_port (step rf a d true false) a = trunc 16 d.
Proof.
  intros [Hlen _] Ha. unfold step, read_port.
  rewrite (proj2 (Z.eqb_neq _ _) Ha). cbn [andb negb regs].
  apply sel_insert_eq. pose proof (addr_range a). lia.
Qed.

Lemma nibble_trunc4 lo x : trunc 4 (bits lo (lo + 4) x) = bits lo (lo + 4) x.
Proof.
  apply trunc_small. pose proof (bits_range lo (lo + 4) x ltac:(lia)) as H.
  replace (lo + 4 - lo) with 4 in H by lia. exact H.
Qed.

Lemma dec_jalr c :
  opcode (instr c) = 0x9 -> f_func (instr c) = 0x1 -> f_rd (instr c) <> 0 ->
  inst_type (dec c) = JUMP_REG /\ is_call (dec c) = true /\
  reg_write (dec c) = true /\ is_extended (dec c) = false.
Proof.
  intros Hop Hf Hr.
  assert (Hjr : jump_is_jr (instr c) = false)
    by (rewrite jump_is_jr_fields, Hf; apply andb_false_r).
  assert (Hjalr : jump_is_jalr (instr c) = true).
  { unfold jump_is_jalr. rewrite Hjr, Hf.
    rewrite (proj2 (Z.eqb_neq _ _) Hr). reflexivity. }
  unfold dec, Decoder, d_inst_type, d_is_call, d_reg_write.
  cbn [inst_type is_call reg_write is_extended].
  rewrite Hop, Hjr, Hjalr. repeat split.
Qed.

Lemma dec_jr c :
  opcode (instr c) = 0x9 -> f_rd (instr c) = 0xF -> f_func (instr c) = 0x0 ->
  inst_type (dec c) = JUMP_REG /\ is_call (dec c) = false /\
  is_extended (dec c) = false.
Proof.
  intros Hop Hr Hf.
  assert (Hjr : jump_is_jr (instr c) = true)
    by (rewrite jump_is_jr_fields, Hf, Hr; reflexivity).
  assert (Hjalr : jump_is_jalr (instr c) = false)
    by (unfold jump_is_jalr; rewrite Hjr; reflexivity).
  unfold dec, Decoder, d_inst_type, d_is_call.
  cbn [inst_type is_call is_extended].
  rewrite Hop, Hjr, Hjalr. repeat split.
Qed.

(** A register jump in EXECUTE: PC takes R[rs1]. *)
Lemma execute_jump_reg rv c i :
  state c = EXECUTE -> inst_type (dec c) = JUMP_REG ->
  is_extended (dec c) = false ->
  tick rv c i =
  (if is_call (dec c)
   then set_cycles (cycles c + 1)
          (set_state WRITEBACK
             (set_alu_result (pc_plus_2 c)
                (set_pc (trunc 16 (read_port (rf c) (f_rs1 (instr c)))) c)))
   else set_cycles (cycles c + 1)
          (set_state FETCH
             (set_pc (trunc 16 (read_port (rf c) (f_rs1 (instr c)))) c))).
Proof.
  intros Hst Hty Hext.
  assert (Hrs : rs1_data c = trunc 16 (read_port (rf c) (f_rs1 (instr c)))).
  { unfold rs1_data, cpu.rd_data1, regfile.rd_data1, rd_addr1, is_alu_imm.
    rewrite Hst, Hty. reflexivity. }
  rewrite tick_execute by exact Hst.
  rewrite exx_only_misc by (rewrite Hty; discriminate).
  rewrite step_idle. unfold execute. rewrite Hty, Hext, Hrs.
  destruct (is_call (dec c)); destruct c; reflexivity.
Qed.

Lemma ticks_app rv c l1 l2 :
  ticks rv c (l1 ++ l2) = ticks rv (ticks rv c l1) l2.
Proof. unfold ticks. apply foldl_app. Qed.

Lemma ticks_nil rv c : ticks rv c [] = c.
Proof. reflexivity. Qed.

(** JALR from FETCH: four cycles without stall. *)
Lemma exec_jalr rv c i1 i2 i3 i4 :
  wf (rf c) -> state c = FETCH ->
  mem_ready i1 = true -> opcode (mem_rdata i1) = 0x9 ->
  f_func (mem_rdata i1) = 0x1 -> f_rd (mem_rdata i1) <> 0 ->
  let c4 := ticks rv c [i1; i2; i3; i4] in
  state c4 = FETCH /\
  pc c4 = trunc 16 (read_port (rf c) (f_rs1 (mem_rdata i1))) /\
  read_port (rf c4) (f_rd (mem_rdata i1)) = trunc 16 (pc c + 2).
Proof.
  intros Hwf Hst Hr1 Ho1 Hf1 Hd1 c4.
  set (w1 := mem_rdata i1) in *.
  (* the call *)
  set (ce := set_state EXECUTE (set_instr w1 c)).
  assert (E2 : ticks rv c [i1; i2] = ce)
    by (apply fetch_decode; [exact Hst | exact Hr1 | fold w1; lia]).
  assert (Hie : instr ce = trunc 16 w1) by reflexivity.
  assert (Hoe : opcode (instr ce) = 0x9)
    by (rewrite Hie, opcode_latched; exact Ho1).
  assert (Hfe : f_func (instr ce) = 0x1)
    by (rewrite Hie, f_func_latched; exact Hf1).
  assert (Hde : f_rd (instr ce) = f_rd w1)
    by (rewrite Hie; apply field_latched; lia).
  assert (Hse : f_rs1 (instr ce) = f_rs1 w1)
    by (rewrite Hie; apply field_latched; lia).
  destruct (dec_jalr ce Hoe Hfe ltac:(rewrite Hde; exact Hd1))
    as (Hty & Hcall & Hrw & Hext).
  set (cw := tick rv ce i3).
  assert (E3 : cw = set_cycles (cycles c + 1)
                      (set_state WRITEBACK
                         (set_alu_result (pc_plus_2 ce)
                            (set_pc (trunc 16 (read_port (rf c) (f_rs1 w1)))
                               ce)))).
  { unfold cw. rewrite (execute_jump_reg rv ce i3 eq_refl Hty Hext).
    rewrite Hcall, Hse. reflexivity. }
  assert (Hdw : dec cw = dec ce) by (rewrite E3; reflexivity).
  assert (E4 : c4 = tick rv cw i4).
  { unfold c4. change [i1; i2; i3; i4] with ([i1; i2] ++ [i3; i4]).
    unfold ticks. rewrite foldl_app. fold (ticks rv c [i1; i2]).
    rewrite E2. reflexivity. }
  clearbody c4. clearbody cw.
  assert (Hsw : state cw = WRITEBACK) by (rewrite E3; reflexivity).
  rewrite (tick_writeback rv cw i4 Hsw) in E4.
  assert (Hwa : cpu.wr_addr cw = f_rd w1).
  { unfold cpu.wr_addr, cpu.wr_en. rewrite Hsw, Hdw, Hrw.
    unfold dec, Decoder. cbn [rd]. exact Hde. }
  assert (Hwd : cpu.wr_data cw = trunc 16 (pc c + 2)).
  { unfold cpu.wr_data, cpu.wr_en. rewrite Hsw, Hdw, Hrw, E3.
    cbn [alu_result set_cycles set_state set_alu_result].
    unfold pc_plus_2. apply trunc_trunc. lia. }
  rewrite Hdw, Hrw, Hwa, Hwd in E4.
  assert (Hrf4 : rf c4 = step (rf c) (f_rd w1) (trunc 16 (pc c + 2)) true false)
    by (rewrite E4, E3; reflexivity).
  assert (Hs4 : state c4 = FETCH) by (rewrite E4; reflexivity).
  assert (Hp4 : pc c4 = trunc 16 (read_port (rf c) (f_rs1 w1))).
  { rewrite E4, E3. cbn [pc set_rf set_state set_cycles set_alu_result set_pc].
    apply trunc_trunc. lia. }
  assert (Hnz : trunc 4 (f_rd w1) <> 0).
  { pose proof (nibble_trunc4 8 w1) as Hn. change (8 + 4) with 12 in Hn.
    fold (f_rd w1) in Hn. rewrite Hn. exact Hd1. }
  assert (Hlinkv : read_port (rf c4) (f_rd w1) = trunc 16 (pc c + 2)).
  { rewrite Hrf4, read_after_write by assumption. apply trunc_trunc. lia. }
  split; [exact Hs4 |]. split; [exact Hp4 | exact Hlinkv].
Qed.

(** JR from FETCH: three cycles without stall. *)
Lemma exec_jr rv c i5 i6 i7 :
  state c = FETCH ->
  mem_ready i5 = true -> opcode (mem_rdata i5) = 0x9 ->
  f_rd (mem_rdata i5) = 0xF -> f_func (mem_rdata i5) = 0x0 ->
  state (ticks rv c [i5; i6; i7]) = FETCH /\
  pc (ticks rv c [i5; i6; i7])
  = trunc 16 (read_port (rf c) (f_rs1 (mem_rdata i5))).
Proof.
  intros Hst Hr5 Ho5 Hd5 Hf5.
  change [i5; i6; i7] with ([i5; i6] ++ [i7]). rewrite ticks_app.
  rewrite (fetch_decode rv c i5 i6 Hst Hr5) by (rewrite Ho5; discriminate).
  rewrite ticks_cons, ticks_nil.
  assert (Hor : opcode (instr (set_state EXECUTE (set_instr (mem_rdata i5) c)))
                = 0x9)
    by (cbn [instr set_state set_instr]; rewrite opcode_latched; exact Ho5).
  assert (Hfr : f_func (instr (set_state EXECUTE (set_instr (mem_rdata i5) c)))
                = 0x0)
    by (cbn [instr set_state set_instr]; rewrite f_func_latched; exact Hf5).
  assert (Hdr : f_rd (instr (set_state EXECUTE (set_instr (mem_rdata i5) c)))
                = 0xF)
    by (cbn [instr set_state set_instr]; unfold f_rd;
        rewrite field_latched by lia; exact Hd5).
  destruct (dec_jr _ Hor Hdr Hfr) as (Hty & Hcall & Hext).
  rewrite (execute_jump_reg rv
             (set_state EXECUTE (set_instr (mem_rdata i5) c)) i7 eq_refl
             Hty Hext), Hcall.
  cbn [state pc rf instr set_cycles set_state set_pc set_instr].
  split; [reflexivity |].
  unfold f_rs1. rewrite field_latched by lia. apply trunc_trunc. lia.
Qed.

(** X25. Call and return. JALR rd, rs1 (func 1, rd not 0) takes four
    cycles from FETCH: PC becomes R[rs1] and rd receives the address of the
    next instruction, PC + 2. A JR through that register (rd field 15,
    func 0) then brings PC back to PC + 2. *)
Theorem jalr_then_jr_returns (rv : Z) (c : CPU)
    (i1 i2 i3 i4 i5 i6 i7 : Inputs) :
  wf (rf c) -> state c = FETCH ->
  mem_ready i1 = true -> opcode (mem_rdata i1) = 0x9 ->
  f_func (mem_rdata i1) = 0x1 -> f_rd (mem_rdata i1) <> 0 ->
  mem_ready i5 = true -> opcode (mem_rdata i5) = 0x9 ->
  f_rd (mem_rdata i5) = 0xF -> f_func (mem_rdata i5) = 0x0 ->
  f_rs1 (mem_rdata i5) = f_rd (mem_rdata i1) ->
  let c4 := ticks rv c [i1; i2; i3; i4] in
  let c7 := ticks rv c4 [i5; i6; i7] in
  state c4 = FETCH /\
  pc c4 = trunc 16 (read_port (rf c) (f_rs1 (mem_rdata i1))) /\
  read_port (rf c4) (f_rd (mem_rdata i1)) = trunc 16 (pc c + 2) /\
  state c7 = FETCH /\
  pc c7 = trunc 16 (pc c + 2).
Proof.
  intros Hwf Hst Hr1 Ho1 Hf1 Hd1 Hr5 Ho5 Hd5 Hf5 Hlink. cbv zeta.
  destruct (exec_jalr rv c i1 i2 i3 i4 Hwf Hst Hr1 Ho1 Hf1 Hd1)
    as (Hs4 & Hp4 & Hl4).
  generalize dependent (ticks rv c [i1; i2; i3; i4]). intros c4 Hs4 Hp4 Hl4.
  destruct (exec_jr rv c4 i5 i6 i7 Hs4 Hr5 Ho5 Hd5 Hf5) as (Hs7 & Hp7).
  split; [exact Hs4 |]. split; [exact Hp4 |]. split; [exact Hl4 |].
  split; [exact Hs7 |].
  rewrite Hp7, Hlink, Hl4. apply trunc_trunc. lia.
Qed.

Lemma jalr_then_jr_returns_witness :
  let c := scenario.at_fetch in
  let i1 := scenario.fetch 0x9141 in
  let i5 := scenario.fetch 0x9F10 in
  let c4 := ticks scenario.rv c [i1; scenario.idle; scenario.idle;
                                 scenario.idle] in
  let c7 := ticks scenario.rv c4 [i5; scenario.idle; scenario.idle] in
  (wf (rf c) /\ state c = FETCH /\
   opcode (mem_rdata i1) = 0x9 /\ f_func (mem_rdata i1) = 0x1 /\
   f_rd (mem_rdata i1) <> 0 /\
   opcode (mem_rdata i5) = 0x9 /\ f_rd (mem_rdata i5) = 0xF /\
   f_func (mem_rdata i5) = 0x0 /\
   f_rs1 (mem_rdata i5) = f_rd (mem_rdata i1)) /\
  state c4 = FETCH /\
  pc c4 = trunc 16 (read_port (rf c) (f_rs1 (mem_rdata i1))) /\
  read_port (rf c4) (f_rd (mem_rdata i1)) = trunc 16 (pc c + 2) /\
  state c7 = FETCH /\
  pc c7 = trunc 16 (pc c + 2).
Proof.
  split.
  { split; [split; reflexivity |]. repeat split. discriminate. }
  apply (jalr_then_jr_returns scenario.rv scenario.at_fetch
           (scenario.fetch 0x9141) scenario.idle scenario.idle scenario.idle
           (scenario.fetch 0x9F10) scenario.idle scenario.idle);
    try reflexivity.
  - split; reflexivity.
  - discriminate.
Defined.

Lemma tick_decode_ext rv c i :
  state c = DECODE -> is_extended (dec c) = true ->
  tick rv c i = set_state FETCH_EXT c.
Proof.
  intros Hst Hext. unfold tick, cpu.wr_addr, cpu.wr_data, cpu.wr_en, cpu.exx.
  rewrite Hst, Hext, step_idle. destruct c; reflexivity.
Qed.

Lemma tick_fetch_ext rv c i :
  state c = FETCH_EXT -> mem_ready i = true ->
  tick rv c i = set_state EXECUTE (set_instr_ext (mem_rdata i) c).
Proof.
  intros Hst Hrdy. unfold tick, cpu.wr_addr, cpu.wr_data, cpu.wr_en, cpu.exx.
  rewrite Hst, Hrdy, step_idle. destruct c; reflexivity.
Qed.

Lemma dec_lix c :
  opcode (instr c) = 0xF -> f_func (instr c) = 0x7 ->
  inst_type (dec c) = EXTENDED /\ is_extended (dec c) = true /\
  mem_load (dec c) = false /\ mem_store (dec c) = false /\
  is_jump (dec c) = false /\ func (dec c) = 0x7 /\ reg_write (dec c) = true.
Proof.
  intros Hop Hf.
  unfold dec, Decoder, d_inst_type, d_mem_load, d_mem_store, d_is_jump,
    d_reg_write.
  cbn [inst_type is_extended mem_load mem_store is_jump func reg_write].
  rewrite Hop, Hf. repeat split.
Qed.

Lemma execute_lix rv c i :
  state c = EXECUTE -> opcode (instr c) = 0xF -> f_func (instr c) = 0x7 ->
  tick rv c i =
  set_cycles (cycles c + 1)
    (set_state WRITEBACK
       (set_alu_result (instr_ext c) (set_pc (pc_plus_4 c) c))).
Proof.
  intros Hst Hop Hf.
  destruct (dec_lix c Hop Hf) as (Hty & Hext & Hml & Hms & Hj & Hfn & _).
  rewrite tick_execute by exact Hst.
  rewrite exx_only_misc by (rewrite Hty; discriminate).
  rewrite step_idle. unfold execute. rewrite Hty, Hext, Hml, Hms, Hj, Hfn.
  destruct c; reflexivity.
Qed.

(** Two machine states with the same registers are the same state. *)
Lemma cpu_ext (a b : CPU) :
  state a = state b -> pc a = pc b -> flags a = flags b ->
  cycles a = cycles b -> instr a = instr b -> instr_ext a = instr_ext b ->
  alu_result a = alu_result b -> mem_addr_reg a = mem_addr_reg b ->
  mem_data_reg a = mem_data_reg b -> int_enabled a = int_enabled b ->
  rf a = rf b -> a = b.
Proof.
  destruct a, b. cbn [state pc flags cycles instr instr_ext alu_result
                      mem_addr_reg mem_data_reg int_enabled rf].
  intros; subst; reflexivity.
Qed.

(** LIX from FETCH: five cycles without stall. *)
Lemma exec_lix rv c i1 i2 i3 i4 i5 :
  wf (rf c) -> state c = FETCH ->
  mem_ready i1 = true -> opcode (mem_rdata i1) = 0xF ->
  f_func (mem_rdata i1) = 0x7 -> f_rd (mem_rdata i1) <> 0 ->
  mem_ready i3 = true ->
  ticks rv c [i1; i2; i3; i4; i5] =
  set_rf (step (rf c) (f_rd (mem_rdata i1)) (trunc 16 (mem_rdata i3))
               true false)
    (set_state FETCH
       (set_cycles (cycles c + 1)
          (set_alu_result (mem_rdata i3)
             (set_pc (trunc 16 (pc c + 4))
                (set_instr_ext (mem_rdata i3)
                   (set_instr (mem_rdata i1) c)))))) /\
  mem_addr (outputs (ticks rv c [i1; i2])) = trunc 16 (pc c + 2).
Proof.
  intros Hwf Hst Hr1 Ho1 Hf1 Hd1 Hr3.
  set (w := mem_rdata i1) in *. set (k := mem_rdata i3) in *.
  set (cd := set_state DECODE (set_instr w c)).
  assert (Hod : opcode (instr cd) = 0xF)
    by (cbn [instr cd set_state set_instr]; rewrite opcode_latched; exact Ho1).
  assert (Hfd : f_func (instr cd) = 0x7)
    by (cbn [instr cd set_state set_instr]; rewrite f_func_latched; exact Hf1).
  destruct (dec_lix cd Hod Hfd) as (_ & Hextd & _).
  assert (E2 : ticks rv c [i1; i2] = set_state FETCH_EXT cd).
  { rewrite ticks_cons, (tick_fetch rv c i1 Hst Hr1). fold w. fold cd.
    rewrite ticks_cons, ticks_nil.
    apply (tick_decode_ext rv cd i2 eq_refl Hextd). }
  split.
  - change [i1; i2; i3; i4; i5] with ([i1; i2] ++ [i3; i4; i5]).
    rewrite ticks_app, E2, ticks_cons.
    rewrite (tick_fetch_ext rv (set_state FETCH_EXT cd) i3 eq_refl Hr3).
    fold k.
    set (ce := set_state EXECUTE (set_instr_ext k (set_state FETCH_EXT cd))).
    assert (Hoe : opcode (instr ce) = 0xF) by exact Hod.
    assert (Hfe : f_func (instr ce) = 0x7) by exact Hfd.
    rewrite ticks_cons, (execute_lix rv ce i4 eq_refl Hoe Hfe).
    set (cw := set_cycles (cycles ce + 1)
                 (set_state WRITEBACK
                    (set_alu_result (instr_ext ce)
                       (set_pc (pc_plus_4 ce) ce)))).
    destruct (dec_lix cw Hoe Hfe) as (_ & _ & _ & _ & _ & _ & Hrw).
    rewrite ticks_cons, ticks_nil, (tick_writeback rv cw i5 eq_refl).
    assert (Hwa : cpu.wr_addr cw = f_rd w).
    { unfold cpu.wr_addr, cpu.wr_en. cbn [state cw set_cycles set_state].
      rewrite Hrw. unfold dec, Decoder. cbn [rd].
      cbn [instr cw ce cd set_cycles set_state set_alu_result set_pc
           set_instr_ext set_instr].
      unfold f_rd. apply field_latched; lia. }
    assert (Hwd : cpu.wr_data cw = trunc 16 k).
    { unfold cpu.wr_data, cpu.wr_en. cbn [state cw set_cycles set_state].
      rewrite Hrw.
      cbn [alu_result instr_ext cw ce cd set_cycles set_state set_alu_result
           set_pc set_instr_ext set_instr].
      apply trunc_trunc. lia. }
    rewrite Hwa, Hwd, Hrw.
    assert (Hp : pc_plus_4 ce = trunc 16 (pc c + 4)) by reflexivity.
    assert (Ha : trunc 16 (instr_ext ce) = trunc 16 k)
      by (cbn [instr_ext ce set_state set_instr_ext]; apply trunc_trunc; lia).
    apply cpu_ext; try reflexivity.
    cbn [alu_result cw ce cd set_rf set_state set_cycles set_alu_result
         set_pc set_instr_ext set_instr].
    exact Ha.
  - rewrite E2. unfold outputs.
    cbn [state pc cd set_state set_instr mem_addr drive_mem].
    reflexivity.
Qed.

(** X26. LIX rd, imm16 (opcode 0xF, func 7) is a two-word instruction: the
    engine fetches the second word at PC + 2, and after five cycles rd holds
    that word, PC has advanced by 4, CYCLES by 1, and the flags are
    untouched. *)
Theorem lix_loads_second_word (rv : Z) (c : CPU) (i1 i2 i3 i4 i5 : Inputs) :
  wf (rf c) -> state c = FETCH ->
  mem_ready i1 = true -> opcode (mem_rdata i1) = 0xF ->
  f_func (mem_rdata i1) = 0x7 -> f_rd (mem_rdata i1) <> 0 ->
  mem_ready i3 = true ->
  let c5 := ticks rv c [i1; i2; i3; i4; i5] in
  state c5 = FETCH /\
  read_port (rf c5) (f_rd (mem_rdata i1)) = trunc 16 (mem_rdata i3) /\
  pc c5 = trunc 16 (pc c + 4) /\
  flags c5 = flags c /\
  cycles c5 = trunc 32 (cycles c + 1) /\
  mem_addr (outputs (ticks rv c [i1; i2])) = trunc 16 (pc c + 2).
Proof.
  intros Hwf Hst Hr1 Ho1 Hf1 Hd1 Hr3. cbv zeta.
  destruct (exec_lix rv c i1 i2 i3 i4 i5 Hwf Hst Hr1 Ho1 Hf1 Hd1 Hr3)
    as [E5 Hfetch2].
  rewrite E5.
  cbn [state rf pc flags cycles set_rf set_state set_cycles set_alu_result
       set_pc set_instr_ext set_instr].
  split; [reflexivity |]. split; [| split; [| split; [reflexivity |
                                    split; [reflexivity | exact Hfetch2]]]].
  - assert (Hnz : trunc 4 (f_rd (mem_rdata i1)) <> 0).
    { pose proof (nibble_trunc4 8 (mem_rdata i1)) as Hn.
      change (8 + 4) with 12 in Hn. fold (f_rd (mem_rdata i1)) in Hn.
      rewrite Hn. exact Hd1. }
    rewrite read_after_write by assumption. apply trunc_trunc. lia.
  - apply trunc_trunc. lia.
Qed.

Lemma lix_loads_second_word_witness :
  let c := scenario.at_fetch in
  let i1 := scenario.fetch 0xF507 in
  let i3 := scenario.fetch 0xBEEF in
  let c5 := ticks scenario.rv c [i1; scenario.idle; i3; scenario.idle;
                                 scenario.idle] in
  (wf (rf c) /\ state c = FETCH /\ opcode (mem_rdata i1) = 0xF /\
   f_func (mem_rdata i1) = 0x7 /\ f_rd (mem_rdata i1) <> 0) /\
  state c5 = FETCH /\
  read_port (rf c5) (f_rd (mem_rdata i1)) = trunc 16 (mem_rdata i3) /\
  pc c5 = trunc 16 (pc c + 4) /\
  flags c5 = flags c /\
  cycles c5 = trunc 32 (cycles c + 1) /\
  mem_addr (outputs (ticks scenario.rv c [i1; scenario.idle]))
  = trunc 16 (pc c + 2).
Proof.
  split.
  { split; [split; reflexivity |]. repeat split. discriminate. }
  apply (lix_loads_second_word scenario.rv scenario.at_fetch
           (scenario.fetch 0xF507) scenario.idle (scenario.fetch 0xBEEF)
           scenario.idle scenario.idle);
    try reflexivity.
  - split; reflexivity.
  - discriminate.
Defined.

End cpu_sequences.

(** ** The UART and the memory image *)

Section soc_facts.

Local Arguments trunc : simpl never.
Local Arguments bits : simpl never.

Lemma uart_run_cons u i ins :
  soc.uart_run u (i :: ins) = soc.uart_run (soc.uart_step u i) ins.
Proof. reflexivity. Qed.

(** X27. The UART buffers one byte in each direction.
    Transmit: a write to port 0x81 loads the byte and offers it on the
    serial side from the next cycle, unless that same cycle completes the
    handshake of the previous byte: then the pending bit is cleared and the
    byte just written is not offered. A pending byte stays offered until
    [tx_ready].
    Receive: a byte is captured only while the buffer is empty, and the
    capture wins over a read of the data port in the same cycle; a full
    buffer ignores the serial input and keeps its byte over any number of
    cycles without a read of port 0x81; such a read empties it. *)
Theorem uart_one_byte_buffers (u : soc.UART) (i : soc.UARTIn)
    (ins : list soc.UARTIn) :
  let u' := soc.uart_step u i in
  (soc.writes_data i = true ->
   soc.tx_data u' = trunc 8 (soc.wdata i) /\
   soc.tx_valid u' = negb (soc.tx_ready i && soc.tx_pending u)) /\
  (soc.writes_data i = false ->
   soc.tx_data u' = soc.tx_data u /\
   soc.tx_valid u' = soc.tx_pending u && negb (soc.tx_ready i)) /\
  (soc.rx_valid i = true -> soc.rx_ready u = true ->
   soc.rx_ready u' = false /\ soc.rx_buf u' = trunc 8 (soc.rx_data i)) /\
  (soc.rx_ready u = false ->
   soc.rx_buf u' = soc.rx_buf u /\
   soc.rx_ready u' = soc.reads_data i) /\
  (soc.rx_ready u = false ->
   Forall (fun j => soc.reads_data j = false) ins ->
   soc.rx_buf (soc.uart_run u ins) = soc.rx_buf u /\
   soc.rx_ready (soc.uart_run u ins) = false).
Proof.
  intros u'. subst u'. unfold soc.uart_step, soc.writes_data, soc.reads_data,
    soc.tx_data, soc.tx_valid, soc.rx_ready.
  cbn [soc.tx_buf soc.tx_pending soc.rx_buf soc.rx_ready_int].
  split; [| split; [| split; [| split]]].
  - intros ->. split; [apply trunc_trunc; lia |].
    destruct (soc.tx_ready i), (soc.tx_pending u); reflexivity.
  - intros ->. split; [reflexivity |].
    destruct (soc.tx_ready i), (soc.tx_pending u); reflexivity.
  - intros -> Hr. apply negb_true_iff in Hr. rewrite Hr. cbn [andb negb].
    split; reflexivity.
  - intros Hr. apply negb_false_iff in Hr. rewrite Hr.
    rewrite andb_false_r. split; [reflexivity |].
    destruct (soc.rd i && (trunc 8 (soc.addr i) =? 129)); reflexivity.
  - intros Hr Hall. revert u Hr.
    induction Hall as [| j js Hj _ IH]; intros u Hr.
    + split; [reflexivity | exact Hr].
    + rewrite uart_run_cons.
      assert (Hstep : soc.rx_buf (soc.uart_step u j) = soc.rx_buf u /\
                      negb (soc.rx_ready_int (soc.uart_step u j)) = false).
      { unfold soc.uart_step.
        cbn [soc.rx_buf soc.rx_ready_int].
        unfold soc.reads_data in Hj. rewrite Hj.
        apply negb_false_iff in Hr. rewrite Hr, andb_false_r.
        split; reflexivity. }
      destruct Hstep as [Hb Hr'].
      destruct (IH _ Hr') as [I1 I2].
      split; [rewrite I1; exact Hb | exact I2].
Qed.

Lemma uart_one_byte_buffers_witness :
  let i := {| soc.addr := 0x81; soc.wdata := 0x41; soc.rd := false;
              soc.wr := true; soc.tx_ready := true; soc.rx_data := 0;
              soc.rx_valid := false |} in
  let u' := soc.uart_step soc.uart_reset i in
  soc.writes_data i = true /\
  soc.tx_data u' = trunc 8 (soc.wdata i) /\
  soc.tx_valid u'
  = negb (soc.tx_ready i && soc.tx_pending soc.uart_reset).
Proof.
  split; [reflexivity |].
  destruct (uart_one_byte_buffers soc.uart_reset
              {| soc.addr := 0x81; soc.wdata := 0x41; soc.rd := false;
                 soc.wr := true; soc.tx_ready := true; soc.rx_data := 0;
                 soc.rx_valid := false |} []) as (Hw & _).
  apply Hw. reflexivity.
Defined.

(** The status register read at port 0x80 has bit 0 = RX ready and
    bit 1 = TX ready (no byte pending), and nothing else; port 0x81 reads
    the receive buffer, any other port reads 0, and without a read strobe
    the read data is 0. *)
Theorem uart_read_data (u : soc.UART) (i : soc.UARTIn) :
  (soc.rd i = false -> soc.rdata u i = 0) /\
  (soc.rd i = true -> trunc 8 (soc.addr i) = 0x80 ->
   soc.rdata u i
   = Z.b2z (soc.rx_ready_int u) + 2 * Z.b2z (negb (soc.tx_pending u))) /\
  (soc.rd i = true -> trunc 8 (soc.addr i) = 0x81 ->
   soc.rdata u i = trunc 8 (soc.rx_buf u)) /\
  (soc.rd i = true -> trunc 8 (soc.addr i) <> 0x80 ->
   trunc 8 (soc.addr i) <> 0x81 -> soc.rdata u i = 0) /\
  0 <= soc.rdata u i < 2 ^ 8.
Proof.
  unfold soc.rdata, soc.status.
  assert (Hst : set_bit 1 (negb (soc.tx_pending u))
                  (set_bit 0 (soc.rx_ready_int u) 0)
                = Z.b2z (soc.rx_ready_int u)
                  + 2 * Z.b2z (negb (soc.tx_pending u)))
    by (destruct (soc.rx_ready_int u), (soc.tx_pending u); reflexivity).
  rewrite Hst.
  split; [intros ->; reflexivity |].
  split; [intros -> ->; reflexivity |].
  split; [intros -> ->; reflexivity |].
  pose proof (trunc_range 8 (soc.addr i) ltac:(lia)) as Ha.
  pose proof (trunc_range 8 (soc.rx_buf u) ltac:(lia)) as Hb.
  split.
  - intros -> H80 H81.
    destruct (trunc 8 (soc.addr i)) as [| p | p]; try reflexivity.
    repeat (destruct p as [p | p |]; try reflexivity); contradiction.
  - destruct (soc.rd i); [| change (2 ^ 8) with 256; lia].
    destruct (trunc 8 (soc.addr i)) as [| p | p];
      try (change (2 ^ 8) with 256; lia).
    repeat (destruct p as [p | p |]; try (change (2 ^ 8) with 256; lia));
      try exact Hb;
      destruct (soc.rx_ready_int u), (soc.tx_pending u);
      cbn [Z.b2z negb]; change (2 ^ 8) with 256; lia.
Qed.

(** *** The memory image *)

Lemma word_of_bytes lo hi :
  0 <= lo < 2 ^ 8 -> 0 <= hi < 2 ^ 8 ->
  let w := Z.lor lo (Z.shiftl hi 8) in
  bits 0 8 w = lo /\ bits 8 16 w = hi /\ 0 <= w < 2 ^ 16.
Proof.
  intros Hlo Hhi w.
  assert (Hw : w = lo + hi * 2 ^ 8).
  { unfold w. rewrite <- (trunc_small 8 lo Hlo) at 1.
    change (Z.lor (trunc 8 lo) (Z.shiftl hi 8)) with (cat 8 lo hi).
    rewrite cat_add by lia. rewrite (trunc_small 8 lo Hlo). reflexivity. }
  rewrite Hw, !bits_div_mod by lia.
  change (2 ^ (8 - 0)) with 256. change (2 ^ (16 - 8)) with 256.
  change (2 ^ 0) with 1. change (2 ^ 8) with 256 in *.
  change (2 ^ 16) with 65536.
  repeat split; Z.div_mod_to_equations; lia.
Qed.

Lemma byte_at_cons2 w ws k :
  soc.byte_at (w :: ws) (S (S k)) = soc.byte_at ws k.
Proof.
  unfold soc.byte_at.
  replace (S (S k) / 2)%nat with (S (k / 2))%nat.
  - reflexivity.
  - change (S (S k)) with (2 + k)%nat.
    rewrite (Nat.add_comm 2 k).
    rewrite <- (Nat.mul_1_l 2) at 2.
    rewrite Nat.div_add by lia. lia.
Qed.

Lemma pack_words_bytes (init : list Z) :
  Forall (fun x => 0 <= x < 2 ^ 8) init ->
  forall k : nat,
    soc.byte_at (soc.pack_words init) k = default 0 (init !! k).
Proof.
  intros Hall.
  assert (G : forall n (l : list Z), (length l <= n)%nat ->
            Forall (fun x => 0 <= x < 2 ^ 8) l ->
            forall k, soc.byte_at (soc.pack_words l) k = default 0 (l !! k)).
  { induction n as [| n IH]; intros l Hlen Hl k.
    - destruct l; [| cbn in Hlen; lia].
      unfold soc.byte_at. cbn [soc.pack_words].
      rewrite !lookup_nil. cbn [default]. destruct (Nat.even k); reflexivity.
    - destruct l as [| lo [| hi rest]].
      + unfold soc.byte_at. cbn [soc.pack_words].
        rewrite !lookup_nil. cbn [default]. destruct (Nat.even k); reflexivity.
      + apply Forall_cons in Hl. destruct Hl as [Hlo _].
        destruct (word_of_bytes lo 0 Hlo ltac:(lia)) as (B0 & B1 & _).
        cbn [soc.pack_words].
        destruct k as [| [| k]].
        * exact B0.
        * exact B1.
        * rewrite byte_at_cons2. unfold soc.byte_at.
          rewrite lookup_nil. cbn [default].
          destruct (Nat.even k); reflexivity.
      + apply Forall_cons in Hl. destruct Hl as [Hlo Hl].
        apply Forall_cons in Hl. destruct Hl as [Hhi Hl].
        destruct (word_of_bytes lo hi Hlo Hhi) as (B0 & B1 & _).
        cbn [soc.pack_words].
        destruct k as [| [| k]].
        * exact B0.
        * exact B1.
        * rewrite byte_at_cons2. cbn [lookup list_lookup].
          apply IH; [cbn in Hlen; lia | exact Hl]. }
  apply (G (length init)); [lia | exact Hall].
Qed.

Lemma pack_words_length (init : list Z) :
  length (soc.pack_words init) = ((length init + 1) / 2)%nat.
Proof.
  assert (G : forall n (l : list Z), (length l <= n)%nat ->
            length (soc.pack_words l) = ((length l + 1) / 2)%nat).
  { induction n as [| n IH]; intros l Hlen.
    - destruct l; [reflexivity | cbn in Hlen; lia].
    - destruct l as [| lo [| hi rest]]; [reflexivity | reflexivity |].
      cbn [soc.pack_words length]. rewrite IH by (cbn in Hlen; lia).
      replace (S (S (length rest)) + 1)%nat with (length rest + 1 + 1 * 2)%nat
        by lia.
      rewrite Nat.div_add by lia. lia. }
  apply (G (length init)). lia.
Qed.

Lemma byte_at_app ws pad k :
  (k / 2 < length ws)%nat ->
  soc.byte_at (ws ++ pad) k = soc.byte_at ws k.
Proof.
  intros H. unfold soc.byte_at. rewrite lookup_app_l by exact H. reflexivity.
Qed.

(** X28. The memory image is little-endian: for a program of bytes, byte
    [k] of the word list is byte [k] of the program (even bytes in bits 7:0,
    odd bytes in bits 15:8 of word [k / 2]) and every byte past the program
    is 0; the list has [size // 2] words, or as many as the program needs
    when it is longer. *)
Theorem init_words_little_endian (size : Z) (init : list Z) :
  Forall (fun x => 0 <= x < 2 ^ 8) init ->
  let ws := soc._init_words size init in
  (forall k : nat, (k < length init)%nat ->
     init !! k = Some (soc.byte_at ws k)) /\
  (forall k : nat, (length init <= k)%nat -> soc.byte_at ws k = 0) /\
  length ws = Nat.max ((length init + 1) / 2) (Z.to_nat (size / 2)).
Proof.
  intros Hall ws. unfold ws, soc._init_words.
  set (p := soc.pack_words init).
  assert (Hlen : length p = ((length init + 1) / 2)%nat)
    by apply pack_words_length.
  split; [| split].
  - intros k Hk.
    assert (Hk2 : (k / 2 < length p)%nat).
    { rewrite Hlen. apply Nat.Div0.div_lt_upper_bound.
      pose proof (Nat.div_mod_eq (length init + 1) 2) as Hd.
      pose proof (Nat.mod_upper_bound (length init + 1) 2 ltac:(lia)). lia. }
    rewrite byte_at_app by exact Hk2. unfold p.
    rewrite pack_words_bytes by exact Hall.
    destruct (init !! k) eqn:E; [reflexivity |].
    apply lookup_ge_None in E. lia.
  - intros k Hk.
    destruct (Nat.lt_ge_cases (k / 2) (length p)) as [Hin | Hout].
    + rewrite byte_at_app by exact Hin. unfold p.
      rewrite pack_words_bytes by exact Hall.
      rewrite (proj2 (lookup_ge_None init k)) by lia. reflexivity.
    + unfold soc.byte_at.
      destruct ((p ++ replicate (Z.to_nat (size / 2) - length p) 0)
                  !! (k / 2)%nat) as [w |] eqn:E; cbn [default].
      * rewrite lookup_app_r in E by exact Hout.
        apply lookup_replicate in E. destruct E as [-> _].
        destruct (Nat.even k); reflexivity.
      * destruct (Nat.even k); reflexivity.
  - rewrite length_app, length_replicate, Hlen. lia.
Qed.

Lemma init_words_little_endian_witness :
  let init := [0x34; 0x50; 0x01] in
  let ws := soc._init_words 8 init in
  Forall (fun x => 0 <= x < 2 ^ 8) init /\
  (forall k : nat, (k < length init)%nat ->
     init !! k = Some (soc.byte_at ws k)) /\
  (forall k : nat, (length init <= k)%nat -> soc.byte_at ws k = 0) /\
  length ws = Nat.max ((length init + 1) / 2) (Z.to_nat (8 / 2)).
Proof.
  assert (H : Forall (fun x => 0 <= x < 2 ^ 8) [0x34; 0x50; 0x01])
    by (repeat (apply Forall_cons; split; [lia |]); apply Forall_nil; exact I).
  split; [exact H |].
  apply (init_words_little_endian 8 [0x34; 0x50; 0x01]). exact H.
Defined.

End soc_facts.

(** ** The board: engine and UART together *)

Section board_facts.
Local Arguments trunc : simpl never.
Local Arguments bits : simpl never.

Ltac split_nibble f instr lo :=
  let Hc := fresh "Hc" in
  let k := fresh "k" in
  pose proof (nibble16 lo instr) as Hc; cbv zeta in Hc;
  change (bits lo (lo + 4) instr) with (f instr) in Hc;
  generalize dependent (f instr); intros k; intros;
  destruct Hc as
    [-> | [-> | [-> | [-> | [-> | [-> | [-> | [-> | [-> | [-> | [-> | [->
     | [-> | [-> | [-> | ->]]]]]]]]]]]]]]].

Lemma nibble_not_uart lo x : (trunc 8 (bits lo (lo + 4) x) =? 0x81) = false.
Proof.
  pose proof (bits_range lo (lo + 4) x ltac:(lia)) as H.
  replace (lo + 4 - lo) with 4 in H by lia. change (2 ^ 4) with 16 in H.
  rewrite trunc_small by (change (2 ^ 8) with 256; lia).
  apply Z.eqb_neq. lia.
Qed.

(** X29. Who can write to the UART. On the board the data register of the
    UART (port 0x81) is written only in the EXECUTE of an output
    instruction, and only two forms reach it: OUTX (opcode 0xF, func 0xC)
    with 0x81 in the low byte of its second word, which sends the low byte
    of R[rs1]; and the register form OUT (opcode 0xD, func 3) when the low
    byte of R[rd] is 0x81, which then sends that same byte 0x81, port and
    data being both read from rd. OUTI, whose port is a 4-bit field, never
    reaches it. *)
Theorem uart_written_only_by_out (b : soc.Board) (i : soc.BoardIn) :
  soc.writes_data (soc.uart_in b i) = true ->
  let c := soc.b_cpu b in
  state c = EXECUTE /\
  ((opcode (instr c) = 0xF /\ f_func (instr c) = 0xC /\
    bits 0 8 (instr_ext c) = 0x81 /\
    soc.wdata (soc.uart_in b i) = bits 0 8 (rs1_data c)) \/
   (opcode (instr c) = 0xD /\ f_func (instr c) = 0x3 /\
    bits 0 8 (read_port (rf c) (f_rd (instr c))) = 0x81 /\
    soc.wdata (soc.uart_in b i) = 0x81)).
Proof.
  unfold soc.writes_data, soc.uart_in. cbv zeta.
  cbn [soc.wr soc.addr soc.wdata].
  generalize (soc.b_cpu b). clear b i. intros c.
  unfold outputs, quiet.
  destruct (state c) eqn:Hst.
  all: cbn [io_wr io_addr io_wdata drive_mem drive_io andb];
    try discriminate.
  2: { repeat match goal with
              | |- context [if ?b then _ else _] => destruct b
              end; cbn [io_wr]; discriminate. }
  unfold rs1_data, rd_data1, rd_addr1, is_alu_imm. rewrite Hst.
  unfold dec, Decoder, d_inst_type, d_is_io_in, d_is_io_out, d_io_port_imm,
    d_mem_load, d_mem_store, d_is_jump.
  cbn [inst_type rd rs1 func mem_load mem_store is_jump is_io_in is_io_out
       io_port_imm].
  pose proof (nibble_not_uart 4 (instr c)) as Hport.
  change (bits 4 (4 + 4) (instr c)) with (f_rs1 (instr c)) in Hport.
  assert (Hb : forall x, trunc 8 (bits 0 8 x) = bits 0 8 x).
  { intros x. apply trunc_small. apply (bits_range 0 8 x). lia. }
  split_nibble opcode (instr c) 12.
  all: try (match goal with
            | H : _ && _ = true |- _ =>
                cbn [io_wr io_addr io_wdata drive_io andb orb negb] in H;
                discriminate H
            end).
  all: split_nibble f_func (instr c) 0.
  all: try (match goal with
            | H : _ && _ = true |- _ =>
                cbn [io_wr io_addr io_wdata drive_io andb orb negb] in H;
                repeat match type of H with
                       | context [if ?b then _ else _] => destruct b
                       end;
                cbn [io_wr io_addr io_wdata drive_io andb orb negb] in H;
                discriminate H
            end).
  all: match goal with
       | H : _ && _ = true |- _ =>
           cbn [io_wr io_addr io_wdata drive_io andb orb negb Z.eqb Pos.eqb]
             in H;
           rewrite trunc_trunc in H by lia
       end.
  all: cbn [io_wr io_addr io_wdata drive_io andb orb negb Z.eqb Pos.eqb].
  - rewrite Hport in H. discriminate H.
  - rewrite Hb in H. apply Z.eqb_eq in H.
    split; [reflexivity | right].
    repeat split; [exact H | rewrite Hb; exact H].
  - rewrite Hb in H. apply Z.eqb_eq in H.
    split; [reflexivity | left].
    repeat split; [exact H | apply Hb].
Qed.


Lemma uart_written_only_by_out_witness :
  let b := {| soc.b_cpu := set_instr_ext 0x0081 (scenario.at_execute 0xF05C);
              soc.b_uart := soc.uart_reset |} in
  let i := soc.board_idle in
  let c := soc.b_cpu b in
  soc.writes_data (soc.uart_in b i) = true /\
  state c = EXECUTE /\
  ((opcode (instr c) = 0xF /\ f_func (instr c) = 0xC /\
    bits 0 8 (instr_ext c) = 0x81 /\
    soc.wdata (soc.uart_in b i) = bits 0 8 (rs1_data c)) \/
   (opcode (instr c) = 0xD /\ f_func (instr c) = 0x3 /\
    bits 0 8 (read_port (rf c) (f_rd (instr c))) = 0x81 /\
    soc.wdata (soc.uart_in b i) = 0x81)).
Proof.
  split; [reflexivity |].
  apply (uart_written_only_by_out
           {| soc.b_cpu := set_instr_ext 0x0081 (scenario.at_execute 0xF05C);
              soc.b_uart := soc.uart_reset |}
           soc.board_idle).
  reflexivity.
Defined.

Lemma dec_ext_io c :
  opcode (instr c) = 0xF ->
  f_func (instr c) = 0xB \/ f_func (instr c) = 0xC ->
  inst_type (dec c) = EXTENDED /\ is_extended (dec c) = true /\
  mem_load (dec c) = false /\ mem_store (dec c) = false /\
  is_jump (dec c) = false /\ (func (dec c) =? 0x7) = false /\
  is_io_in (dec c) = (f_func (instr c) =? 0xB) /\
  is_io_out (dec c) = (f_func (instr c) =? 0xC) /\
  reg_write (dec c) = (f_func (instr c) =? 0xB).
Proof.
  intros Hop Hf.
  unfold dec, Decoder, d_inst_type, d_mem_load, d_mem_store, d_is_jump,
    d_is_io_in, d_is_io_out, d_reg_write.
  cbn [inst_type is_extended mem_load mem_store is_jump func is_io_in
       is_io_out reg_write].
  rewrite Hop. destruct Hf as [-> | ->]; repeat split.
Qed.

Lemma ext_io_port1 c :
  state c = EXECUTE -> opcode (instr c) = 0xF ->
  f_func (instr c) = 0xB \/ f_func (instr c) = 0xC ->
  rs1_data c = trunc 16 (read_port (rf c) (f_rs1 (instr c))).
Proof.
  intros Hst Hop Hf.
  destruct (dec_ext_io c Hop Hf) as (Hty & _ & Hml & Hms & _).
  unfold rs1_data, cpu.rd_data1, rd_addr1, is_alu_imm. cbv zeta.
  rewrite Hst, Hty, Hml, Hms. reflexivity.
Qed.

Lemma ext_io_outputs c :
  state c = EXECUTE -> opcode (instr c) = 0xF ->
  f_func (instr c) = 0xB \/ f_func (instr c) = 0xC ->
  outputs c =
  if f_func (instr c) =? 0xB
  then drive_io (bits 0 8 (instr_ext c)) 0 true false (quiet c)
  else drive_io (bits 0 8 (instr_ext c)) (bits 0 8 (rs1_data c)) false true
         (quiet c).
Proof.
  intros Hst Hop Hf.
  destruct (dec_ext_io c Hop Hf)
    as (Hty & _ & Hml & Hms & Hj & H7 & Hin & Hout & _).
  unfold outputs. cbv zeta. rewrite Hst, Hty, Hml, Hms, Hj, H7, Hin, Hout.
  destruct Hf as [-> | ->]; reflexivity.
Qed.

Lemma ext_io_execute rv c i :
  state c = EXECUTE -> opcode (instr c) = 0xF ->
  f_func (instr c) = 0xB \/ f_func (instr c) = 0xC ->
  tick rv c i =
  set_cycles (cycles c + 1)
    (if f_func (instr c) =? 0xB
     then set_state WRITEBACK
            (set_alu_result (cat 8 (io_rdata i) 0) (set_pc (pc_plus_4 c) c))
     else set_state FETCH (set_pc (pc_plus_4 c) c)).
Proof.
  intros Hst Hop Hf.
  destruct (dec_ext_io c Hop Hf)
    as (Hty & Hext & Hml & Hms & Hj & H7 & Hin & Hout & _).
  rewrite tick_execute by exact Hst.
  rewrite exx_only_misc by (rewrite Hty; discriminate).
  rewrite step_idle. unfold execute. cbv zeta.
  rewrite Hty, Hext, Hml, Hms, Hj, H7, Hin, Hout.
  destruct Hf as [-> | ->]; destruct c; reflexivity.
Qed.


(** INX through EXECUTE and WRITEBACK: rd receives the byte on [io_rdata]. *)
Lemma ext_inx_two_ticks rv c i i2 :
  state c = EXECUTE -> opcode (instr c) = 0xF -> f_func (instr c) = 0xB ->
  wf (rf c) -> f_rd (instr c) <> 0 ->
  state (tick rv (tick rv c i) i2) = FETCH /\
  read_port (rf (tick rv (tick rv c i) i2)) (f_rd (instr c))
  = trunc 8 (io_rdata i).
Proof.
  intros Hst Hop Hf Hwf Hrd.
  rewrite (ext_io_execute rv c i Hst Hop (or_introl Hf)). rewrite Hf.
  change (11 =? 11) with true. cbv iota.
  set (cw := set_cycles (cycles c + 1)
               (set_state WRITEBACK
                  (set_alu_result (cat 8 (io_rdata i) 0)
                     (set_pc (pc_plus_4 c) c)))).
  assert (Hopw : opcode (instr cw) = 0xF) by exact Hop.
  destruct (dec_ext_io cw Hopw (or_introl Hf))
    as (_ & _ & _ & _ & _ & _ & _ & _ & Hrw).
  change (f_func (instr cw)) with (f_func (instr c)) in Hrw.
  rewrite Hf in Hrw. change (11 =? 11) with true in Hrw.
  rewrite (tick_writeback rv cw i2 eq_refl).
  assert (Hwa : cpu.wr_addr cw = f_rd (instr c)).
  { unfold cpu.wr_addr, cpu.wr_en. cbn [state cw set_cycles set_state].
    rewrite Hrw. reflexivity. }
  assert (Hwd : cpu.wr_data cw = trunc 8 (io_rdata i)).
  { unfold cpu.wr_data, cpu.wr_en. cbn [state cw set_cycles set_state].
    rewrite Hrw.
    cbn [alu_result cw set_cycles set_state set_alu_result set_pc].
    rewrite cat_add by lia. rewrite Z.mul_0_l, Z.add_0_r.
    apply trunc_small.
    pose proof (trunc_range 8 (io_rdata i) ltac:(lia)) as Hr.
    change (2 ^ 8) with 256 in Hr. change (2 ^ 16) with 65536. lia. }
  rewrite Hwa, Hwd, Hrw.
  cbn [state rf set_rf set_state cw set_cycles set_alu_result set_pc].
  split; [reflexivity |].
  assert (Hnz : trunc 4 (f_rd (instr c)) <> 0).
  { pose proof (nibble_trunc4 8 (instr c)) as Hn.
    change (8 + 4) with 12 in Hn. fold (f_rd (instr c)) in Hn.
    rewrite Hn. exact Hrd. }
  rewrite read_after_write by assumption.
  apply trunc_small.
  pose proof (trunc_range 8 (io_rdata i) ltac:(lia)) as Hr.
  change (2 ^ 8) with 256 in Hr. change (2 ^ 16) with 65536. lia.
Qed.

(** X30. Console I/O on the board, through the engine and the UART
    together. OUTX to port 0x81 loads the low byte of R[rs1] into the
    transmitter, which offers it from the next cycle (unless that cycle
    completed the handshake of an earlier byte), and the engine returns to
    FETCH with the registers unchanged. INX from port 0x80 leaves in rd,
    two cycles later, the status byte: bit 0 says a received byte is
    waiting, bit 1 that the transmitter is free. INX from port 0x81 leaves
    the receive buffer in rd and empties it, unless a byte arrives in that
    same cycle. *)
Theorem board_extended_io (rv : Z) (b : soc.Board) (i i2 : soc.BoardIn) :
  state (soc.b_cpu b) = EXECUTE -> opcode (instr (soc.b_cpu b)) = 0xF ->
  let c := soc.b_cpu b in
  let u := soc.b_uart b in
  let port := bits 0 8 (instr_ext c) in
  let b1 := soc.board_step rv b i in
  let b2 := soc.board_step rv b1 i2 in
  (f_func (instr c) = 0xC -> port = 0x81 ->
   soc.tx_data (soc.b_uart b1)
   = bits 0 8 (read_port (rf c) (f_rs1 (instr c))) /\
   soc.tx_valid (soc.b_uart b1)
   = negb (soc.bi_tx_ready i && soc.tx_pending u) /\
   state (soc.b_cpu b1) = FETCH /\ rf (soc.b_cpu b1) = rf c) /\
  (f_func (instr c) = 0xB -> wf (rf c) -> f_rd (instr c) <> 0 ->
   state (soc.b_cpu b2) = FETCH /\
   (port = 0x80 ->
    read_port (rf (soc.b_cpu b2)) (f_rd (instr c))
    = Z.b2z (soc.rx_ready_int u) + 2 * Z.b2z (negb (soc.tx_pending u))) /\
   (port = 0x81 ->
    read_port (rf (soc.b_cpu b2)) (f_rd (instr c)) = trunc 8 (soc.rx_buf u) /\
    soc.rx_ready_int (soc.b_uart b1)
    = soc.bi_rx_valid i && negb (soc.rx_ready_int u))).
Proof.
  intros Hst Hop. cbv zeta.
  assert (Hb : forall x, trunc 8 (bits 0 8 x) = bits 0 8 x).
  { intros x. apply trunc_small. apply (bits_range 0 8 x). lia. }
  split.
  - intros Hf Hport.
    unfold soc.board_step. cbn [soc.b_cpu soc.b_uart].
    rewrite (ext_io_execute rv _ _ Hst Hop (or_intror Hf)). rewrite Hf.
    change (12 =? 11) with false. cbv iota.
    cbn [state rf set_cycles set_state set_pc].
    unfold soc.uart_step, soc.uart_in, soc.tx_data, soc.tx_valid. cbv zeta.
    cbn [soc.tx_buf soc.tx_pending soc.wr soc.addr soc.wdata soc.tx_ready].
    rewrite (ext_io_outputs _ Hst Hop (or_intror Hf)). rewrite Hf.
    change (12 =? 11) with false. cbv iota.
    cbn [io_wr io_addr io_wdata drive_io].
    rewrite !trunc_trunc by lia. rewrite !Hb, Hport.
    change (129 =? 129) with true. cbn [andb].
    rewrite (ext_io_port1 _ Hst Hop (or_intror Hf)).
    rewrite bits_trunc by lia.
    split; [apply Hb |]. repeat split.
  - intros Hf Hwf Hrd.
    assert (Hin : cpu.io_rdata (soc.cpu_in b i)
                  = soc.rdata (soc.b_uart b) (soc.uart_in b i)) by reflexivity.
    destruct (ext_inx_two_ticks rv (soc.b_cpu b) (soc.cpu_in b i)
                (soc.cpu_in (soc.board_step rv b i) i2) Hst Hop Hf Hwf Hrd)
      as [S2 R2].
    change (soc.b_cpu (soc.board_step rv (soc.board_step rv b i) i2))
      with (tick rv (tick rv (soc.b_cpu b) (soc.cpu_in b i))
              (soc.cpu_in (soc.board_step rv b i) i2)).
    rewrite R2, Hin. split; [exact S2 |].
    unfold soc.rdata, soc.uart_in.
    cbn [soc.rd soc.addr].
    rewrite (ext_io_outputs _ Hst Hop (or_introl Hf)). rewrite Hf.
    change (11 =? 11) with true. cbv iota.
    cbn [io_rd io_addr drive_io].
    rewrite trunc_trunc, Hb by lia.
    split; intros Hport; rewrite Hport.
    + unfold soc.status.
      destruct (soc.rx_ready_int (soc.b_uart b)),
               (soc.tx_pending (soc.b_uart b)); reflexivity.
    + split.
      * cbv iota. apply trunc_trunc. lia.
      * unfold soc.board_step. cbn [soc.b_uart].
        unfold soc.uart_step, soc.uart_in. cbv zeta.
        cbn [soc.rx_ready_int soc.rd soc.addr soc.rx_valid].
        rewrite (ext_io_outputs _ Hst Hop (or_introl Hf)). rewrite Hf.
        change (11 =? 11) with true. cbv iota.
        cbn [io_rd io_addr drive_io].
        rewrite trunc_trunc, Hb, Hport by lia.
        change (129 =? 129) with true. cbn [andb].
        destruct (soc.bi_rx_valid i && negb (soc.rx_ready_int (soc.b_uart b)));
          reflexivity.
Qed.

Lemma board_extended_io_witness :
  let b := {| soc.b_cpu := set_instr_ext 0x0081 (scenario.at_execute 0xF05C);
              soc.b_uart := soc.uart_reset |} in
  let i := soc.board_idle in
  let c := soc.b_cpu b in
  let b1 := soc.board_step scenario.rv b i in
  (state c = EXECUTE /\ opcode (instr c) = 0xF /\ f_func (instr c) = 0xC /\
   bits 0 8 (instr_ext c) = 0x81) /\
  soc.tx_data (soc.b_uart b1) = 0x34 /\
  soc.tx_valid (soc.b_uart b1) = true /\
  state (soc.b_cpu b1) = FETCH.
Proof.
  split; [repeat split |].
  pose proof (board_extended_io scenario.rv
           {| soc.b_cpu := set_instr_ext 0x0081 (scenario.at_execute 0xF05C);
              soc.b_uart := soc.uart_reset |}
           soc.board_idle
           soc.board_idle
           eq_refl eq_refl) as [Hout _].
  destruct (Hout eq_refl eq_refl) as (H1 & H2 & H3 & _).
  cbv zeta. rewrite H1, H2, H3. repeat split.
Defined.

End board_facts.
